(** * HeatmapLossLayer: the loss and gradient passes of
      src/caffe/layers/heatmap_loss_layer.cpp

    The layer is embedded as pure functions on an explicit state made of the
    blobs the C++ methods touch: [bottom[0]] (prediction), [bottom[1]]
    (ground truth), [top[0]] (the loss) and the layer's own [diff_] blob.
    Every method returns a [result]: a new state, or the reason the run
    stopped.  What C++ leaves undefined (an access outside a buffer, a signed
    overflow of [int]) stops the run with an error of its own.

    The arithmetic type [Dtype] of the template is a type class, with the two
    instantiations of INSTANTIATE_CLASS (float and double) given as IEEE 754
    binary32 and binary64 arithmetic.

    The layer is modelled with heatmap_loss_param.visualize = false (the
    default): the display branch only fills local images and windows. *)

From Stdlib Require Import ZArith List Lia Bool.
From Stdlib Require Import Floats.SpecFloat.
Import ListNotations.
Local Open Scope Z_scope.

(** ** Errors and the error monad *)

Inductive error : Type :=
| ShapeMismatch        (* a CHECK_EQ of Reshape failed (fatal) *)
| UninitializedBuffer  (* a blob was accessed before it had any storage *)
| OutOfBounds          (* access outside a buffer: undefined behaviour *)
| IntOverflow.         (* signed overflow of int: undefined behaviour *)

Inductive result (A : Type) : Type :=
| Ok (a : A)
| Err (e : error).

Arguments Ok {A} a.
Arguments Err {A} e.

Definition bind {A B : Type} (c : result A) (k : A -> result B) : result B :=
  match c with
  | Ok a => k a
  | Err e => Err e
  end.

Declare Scope result_scope.
Delimit Scope result_scope with result.
Notation "x <- c ;; k" := (bind c (fun x => k))
  (at level 100, c at next level, right associativity) : result_scope.
Local Open Scope result_scope.

(** Monadic left fold: the accumulator is threaded through the elements in
    order and the first error stops the fold. *)
Fixpoint foldM {A B : Type} (f : A -> B -> result A) (l : list B) (a : A)
  : result A :=
  match l with
  | [] => Ok a
  | b :: l' => a' <- f a b ;; foldM f l' a'
  end.

(** [agrees x y]: the run [x] has the outcome [y], unless it stopped on an
    int overflow. *)
Definition agrees {A : Type} (x y : result A) : Prop :=
  x = Err IntOverflow \/ x = y.

(** [0; 1; ...; n-1], empty when [n <= 0]. *)
Definition Zrange (n : Z) : list Z := map Z.of_nat (seq 0 (Z.to_nat n)).

(** [for (int i = 0; i < n; i++) body], the loop state being [a]. *)
Definition for_loop {A : Type} (n : Z) (body : Z -> A -> result A) (a : A)
  : result A :=
  foldM (fun a i => body i a) (Zrange n) a.

(** ** The C++ type int *)

Definition INT_MIN : Z := -2147483648.
Definition INT_MAX : Z := 2147483647.

Definition in_int (z : Z) : bool := (INT_MIN <=? z) && (z <=? INT_MAX).

Definition int_of (z : Z) : result Z :=
  if in_int z then Ok z else Err IntOverflow.

Definition int_mul (a b : Z) : result Z := int_of (a * b).
Definition int_add (a b : Z) : result Z := int_of (a + b).

(** ** Buffers *)

(** [p[k]] for a buffer [p]. *)
Definition read {A : Type} (p : list A) (k : Z) : result A :=
  if k <? 0 then Err OutOfBounds
  else match nth_error p (Z.to_nat k) with
       | Some x => Ok x
       | None => Err OutOfBounds
       end.

Fixpoint set_nth {A : Type} (p : list A) (n : nat) (x : A) : list A :=
  match p, n with
  | [], _ => []
  | _ :: p', O => x :: p'
  | y :: p', S n' => y :: set_nth p' n' x
  end.

(** [p[k] = x]. *)
Definition write {A : Type} (p : list A) (k : Z) (x : A) : result (list A) :=
  if (0 <=? k) && (k <? Z.of_nat (length p))
  then Ok (set_nth p (Z.to_nat k) x)
  else Err OutOfBounds.

(** [memcpy(dst, src, sizeof(A) * n)]. *)
Definition memcpy {A : Type} (dst src : list A) (n : Z) : result (list A) :=
  if (0 <=? n) && (n <=? Z.of_nat (length dst)) && (n <=? Z.of_nat (length src))
  then Ok (firstn (Z.to_nat n) src ++ skipn (Z.to_nat n) dst)
  else Err OutOfBounds.

(** ** The arithmetic of the template parameter [Dtype] *)

Class Scalar (Dtype : Type) : Type := {
  cfloat : Type;                          (* the C++ type float *)
  of_int : Z -> Dtype;                    (* conversion int -> Dtype *)
  to_float : Dtype -> cfloat;             (* the cast (float)x *)
  of_float : cfloat -> Dtype;             (* conversion float -> Dtype *)
  fsub : cfloat -> cfloat -> cfloat;      (* - on float *)
  fmul : cfloat -> cfloat -> cfloat;      (* * on float *)
  add : Dtype -> Dtype -> Dtype;          (* + on Dtype *)
  sub : Dtype -> Dtype -> Dtype;          (* - on Dtype *)
  div : Dtype -> Dtype -> Dtype           (* / on Dtype *)
}.

(** IEEE 754 formats, round to nearest even. *)
Definition SFconv (prec emax : Z) (x : spec_float) : spec_float :=
  match x with
  | S754_finite s m e => binary_normalize prec emax (cond_Zopp s (Zpos m)) e s
  | _ => x
  end.

Definition SFof_int (prec emax : Z) (n : Z) : spec_float :=
  binary_normalize prec emax n 0 false.

(** Dtype = float *)
Definition Scalar_float : Scalar spec_float := {|
  cfloat := spec_float;
  of_int := SFof_int 24 128;
  to_float := fun x => x;
  of_float := fun x => x;
  fsub := SFsub 24 128;
  fmul := SFmul 24 128;
  add := SFadd 24 128;
  sub := SFsub 24 128;
  div := SFdiv 24 128
|}.

(** Dtype = double *)
Definition Scalar_double : Scalar spec_float := {|
  cfloat := spec_float;
  of_int := SFof_int 53 1024;
  to_float := SFconv 24 128;
  of_float := SFconv 53 1024;
  fsub := SFsub 24 128;
  fmul := SFmul 24 128;
  add := SFadd 53 1024;
  sub := SFsub 53 1024;
  div := SFdiv 53 1024
|}.

Section Layer.

Context {Dtype : Type} {SD : Scalar Dtype}.

(** ** Blobs *)

(** A 4-axis blob: its shape and its two buffers (values and gradients).
    A buffer is [None] as long as the blob has no storage. *)
Record Blob : Type := {
  num : Z;
  channels : Z;
  height : Z;
  width : Z;
  data_mem : option (list Dtype);
  diff_mem : option (list Dtype)
}.

Definition count (b : Blob) : Z := num b * channels b * height b * width b.

(** Modelled from the spec: the accessors of Blob (caffe/blob.hpp is not among
    the sources).  A buffer that was never allocated raises
    UninitializedBuffer. *)
Definition buffer (m : option (list Dtype)) : result (list Dtype) :=
  match m with
  | Some p => Ok p
  | None => Err UninitializedBuffer
  end.

Definition cpu_data (b : Blob) : result (list Dtype) := buffer (data_mem b).
Definition mutable_cpu_data (b : Blob) : result (list Dtype) := buffer (data_mem b).
Definition mutable_cpu_diff (b : Blob) : result (list Dtype) := buffer (diff_mem b).

Definition set_data (b : Blob) (p : list Dtype) : Blob :=
  {| num := num b; channels := channels b; height := height b;
     width := width b; data_mem := Some p; diff_mem := diff_mem b |}.

Definition set_diff (b : Blob) (p : list Dtype) : Blob :=
  {| num := num b; channels := channels b; height := height b;
     width := width b; data_mem := data_mem b; diff_mem := Some p |}.

(** Modelled from the spec: Blob::Reshape (caffe/blob.cpp is not among the
    sources).  The blob takes the new shape and gets storage for that many
    elements; the model fills fresh storage with zero. *)
Definition Blob_Reshape (n c h w : Z) : Blob :=
  let fresh := repeat (of_int 0) (Z.to_nat (n * c * h * w)) in
  {| num := n; channels := c; height := h; width := w;
     data_mem := Some fresh; diff_mem := Some fresh |}.

(** A blob as its default constructor leaves it: no shape, no storage. *)
Definition Blob_new : Blob :=
  {| num := 0; channels := 0; height := 0; width := 0;
     data_mem := None; diff_mem := None |}.

(** ** The state the layer works on *)

Record State : Type := {
  bottom0 : Blob;   (* bottom[0]: the output of the net *)
  bottom1 : Blob;   (* bottom[1]: the label (ground truth) *)
  top0 : Blob;      (* top[0]: the loss *)
  diff_ : Blob      (* the layer's member diff_ *)
}.

Definition set_top0 (s : State) (b : Blob) : State :=
  {| bottom0 := bottom0 s; bottom1 := bottom1 s; top0 := b; diff_ := diff_ s |}.

Definition set_diff_ (s : State) (b : Blob) : State :=
  {| bottom0 := bottom0 s; bottom1 := bottom1 s; top0 := top0 s; diff_ := b |}.

Definition set_bottom0 (s : State) (b : Blob) : State :=
  {| bottom0 := b; bottom1 := bottom1 s; top0 := top0 s; diff_ := diff_ s |}.

Definition set_bottom1 (s : State) (b : Blob) : State :=
  {| bottom0 := bottom0 s; bottom1 := b; top0 := top0 s; diff_ := diff_ s |}.

(** ** Reshape (lines 21-36) *)

Definition CHECK_EQ (a b : Z) : result unit :=
  if a =? b then Ok tt else Err ShapeMismatch.

(** Modelled from the spec: LossLayer::Reshape (caffe/layers/loss_layer.cpp is
    not among the sources).  The top blob becomes a scalar; by the spec the
    layer checks the channels, height and width only, so this step checks
    nothing. *)
Definition LossLayer_Reshape (s : State) : result State :=
  Ok (set_top0 s (Blob_Reshape 1 1 1 1)).

Definition Reshape (s : State) : result State :=
  s <- LossLayer_Reshape s ;;
  _ <- CHECK_EQ (channels (bottom0 s)) (channels (bottom1 s)) ;;
  _ <- CHECK_EQ (height (bottom0 s)) (height (bottom1 s)) ;;
  _ <- CHECK_EQ (width (bottom0 s)) (width (bottom1 s)) ;;
  Ok (set_diff_ s (Blob_Reshape (num (bottom0 s)) (channels (bottom0 s))
                                (height (bottom0 s)) (width (bottom0 s)))).

(** ** Forward_cpu (lines 52-164) *)

(** Line 121: the offset of pixel (i, j) of channel idx_ch of image idx_img. *)
Definition image_idx (label_img_size label_channel_size label_height : Z)
    (idx_img idx_ch i j : Z) : result Z :=
  t1 <- int_mul idx_img label_img_size ;;
  t2 <- int_mul idx_ch label_channel_size ;;
  t3 <- int_add t1 t2 ;;
  t4 <- int_mul i label_height ;;
  t5 <- int_add t3 t4 ;;
  int_add t5 j.

(** Lines 121-123: the body of the innermost loop. *)
Definition pixel_loss (bottom_pred gt_pred : list Dtype)
    (label_img_size label_channel_size label_height : Z)
    (idx_img idx_ch i j : Z) (loss : Dtype) : result Dtype :=
  k <- image_idx label_img_size label_channel_size label_height
                 idx_img idx_ch i j ;;
  p <- read bottom_pred k ;;
  g <- read gt_pred k ;;
  let diff := fsub (to_float p) (to_float g) in
  Ok (add loss (of_float (fmul diff diff))).

(** Lines 110-155: the four nested loops. *)
Definition accumulate_loss (bottom_pred gt_pred : list Dtype)
    (num_images num_channels label_height label_width : Z)
    (label_img_size label_channel_size : Z) (loss : Dtype) : result Dtype :=
  for_loop num_images (fun idx_img loss =>
    for_loop num_channels (fun idx_ch loss =>
      for_loop label_height (fun i loss =>
        for_loop label_width (fun j loss =>
          pixel_loss bottom_pred gt_pred
                     label_img_size label_channel_size label_height
                     idx_img idx_ch i j loss) loss) loss) loss) loss.

(** Lines 52-164 with heatmap_loss_param.visualize unset: the branches of the
    display (lines 89-107, 126-134, 141-154) are not taken.  The pass for any
    value of visualize is [Forward_cpu_display] below. *)
Definition Forward_cpu (s : State) : result State :=
  let loss := of_int 0 in
  bottom_pred <- cpu_data (bottom0 s) ;;
  gt_pred <- cpu_data (bottom1 s) ;;
  let num_images := num (bottom1 s) in
  let label_height := height (bottom1 s) in
  let label_width := width (bottom1 s) in
  let num_channels := channels (bottom0 s) in
  label_channel_size <- int_mul label_height label_width ;;
  label_img_size <- int_mul label_channel_size num_channels ;;
  loss <- accumulate_loss bottom_pred gt_pred
            num_images num_channels label_height label_width
            label_img_size label_channel_size loss ;;
  n1 <- int_mul num_images num_channels ;;
  n <- int_mul n1 label_channel_size ;;
  let loss := div loss (of_int n) in
  top_data <- mutable_cpu_data (top0 s) ;;
  top_data <- write top_data 0 loss ;;
  Ok (set_top0 s (set_data (top0 s) top_data)).

(** ** Backward_cpu (lines 300-322) *)

(** Modelled from the spec: caffe_sub (caffe/util/math_functions.cpp is not
    among the sources): y[i] = a[i] - b[i] for the first n elements. *)
Fixpoint sub_elements (a b : list Dtype) : list Dtype :=
  match a, b with
  | x :: a', y :: b' => sub x y :: sub_elements a' b'
  | _, _ => []
  end.

Definition caffe_sub (n : Z) (a b y : list Dtype) : result (list Dtype) :=
  if (0 <=? n) && (n <=? Z.of_nat (length a)) && (n <=? Z.of_nat (length b))
     && (n <=? Z.of_nat (length y))
  then Ok (sub_elements (firstn (Z.to_nat n) a) (firstn (Z.to_nat n) b)
           ++ skipn (Z.to_nat n) y)
  else Err OutOfBounds.

Definition Backward_cpu (s : State) : result State :=
  let count := count (bottom0 s) in
  a <- cpu_data (bottom0 s) ;;
  b <- cpu_data (bottom1 s) ;;
  y <- mutable_cpu_data (diff_ s) ;;
  y <- caffe_sub count a b y ;;
  let s := set_diff_ s (set_data (diff_ s) y) in
  d0 <- mutable_cpu_diff (bottom0 s) ;;
  src <- cpu_data (diff_ s) ;;
  d0 <- memcpy d0 src count ;;
  let s := set_bottom0 s (set_diff (bottom0 s) d0) in
  d1 <- mutable_cpu_diff (bottom1 s) ;;
  src <- cpu_data (diff_ s) ;;
  d1 <- memcpy d1 src count ;;
  Ok (set_bottom1 s (set_diff (bottom1 s) d1)).

(** ** Forward_gpu and Backward_gpu (lines 325-340) *)

Definition Forward_gpu (s : State) : result State := Forward_cpu s.

Definition Backward_gpu (s : State) : result State := Backward_cpu s.

End Layer.

Arguments Blob Dtype : clear implicits.
Arguments State Dtype : clear implicits.

(** ** The statements of the specification, as definitions *)

Section Specification.

Context {Dtype : Type} {SD : Scalar Dtype}.

(** The index tuples (image, channel, row, column) of an N x C x H x W
    tensor, in the order the forward pass walks them. *)
Definition loop_indices (N C H W : Z) : list (Z * Z * Z * Z) :=
  flat_map (fun n =>
    flat_map (fun c =>
      flat_map (fun i =>
        map (fun j => (n, c, i, j)) (Zrange W)) (Zrange H)) (Zrange C))
    (Zrange N).

(** The flattening the specification gives for the forward pass. *)
Definition flat_offset (C H W : Z) (n c i j : Z) : Z :=
  n * (C * H * W) + c * (H * W) + i * H + j.

(** Accumulate (prediction[k] - target[k])^2 into loss. *)
Definition squared_diff_at (pred gt : list Dtype) (k : Z) (loss : Dtype)
  : result Dtype :=
  p <- read pred k ;;
  g <- read gt k ;;
  let d := fsub (to_float p) (to_float g) in
  Ok (add loss (of_float (fmul d d))).

(** Store the loss in top[0]. *)
Definition report_loss (s : State Dtype) (loss : Dtype) : result (State Dtype) :=
  top_data <- mutable_cpu_data (top0 s) ;;
  top_data <- write top_data 0 loss ;;
  Ok (set_top0 s (set_data (top0 s) top_data)).

(** Lines 57-159 of the forward pass: the loss, before it is stored. *)
Definition computed_loss (s : State Dtype) : result Dtype :=
  bottom_pred <- cpu_data (bottom0 s) ;;
  gt_pred <- cpu_data (bottom1 s) ;;
  label_channel_size <- int_mul (height (bottom1 s)) (width (bottom1 s)) ;;
  label_img_size <- int_mul label_channel_size (channels (bottom0 s)) ;;
  loss <- accumulate_loss bottom_pred gt_pred
            (num (bottom1 s)) (channels (bottom0 s))
            (height (bottom1 s)) (width (bottom1 s))
            label_img_size label_channel_size (of_int 0) ;;
  n1 <- int_mul (num (bottom1 s)) (channels (bottom0 s)) ;;
  n <- int_mul n1 label_channel_size ;;
  Ok (div loss (of_int n)).

(** The forward pass as the specification words it: every index tuple reads
    both tensors at [flat_offset], and the sum is divided by the number of
    index tuples. *)
Definition forward_by_offsets (s : State Dtype) : result (State Dtype) :=
  pred <- cpu_data (bottom0 s) ;;
  gt <- cpu_data (bottom1 s) ;;
  let N := num (bottom1 s) in
  let C := channels (bottom0 s) in
  let H := height (bottom1 s) in
  let W := width (bottom1 s) in
  loss <- foldM (fun loss '(n, c, i, j) =>
                   squared_diff_at pred gt (flat_offset C H W n c i j) loss)
                (loop_indices N C H W) (of_int 0) ;;
  report_loss s (div loss (of_int (N * C * H * W))).

(** The loss the layer leaves in top[0]. *)
Definition reported_loss (r : result (State Dtype)) : result Dtype :=
  s <- r ;;
  top_data <- cpu_data (top0 s) ;;
  read top_data 0.

(** The terms of lines 122-123 summed over every element of the two tensors,
    each element once, in storage order: both values are cast to float, the
    difference and its square are taken in float, and the square is added to
    the loss in Dtype. *)
Fixpoint raw_sum_of_squared_diffs (pred gt : list Dtype) (loss : Dtype)
  : Dtype :=
  match pred, gt with
  | p :: pred', g :: gt' =>
      let d := fsub (to_float p) (to_float g) in
      raw_sum_of_squared_diffs pred' gt' (add loss (of_float (fmul d d)))
  | _, _ => loss
  end.

(** The normalized mean of the specification: the raw sum divided by
    num_images * num_channels * height * width. *)
Definition mean_squared_error (b0 b1 : Blob Dtype) : result Dtype :=
  pred <- cpu_data b0 ;;
  gt <- cpu_data b1 ;;
  Ok (div (raw_sum_of_squared_diffs pred gt (of_int 0)) (of_int (count b0))).

(** Sizes for which no int of the forward pass overflows. *)
Definition sizes_fit (N C H W : Z) : Prop :=
  0 <= N /\ 0 <= C /\ 0 <= H /\ 0 <= W /\
  H * W <= INT_MAX /\ H * W * C <= INT_MAX /\ N * C <= INT_MAX /\
  N * C * (H * W) + H * H + W <= INT_MAX.

(** Two blobs of one shape. *)
Definition same_shape (b0 b1 : Blob Dtype) : Prop :=
  num b0 = num b1 /\ channels b0 = channels b1 /\
  height b0 = height b1 /\ width b0 = width b1.

(** A blob holding a tensor: both buffers are allocated and have one element
    per index of its shape. *)
Definition holds (b : Blob Dtype) (values grads : list Dtype) : Prop :=
  data_mem b = Some values /\ diff_mem b = Some grads /\
  Z.of_nat (length values) = count b /\ Z.of_nat (length grads) = count b.

(** Modelled from the spec: one training step as the host framework runs it
    (caffe/layer.hpp and caffe/net.cpp are not among the sources): shape
    validation, then the forward pass, then the backward pass. *)
Definition training_step (s : State Dtype) : result (State Dtype) :=
  s <- Reshape s ;;
  s <- Forward_cpu s ;;
  Backward_cpu s.

End Specification.

(** ** Concrete tensors *)

Definition f32 : Z -> spec_float := SFof_int 24 128.
Definition f64 : Z -> spec_float := SFof_int 53 1024.

Definition tensor (n c h w : Z) (values : list spec_float) : Blob spec_float :=
  {| num := n; channels := c; height := h; width := w;
     data_mem := Some values;
     diff_mem := Some (repeat (S754_zero false) (length values)) |}.

(** A layer that was never reshaped, with its two bottom blobs. *)
Definition fresh_layer (b0 b1 : Blob spec_float) : State spec_float :=
  {| bottom0 := b0; bottom1 := b1; top0 := Blob_new; diff_ := Blob_new |}.

(** The 1 x 1 x 2 x 2 scenario of the specification, as float and double. *)
Definition scenario_float : State spec_float :=
  fresh_layer (tensor 1 1 2 2 (map f32 [1; 2; 3; 4]))
              (tensor 1 1 2 2 (map f32 [1; 1; 1; 1])).

Definition scenario_double : State spec_float :=
  fresh_layer (tensor 1 1 2 2 (map f64 [1; 2; 3; 4]))
              (tensor 1 1 2 2 (map f64 [1; 1; 1; 1])).

(** The float scenario once Reshape has run: top[0] is a scalar and [diff_]
    has the shape of the prediction. *)
Definition scenario_reshaped : State spec_float :=
  {| bottom0 := bottom0 scenario_float;
     bottom1 := bottom1 scenario_float;
     top0 := @Blob_Reshape _ Scalar_float 1 1 1 1;
     diff_ := @Blob_Reshape _ Scalar_float 1 1 2 2 |}.

(** A batch of no image. *)
Definition empty_batch : State spec_float :=
  fresh_layer (tensor 0 1 2 2 []) (tensor 0 1 2 2 []).

Definition empty_batch_reshaped : State spec_float :=
  {| bottom0 := bottom0 empty_batch;
     bottom1 := bottom1 empty_batch;
     top0 := @Blob_Reshape _ Scalar_float 1 1 1 1;
     diff_ := @Blob_Reshape _ Scalar_float 0 1 2 2 |}.

(** Tensors higher than wide (2 rows, 1 column), and wider than high
    (2 rows, 3 columns). *)
Definition tall_pair : State spec_float :=
  fresh_layer (tensor 1 1 2 1 (map f32 [1; 2]))
              (tensor 1 1 2 1 (map f32 [1; 1])).

Definition wide_pair : State spec_float :=
  fresh_layer (tensor 1 1 2 3 (map f32 [0; 0; 0; 0; 0; 6]))
              (tensor 1 1 2 3 (map f32 [0; 0; 0; 0; 0; 0])).

(** A prediction of two images against a label of one image. *)
Definition two_against_one : State spec_float :=
  fresh_layer (tensor 2 1 1 2 (map f32 [3; 1; 5; 7]))
              (tensor 1 1 1 2 (map f32 [1; 1])).

(** A prediction of two channels against a label of one channel. *)
Definition channel_mismatch : State spec_float :=
  fresh_layer (tensor 1 2 1 1 (map f32 [1; 2]))
              (tensor 1 1 1 1 (map f32 [1])).

(** ** The display images of the forward pass (lines 86-107, 113-138)

    With heatmap_loss_param.visualize set, the loops of the forward pass
    also fill three OpenCV images of label_height rows and label_width
    columns.  An image of type CV_32FC1 made by cv::Mat::zeros is one
    row-major buffer, and [at<float>(r, c)] addresses its element
    [r * cols + c] without a check. *)

Record Mat (F : Type) : Type := {
  rows : Z;
  cols : Z;
  elems : list F
}.

Arguments rows {F} _.
Arguments cols {F} _.
Arguments elems {F} _.

(** [cv::Mat::zeros(rows, cols, CV_32FC1)] *)
Definition Mat_zeros {F : Type} (zero : F) (r c : Z) : Mat F :=
  {| rows := r; cols := c; elems := repeat zero (Z.to_nat (r * c)) |}.

(** [m.at<float>(r, c) = v] *)
Definition Mat_at {F : Type} (m : Mat F) (r c : Z) (v : F) : result (Mat F) :=
  e <- write (elems m) (r * cols m + c) v ;;
  Ok {| rows := rows m; cols := cols m; elems := e |}.

Record Images (F : Type) : Type := {
  bottom_img : Mat F;
  gt_img : Mat F;
  diff_img : Mat F
}.

Arguments bottom_img {F} _.
Arguments gt_img {F} _.
Arguments diff_img {F} _.

Section Display.

Context {Dtype : Type} {SD : Scalar Dtype}.

(** Lines 121-134: the body of the innermost loop, display included. *)
Definition pixel_loss_display (visualize : bool) (visualize_channel : Z)
    (bottom_pred gt_pred : list Dtype)
    (label_img_size label_channel_size label_height : Z)
    (idx_img idx_ch i j : Z) (st : Dtype * Images cfloat)
  : result (Dtype * Images cfloat) :=
  let '(loss, imgs) := st in
  k <- image_idx label_img_size label_channel_size label_height
                 idx_img idx_ch i j ;;
  p <- read bottom_pred k ;;
  g <- read gt_pred k ;;
  let diff := fsub (to_float p) (to_float g) in
  let loss := add loss (of_float (fmul diff diff)) in
  if (idx_ch =? visualize_channel) && visualize then
    b <- Mat_at (bottom_img imgs) j i (to_float p) ;;
    t <- Mat_at (gt_img imgs) j i (to_float g) ;;
    d <- Mat_at (diff_img imgs) j i (fmul diff diff) ;;
    Ok (loss, {| bottom_img := b; gt_img := t; diff_img := d |})
  else Ok (loss, imgs).

(** Lines 113-138: the loops over the channels and pixels of image idx_img,
    display included. *)
Definition image_pass_display (visualize : bool) (visualize_channel : Z)
    (bottom_pred gt_pred : list Dtype)
    (num_channels label_height label_width : Z)
    (label_img_size label_channel_size : Z)
    (idx_img : Z) (st : Dtype * Images cfloat)
  : result (Dtype * Images cfloat) :=
  for_loop num_channels (fun idx_ch st =>
    for_loop label_height (fun i st =>
      for_loop label_width (fun j st =>
        pixel_loss_display visualize visualize_channel bottom_pred gt_pred
                           label_img_size label_channel_size label_height
                           idx_img idx_ch i j st) st) st) st.

(** The same loops without the display: the body of the image loop of
    [accumulate_loss]. *)
Definition image_pass (bottom_pred gt_pred : list Dtype)
    (num_channels label_height label_width : Z)
    (label_img_size label_channel_size : Z)
    (idx_img : Z) (loss : Dtype) : result Dtype :=
  for_loop num_channels (fun idx_ch loss =>
    for_loop label_height (fun i loss =>
      for_loop label_width (fun j loss =>
        pixel_loss bottom_pred gt_pred
                   label_img_size label_channel_size label_height
                   idx_img idx_ch i j loss) loss) loss) loss.

(** The (channel, row, column) triples of one image, in loop order. *)
Definition image_indices (C H W : Z) : list (Z * Z * Z) :=
  flat_map (fun c =>
    flat_map (fun i => map (fun j => (c, i, j)) (Zrange W)) (Zrange H))
    (Zrange C).

(** Three images of [H] rows and [W] columns. *)
Definition images_of_size (H W : Z) (imgs : Images cfloat) : Prop :=
  cols (bottom_img imgs) = W /\ cols (gt_img imgs) = W /\
  cols (diff_img imgs) = W /\
  Z.of_nat (length (elems (bottom_img imgs))) = H * W /\
  Z.of_nat (length (elems (gt_img imgs))) = H * W /\
  Z.of_nat (length (elems (diff_img imgs))) = H * W.

(** What the three images hold at the place of pixel (i, j) of the
    visualised channel: the prediction, the target and their squared
    difference, stored at row j and column i. *)
Definition shows (pred gt : list Dtype) (sz_img sz_ch H n vc : Z)
    (st : Dtype * Images cfloat) (b : Z * Z * Z) : Prop :=
  let '(c, i, j) := b in
  c = vc ->
  exists k x z,
    image_idx sz_img sz_ch H n c i j = Ok k /\
    read pred k = Ok x /\ read gt k = Ok z /\
    read (elems (bottom_img (snd st))) (j * H + i) = Ok (to_float x) /\
    read (elems (gt_img (snd st))) (j * H + i) = Ok (to_float z) /\
    read (elems (diff_img (snd st))) (j * H + i)
      = Ok (fmul (fsub (to_float x) (to_float z))
                 (fsub (to_float x) (to_float z))).

End Display.

(** ** VisualizeBottom: the conversion loop (lines 238-268)

    The loop copies image idx_img of bottom[2] into an OpenCV image; what
    follows it in VisualizeBottom (PrepVis, resize, cvtColor, circle,
    imshow) is OpenCV's and is not part of the model. *)

(** The float operations of line 261, beside those of [Scalar]. *)
Class DisplayScalar (Dtype : Type) {SD : Scalar Dtype} : Type := {
  float_of_int : Z -> cfloat;             (* conversion int -> float *)
  fdiv : cfloat -> cfloat -> cfloat       (* / on float *)
}.

Definition Display_float : @DisplayScalar spec_float Scalar_float :=
  @Build_DisplayScalar spec_float Scalar_float
    (SFof_int 24 128) (SFdiv 24 128).

Definition Display_double : @DisplayScalar spec_float Scalar_double :=
  @Build_DisplayScalar spec_float Scalar_double
    (SFof_int 24 128) (SFdiv 24 128).

(** [cv::Mat::zeros(rows, cols, CV_32FC3)]: three floats per pixel. *)
Definition Mat_zeros3 {F : Type} (zero : F) (r c : Z) : Mat F :=
  {| rows := r; cols := c; elems := repeat zero (Z.to_nat (r * c * 3)) |}.

(** [m.at<cv::Vec3f>(r, c)[ch] = v] *)
Definition Mat_at3 {F : Type} (m : Mat F) (r c ch : Z) (v : F)
  : result (Mat F) :=
  e <- write (elems m) ((r * cols m + c) * 3 + ch) v ;;
  Ok {| rows := rows m; cols := cols m; elems := e |}.

Section Bottom.

Context {Dtype : Type} {SD : Scalar Dtype} {DS : DisplayScalar Dtype}.

(** Line 259. *)
Definition VisualizeBottom_image_idx (W H C : Z) (idx_img idx_ch i j : Z)
  : result Z :=
  m1 <- int_mul idx_img W ;;
  m2 <- int_mul m1 H ;;
  m3 <- int_mul m2 C ;;
  m4 <- int_mul idx_ch W ;;
  m5 <- int_mul m4 H ;;
  s1 <- int_add m3 m5 ;;
  m6 <- int_mul i H ;;
  s2 <- int_add s1 m6 ;;
  int_add s2 j.

(** Lines 259-265: the body of the innermost loop. *)
Definition VisualizeBottom_pixel (visualisation_bottom : Blob Dtype)
    (isRGB : bool) (idx_img visualize_channel : Z) (idx_ch i j : Z)
    (img : Mat cfloat) : result (Mat cfloat) :=
  k <- VisualizeBottom_image_idx (width visualisation_bottom)
         (height visualisation_bottom) (channels visualisation_bottom)
         idx_img idx_ch i j ;;
  if isRGB && (idx_ch <? 3) then
    data <- cpu_data visualisation_bottom ;;
    x <- read data k ;;
    Mat_at3 img j i idx_ch
            (fdiv (fmul (float_of_int 4) (to_float x)) (float_of_int 255))
  else if idx_ch =? visualize_channel then
    data <- cpu_data visualisation_bottom ;;
    x <- read data k ;;
    Mat_at img j i (to_float x)
  else Ok img.

(** Lines 243-268. *)
Definition VisualizeBottom_convert (visualisation_bottom : Blob Dtype)
    (idx_img visualize_channel : Z) : result (Mat cfloat) :=
  let isRGB := channels visualisation_bottom =? 3 in
  let visualisation_bottom_img :=
    if isRGB
    then Mat_zeros3 (float_of_int 0) (height visualisation_bottom)
                    (width visualisation_bottom)
    else Mat_zeros (float_of_int 0) (height visualisation_bottom)
                   (width visualisation_bottom) in
  for_loop (channels visualisation_bottom) (fun idx_ch img =>
    for_loop (height visualisation_bottom) (fun i img =>
      for_loop (width visualisation_bottom) (fun j img =>
        VisualizeBottom_pixel visualisation_bottom isRGB
                              idx_img visualize_channel idx_ch i j img)
        img) img) visualisation_bottom_img.

End Bottom.

(** ** LayerSetUp (lines 39-49) *)

(** The fields of the layer parameter the layer uses: the repeated field
    loss_weight (values of type float) and the heatmap_loss_param. *)
Record LayerParameter (F : Type) : Type := {
  loss_weight : list F;
  visualize : bool;
  visualize_channel : Z
}.

Arguments loss_weight {F} _.
Arguments visualize {F} _.
Arguments visualize_channel {F} _.

(** [add_loss_weight(w)] appends to the repeated field. *)
Definition add_loss_weight {F : Type} (lp : LayerParameter F) (w : F)
  : LayerParameter F :=
  {| loss_weight := loss_weight lp ++ [w];
     visualize := visualize lp;
     visualize_channel := visualize_channel lp |}.

Definition loss_weight_size {F : Type} (lp : LayerParameter F) : Z :=
  Z.of_nat (length (loss_weight lp)).

Definition LayerSetUp {Dtype : Type} {SD : Scalar Dtype}
    (layer_param_ : LayerParameter cfloat) : LayerParameter cfloat :=
  if loss_weight_size layer_param_ =? 0
  then add_loss_weight layer_param_ (to_float (of_int 1))
  else layer_param_.

(** ** Reshape with the base-class step as a parameter

    LossLayer::Reshape, called at line 26, is not among the sources.  In
    [Reshape_after] it is a parameter: lines 29-35 follow whatever it
    does. *)

Section ReshapeAfter.

Context {Dtype : Type} {SD : Scalar Dtype}.

Definition Reshape_after (LossLayer_Reshape : State Dtype -> result (State Dtype))
    (s : State Dtype) : result (State Dtype) :=
  s <- LossLayer_Reshape s ;;
  _ <- CHECK_EQ (channels (bottom0 s)) (channels (bottom1 s)) ;;
  _ <- CHECK_EQ (height (bottom0 s)) (height (bottom1 s)) ;;
  _ <- CHECK_EQ (width (bottom0 s)) (width (bottom1 s)) ;;
  Ok (set_diff_ s (Blob_Reshape (num (bottom0 s)) (channels (bottom0 s))
                                (height (bottom0 s)) (width (bottom0 s)))).

(** The forward pass in the words of the specification, for a given number
    of images, of channels, of rows and of columns: every index tuple of
    [num_images x num_channels x label_height x label_width] reads both
    buffers at [flat_offset], and the sum is divided by the number of index
    tuples. *)
Definition forward_with_dims
    (num_images num_channels label_height label_width : Z)
    (s : State Dtype) : result (State Dtype) :=
  pred <- cpu_data (bottom0 s) ;;
  gt <- cpu_data (bottom1 s) ;;
  loss <- foldM (fun loss '(n, c, i, j) =>
                   squared_diff_at pred gt
                     (flat_offset num_channels label_height label_width
                                  n c i j) loss)
                (loop_indices num_images num_channels
                              label_height label_width) (of_int 0) ;;
  report_loss s (div loss (of_int (num_images * num_channels
                                   * label_height * label_width))).

End ReshapeAfter.

(** ** Forward_cpu with the display (lines 52-164)

    The forward pass for any value of heatmap_loss_param.visualize.
    cv::namedWindow (line 98) and the calls of lines 147-153 (Visualize,
    VisualizeBottom on the bottom blobs and visualize_channel, cv::waitKey)
    draw with OpenCV; they are parameters here: [namedWindow] and
    [show_image] act on the state [Window] of the display and on the images,
    and either return or stop the run. *)

Section ForwardDisplay.

Context {Dtype : Type} {SD : Scalar Dtype} {DS : DisplayScalar Dtype}.

Variable Window : Type.
Variable namedWindow : Window -> result Window.
Variable show_image :
  Z -> Dtype -> Images cfloat -> Window -> result (Images cfloat * Window).

(** [cv::Mat m;] *)
Definition Mat_empty : Mat cfloat := {| rows := 0; cols := 0; elems := [] |}.

(** Lines 86-107. *)
Definition create_images (visualize : bool) (label_height label_width : Z)
    (w : Window) : result (Images cfloat * Window) :=
  if visualize then
    w <- namedWindow w ;;
    Ok ({| bottom_img := Mat_zeros (float_of_int 0) label_height label_width;
           gt_img := Mat_zeros (float_of_int 0) label_height label_width;
           diff_img := Mat_zeros (float_of_int 0) label_height label_width |},
        w)
  else
    Ok ({| bottom_img := Mat_empty; gt_img := Mat_empty;
           diff_img := Mat_empty |}, w).

(** Lines 110-155: the body of the loop over the images. *)
Definition image_step (visualize : bool) (visualize_channel : Z)
    (bottom_pred gt_pred : list Dtype)
    (num_channels label_height label_width : Z)
    (label_img_size label_channel_size : Z)
    (idx_img : Z) (st : Dtype * Images cfloat * Window)
  : result (Dtype * Images cfloat * Window) :=
  let '(loss, imgs, w) := st in
  r <- image_pass_display visualize visualize_channel bottom_pred gt_pred
         num_channels label_height label_width
         label_img_size label_channel_size idx_img (loss, imgs) ;;
  let '(loss, imgs) := r in
  if visualize then
    d <- show_image idx_img loss imgs w ;;
    let '(imgs, w) := d in
    Ok (loss, imgs, w)
  else Ok (loss, imgs, w).

Definition Forward_cpu_display (layer_param_ : LayerParameter cfloat)
    (s : State Dtype) (w : Window) : result (State Dtype * Window) :=
  let loss := of_int 0 in
  let visualize := visualize layer_param_ in
  let visualize_channel := visualize_channel layer_param_ in
  bottom_pred <- cpu_data (bottom0 s) ;;
  gt_pred <- cpu_data (bottom1 s) ;;
  let num_images := num (bottom1 s) in
  let label_height := height (bottom1 s) in
  let label_width := width (bottom1 s) in
  let num_channels := channels (bottom0 s) in
  label_channel_size <- int_mul label_height label_width ;;
  label_img_size <- int_mul label_channel_size num_channels ;;
  d <- create_images visualize label_height label_width w ;;
  let '(imgs, w) := d in
  st <- for_loop num_images
          (image_step visualize visualize_channel bottom_pred gt_pred
                      num_channels label_height label_width
                      label_img_size label_channel_size)
          (loss, imgs, w) ;;
  let '(loss, imgs, w) := st in
  n1 <- int_mul num_images num_channels ;;
  n <- int_mul n1 label_channel_size ;;
  let loss := div loss (of_int n) in
  top_data <- mutable_cpu_data (top0 s) ;;
  top_data <- write top_data 0 loss ;;
  Ok (set_top0 s (set_data (top0 s) top_data), w).

End ForwardDisplay.

(** ** More concrete inputs *)

(** A state as Reshape leaves it (the state itself when Reshape fails). *)
Definition ready (s : State spec_float) : State spec_float :=
  match @Reshape _ Scalar_float s with
  | Ok s' => s'
  | Err _ => s
  end.

(** A prediction of one image against a label of two. *)
Definition one_against_two : State spec_float :=
  fresh_layer (tensor 1 1 1 2 (map f32 [3; 1]))
              (tensor 2 1 1 2 (map f32 [1; 1; 5; 7])).

(** Prediction and target with the same values. *)
Definition identical_pair : State spec_float :=
  fresh_layer (tensor 1 1 2 2 (map f32 [1; 2; 3; 4]))
              (tensor 1 1 2 2 (map f32 [1; 2; 3; 4])).

(** Three blank display images of [H] rows and [W] columns. *)
Definition blank_images (H W : Z) : Images spec_float :=
  {| bottom_img := Mat_zeros (S754_zero false) H W;
     gt_img := Mat_zeros (S754_zero false) H W;
     diff_img := Mat_zeros (S754_zero false) H W |}.

(** A layer parameter with no loss weight, and one with a weight of 5. *)
Definition no_weight : LayerParameter spec_float :=
  {| loss_weight := []; visualize := false; visualize_channel := 0 |}.

Definition weight_five : LayerParameter spec_float :=
  {| loss_weight := [f32 5]; visualize := true; visualize_channel := 2 |}.

(** ** The mean of squared differences in one IEEE format *)

(** The sum of (prediction - target)^2 over the elements of two tensors, in
    storage order, every operation in the format [prec], [emax]. *)
Definition sum_of_squared_differences (prec emax : Z)
    (pred gt : list spec_float) : spec_float :=
  fold_left (fun loss '(p, g) =>
               SFadd prec emax loss
                     (SFmul prec emax (SFsub prec emax p g)
                                      (SFsub prec emax p g)))
            (combine pred gt) (SFof_int prec emax 0).

(** The sum divided by [n]. *)
Definition mean_of_squared_differences (prec emax : Z)
    (pred gt : list spec_float) (n : Z) : spec_float :=
  SFdiv prec emax (sum_of_squared_differences prec emax pred gt)
        (SFof_int prec emax n).

(** The differences prediction - target, element by element, in one
    format. *)
Definition differences (prec emax : Z) (pred gt : list spec_float)
  : list spec_float :=
  map (fun '(p, g) => SFsub prec emax p g) (combine pred gt).

(** One pixel whose prediction and target are doubles that differ by 1 and
    have the same float: 2^24 + 1 against 2^24. *)
Definition narrowed_pair : State spec_float :=
  {| bottom0 := tensor 1 1 1 1 [f64 16777217];
     bottom1 := tensor 1 1 1 1 [f64 16777216];
     top0 := @Blob_Reshape _ Scalar_double 1 1 1 1;
     diff_ := @Blob_Reshape _ Scalar_double 1 1 1 1 |}.

(** ** Classes of IEEE values *)

(** Zeros and finite numbers: neither an infinity nor NaN. *)
Definition SFfinite (x : spec_float) : bool :=
  match x with
  | S754_zero _ | S754_finite _ _ _ => true
  | S754_infinity _ | S754_nan => false
  end.

(** [x] is NaN or has the sign [s]. *)
Definition has_sign (s : bool) (x : spec_float) : Prop :=
  match x with
  | S754_nan => True
  | S754_zero s' | S754_infinity s' | S754_finite s' _ _ => s' = s
  end.

(** [x] is NaN or has a clear sign bit: +0, a positive number or +infinity. *)
Definition not_negative (x : spec_float) : Prop := has_sign false x.

(** ** The error monad and loops *)

Lemma bind_Ok_inv {A B : Type} (c : result A) (k : A -> result B) (b : B) :
  bind c k = Ok b -> exists a, c = Ok a /\ k a = Ok b.
Proof.
  destruct c as [a | e]; simpl; intros H.
  - exists a. split; [reflexivity | exact H].
  - discriminate H.
Qed.

Lemma foldM_app {A B : Type} (f : A -> B -> result A) (l1 l2 : list B) (a : A) :
  foldM f (l1 ++ l2) a = bind (foldM f l1 a) (foldM f l2).
Proof.
  revert a. induction l1 as [| b l1 IH]; intros a; simpl.
  - reflexivity.
  - destruct (f a b) as [a' | e]; simpl; [apply IH | reflexivity].
Qed.

Lemma foldM_ext {A B : Type} (f g : A -> B -> result A) (l : list B) (a : A) :
  (forall a b, f a b = g a b) -> foldM f l a = foldM g l a.
Proof.
  intros E. revert a. induction l as [| b l IH]; intros a; simpl.
  - reflexivity.
  - rewrite E. destruct (g a b); simpl; [apply IH | reflexivity].
Qed.

Lemma foldM_map {A B C : Type} (f : A -> C -> result A) (h : B -> C)
    (l : list B) (a : A) :
  foldM f (map h l) a = foldM (fun a b => f a (h b)) l a.
Proof.
  revert a. induction l as [| b l IH]; intros a; simpl.
  - reflexivity.
  - destruct (f a (h b)); simpl; [apply IH | reflexivity].
Qed.

Lemma foldM_flat_map {A B C : Type} (f : A -> C -> result A)
    (h : B -> list C) (l : list B) (a : A) :
  foldM f (flat_map h l) a = foldM (fun a b => foldM f (h b) a) l a.
Proof.
  revert a. induction l as [| b l IH]; intros a; simpl.
  - reflexivity.
  - rewrite foldM_app. destruct (foldM f (h b) a); simpl;
      [apply IH | reflexivity].
Qed.

Lemma agrees_bind {A B : Type} (c c' : result A) (k k' : A -> result B) :
  agrees c c' -> (forall a, agrees (k a) (k' a)) ->
  agrees (bind c k) (bind c' k').
Proof.
  intros [-> | ->] Hk.
  - left. reflexivity.
  - destruct c' as [a | e]; simpl; [apply Hk | right; reflexivity].
Qed.

Lemma agrees_foldM {A B : Type} (f g : A -> B -> result A) (l : list B) :
  (forall a b, agrees (f a b) (g a b)) ->
  forall a, agrees (foldM f l a) (foldM g l a).
Proof.
  intros Hfg. induction l as [| b l IH]; intros a; simpl.
  - right. reflexivity.
  - apply agrees_bind; [apply Hfg | exact IH].
Qed.

Lemma int_of_Ok (z k : Z) : int_of z = Ok k -> k = z.
Proof.
  unfold int_of. destruct (in_int z); intros H; [| discriminate H].
  injection H as <-. reflexivity.
Qed.

Lemma int_of_fits (z : Z) : in_int z = true -> int_of z = Ok z.
Proof. unfold int_of. intros ->. reflexivity. Qed.

Lemma int_of_cases (z : Z) : int_of z = Err IntOverflow \/ int_of z = Ok z.
Proof. unfold int_of. destruct (in_int z); [right | left]; reflexivity. Qed.

Lemma agrees_int {A : Type} (z : Z) (k : Z -> result A) (y : result A) :
  agrees (k z) y -> agrees (bind (int_of z) k) y.
Proof.
  intros H. destruct (int_of_cases z) as [-> | ->]; simpl.
  - left. reflexivity.
  - exact H.
Qed.

Section Forward.

Context {Dtype : Type} {SD : Scalar Dtype}.

(** The four nested loops walk [loop_indices] once, in order. *)
Lemma accumulate_loss_indices (pred gt : list Dtype) (N C H W sz_img sz_ch : Z)
    (loss : Dtype) :
  accumulate_loss pred gt N C H W sz_img sz_ch loss =
  foldM (fun loss '(n, c, i, j) =>
           pixel_loss pred gt sz_img sz_ch H n c i j loss)
        (loop_indices N C H W) loss.
Proof.
  unfold accumulate_loss, for_loop, loop_indices.
  rewrite foldM_flat_map. apply foldM_ext. intros a n.
  rewrite foldM_flat_map. apply foldM_ext. intros a0 c.
  rewrite foldM_flat_map. apply foldM_ext. intros a1 i.
  rewrite foldM_map. reflexivity.
Qed.

(** Line 121 computes the offset the specification gives. *)
Lemma image_idx_flat_offset (C H W n c i j k : Z) :
  image_idx (H * W * C) (H * W) H n c i j = Ok k ->
  k = flat_offset C H W n c i j.
Proof.
  unfold image_idx, int_mul, int_add, flat_offset. intros E.
  repeat (apply bind_Ok_inv in E; destruct E as (? & E0 & E);
          apply int_of_Ok in E0; subst).
  apply int_of_Ok in E. subst. ring.
Qed.

Lemma image_idx_agrees (C H W n c i j : Z) :
  agrees (image_idx (H * W * C) (H * W) H n c i j)
         (Ok (flat_offset C H W n c i j)).
Proof.
  destruct (image_idx (H * W * C) (H * W) H n c i j) as [k | e] eqn:E.
  - right. apply image_idx_flat_offset in E. subst k. reflexivity.
  - left. revert E. unfold image_idx, int_mul, int_add.
    repeat match goal with
           | |- context [int_of ?z] =>
               destruct (int_of_cases z) as [-> | ->]; simpl;
               [intros E; congruence |]
           end.
    discriminate.
Qed.

Lemma pixel_loss_agrees (pred gt : list Dtype) (C H W n c i j : Z)
    (loss : Dtype) :
  agrees (pixel_loss pred gt (H * W * C) (H * W) H n c i j loss)
         (squared_diff_at pred gt (flat_offset C H W n c i j) loss).
Proof.
  unfold pixel_loss.
  destruct (image_idx_agrees C H W n c i j) as [-> | ->].
  - left. reflexivity.
  - right. reflexivity.
Qed.

(** Unless an int overflows on the way, the forward pass is
    [forward_by_offsets]. *)
Lemma Forward_cpu_agrees (s : State Dtype) :
  agrees (Forward_cpu s) (forward_by_offsets s).
Proof.
  unfold Forward_cpu, forward_by_offsets, report_loss.
  destruct (cpu_data (bottom0 s)) as [pred | e]; simpl; [| right; reflexivity].
  destruct (cpu_data (bottom1 s)) as [gt | e]; simpl; [| right; reflexivity].
  apply agrees_int. apply agrees_int.
  apply agrees_bind.
  - rewrite accumulate_loss_indices. apply agrees_foldM.
    intros a [[[n c] i] j]. apply pixel_loss_agrees.
  - intros loss. apply agrees_int. apply agrees_int.
    replace (num (bottom1 s) * channels (bottom0 s) * height (bottom1 s)
             * width (bottom1 s))
      with (num (bottom1 s) * channels (bottom0 s)
            * (height (bottom1 s) * width (bottom1 s))) by ring.
    right. reflexivity.
Qed.

(** *** Runs without overflow *)

Lemma foldM_ext_in {A B : Type} (f g : A -> B -> result A) (l : list B) :
  (forall a b, In b l -> f a b = g a b) ->
  forall a, foldM f l a = foldM g l a.
Proof.
  induction l as [| b l IH]; intros E a; simpl.
  - reflexivity.
  - rewrite (E a b (or_introl eq_refl)).
    destruct (g a b) as [a' | e]; simpl; [| reflexivity].
    apply IH. intros a0 b0 Hin. apply E. right. exact Hin.
Qed.

Lemma In_Zrange (k n : Z) : In k (Zrange n) <-> 0 <= k < n.
Proof.
  unfold Zrange. rewrite in_map_iff. split.
  - intros (m & <- & Hm). apply in_seq in Hm. lia.
  - intros Hk. exists (Z.to_nat k). split; [lia |].
    apply in_seq. lia.
Qed.

Lemma In_loop_indices (N C H W n c i j : Z) :
  In (n, c, i, j) (loop_indices N C H W) ->
  0 <= n < N /\ 0 <= c < C /\ 0 <= i < H /\ 0 <= j < W.
Proof.
  unfold loop_indices. intros Hin.
  apply in_flat_map in Hin. destruct Hin as (n' & Hn & Hin).
  apply in_flat_map in Hin. destruct Hin as (c' & Hc & Hin).
  apply in_flat_map in Hin. destruct Hin as (i' & Hi & Hin).
  apply in_map_iff in Hin. destruct Hin as (j' & E & Hj).
  injection E as <- <- <- <-.
  apply In_Zrange in Hn, Hc, Hi, Hj. auto.
Qed.

Lemma in_int_bounds (z : Z) : 0 <= z <= INT_MAX -> in_int z = true.
Proof.
  unfold in_int, INT_MIN, INT_MAX. intros Hz.
  apply andb_true_iff. split; apply Z.leb_le; lia.
Qed.

Lemma image_idx_fits (N C H W n c i j : Z) :
  sizes_fit N C H W ->
  0 <= n < N -> 0 <= c < C -> 0 <= i < H -> 0 <= j < W ->
  image_idx (H * W * C) (H * W) H n c i j = Ok (flat_offset C H W n c i j).
Proof.
  intros (HN & HC & HH & HW & F1 & F2 & F3 & F4) Hn Hc Hi Hj.
  assert (B0 : 0 <= H * W) by nia.
  assert (B1 : 0 <= n * (H * W * C) <= (N - 1) * (H * W * C)).
  { split; [nia |]. apply Z.mul_le_mono_nonneg_r; nia. }
  assert (B2 : 0 <= c * (H * W) <= (C - 1) * (H * W)).
  { split; [nia |]. apply Z.mul_le_mono_nonneg_r; nia. }
  assert (B3 : 0 <= i * H <= (H - 1) * H).
  { split; [nia |]. apply Z.mul_le_mono_nonneg_r; nia. }
  assert (B4 : (N - 1) * (H * W * C) + (C - 1) * (H * W) + H * W
               = N * C * (H * W)) by ring.
  assert (B5 : (H - 1) * H + H = H * H) by ring.
  unfold image_idx, int_mul, int_add.
  rewrite (int_of_fits (n * (H * W * C))) by (apply in_int_bounds; lia).
  cbn [bind].
  rewrite (int_of_fits (c * (H * W))) by (apply in_int_bounds; lia).
  cbn [bind].
  rewrite int_of_fits by (apply in_int_bounds; lia). cbn [bind].
  rewrite (int_of_fits (i * H)) by (apply in_int_bounds; lia). cbn [bind].
  rewrite int_of_fits by (apply in_int_bounds; lia). cbn [bind].
  rewrite int_of_fits by (apply in_int_bounds; lia).
  unfold flat_offset. f_equal. ring.
Qed.

(** For sizes that fit, the forward pass is [forward_by_offsets]. *)
Lemma Forward_cpu_fits (s : State Dtype) :
  sizes_fit (num (bottom1 s)) (channels (bottom0 s))
            (height (bottom1 s)) (width (bottom1 s)) ->
  Forward_cpu s = forward_by_offsets s.
Proof.
  intros Hfit.
  pose proof Hfit as (HN & HC & HH & HW & F1 & F2 & F3 & F4).
  unfold Forward_cpu, forward_by_offsets, report_loss, int_mul.
  destruct (cpu_data (bottom0 s)) as [pred | e]; simpl; [| reflexivity].
  destruct (cpu_data (bottom1 s)) as [gt | e]; simpl; [| reflexivity].
  rewrite int_of_fits by (apply in_int_bounds; nia). cbn [bind].
  rewrite int_of_fits by (apply in_int_bounds; nia). cbn [bind].
  rewrite accumulate_loss_indices.
  rewrite (foldM_ext_in _
             (fun loss '(n, c, i, j) =>
                squared_diff_at pred gt
                  (flat_offset (channels (bottom0 s)) (height (bottom1 s))
                               (width (bottom1 s)) n c i j) loss)).
  - destruct (foldM _ _ _) as [loss | e]; simpl; [| reflexivity].
    rewrite int_of_fits by (apply in_int_bounds; nia). cbn [bind].
    rewrite int_of_fits by (apply in_int_bounds; nia). cbn [bind].
    replace (num (bottom1 s) * channels (bottom0 s) * height (bottom1 s)
             * width (bottom1 s))
      with (num (bottom1 s) * channels (bottom0 s)
            * (height (bottom1 s) * width (bottom1 s))) by ring.
    reflexivity.
  - intros a [[[n c] i] j] Hin. apply In_loop_indices in Hin.
    destruct Hin as (Hn & Hc & Hi & Hj).
    unfold pixel_loss.
    rewrite (image_idx_fits _ _ _ _ _ _ _ _ Hfit Hn Hc Hi Hj). reflexivity.
Qed.

(** C2: for every index (image, channel, row, col) the forward pass visits,
    the offset read from both tensors is
    image * (channels*height*width) + channel * (height*width)
    + row * height + col: the row is multiplied by the height.  For sizes
    that fit in int, line 121 computes this offset at every index of the
    tensor and the forward pass is [forward_by_offsets], which reads both
    buffers at these offsets; for any sizes it has that outcome unless an int
    overflows on the way. *)
Theorem forward_reads_flat_offset (s : State Dtype) :
  (forall N C H W n c i j,
     sizes_fit N C H W ->
     0 <= n < N -> 0 <= c < C -> 0 <= i < H -> 0 <= j < W ->
     image_idx (H * W * C) (H * W) H n c i j
     = Ok (n * (C * H * W) + c * (H * W) + i * H + j)) /\
  (sizes_fit (num (bottom1 s)) (channels (bottom0 s))
             (height (bottom1 s)) (width (bottom1 s)) ->
   Forward_cpu s = forward_by_offsets s) /\
  (Forward_cpu s = Err IntOverflow \/ Forward_cpu s = forward_by_offsets s).
Proof.
  split; [| split].
  - intros N C H W n c i j Hfit Hn Hc Hi Hj.
    apply (image_idx_fits N C H W n c i j Hfit Hn Hc Hi Hj).
  - apply Forward_cpu_fits.
  - exact (Forward_cpu_agrees s).
Qed.

End Forward.

Section Validation.

Context {Dtype : Type} {SD : Scalar Dtype}.

Lemma CHECK_EQ_cases (a b : Z) :
  (a = b /\ CHECK_EQ a b = Ok tt) \/ (a <> b /\ CHECK_EQ a b = Err ShapeMismatch).
Proof.
  unfold CHECK_EQ. destruct (Z.eqb_spec a b); [left | right]; auto.
Qed.

(** Reshape stops exactly when one of its three CHECK_EQ fails, and
    otherwise gives [diff_] the shape of bottom[0]. *)
Lemma Reshape_cases (s : State Dtype) :
  (channels (bottom0 s) = channels (bottom1 s) /\
   height (bottom0 s) = height (bottom1 s) /\
   width (bottom0 s) = width (bottom1 s) /\
   Reshape s =
     Ok (set_diff_ (set_top0 s (Blob_Reshape 1 1 1 1))
           (Blob_Reshape (num (bottom0 s)) (channels (bottom0 s))
                         (height (bottom0 s)) (width (bottom0 s)))))
  \/
  ((channels (bottom0 s) <> channels (bottom1 s) \/
    height (bottom0 s) <> height (bottom1 s) \/
    width (bottom0 s) <> width (bottom1 s)) /\
   Reshape s = Err ShapeMismatch).
Proof.
  unfold Reshape, LossLayer_Reshape. simpl.
  destruct (CHECK_EQ_cases (channels (bottom0 s)) (channels (bottom1 s)))
    as [[Ec ->] | [Nc ->]]; simpl; [| right; auto].
  destruct (CHECK_EQ_cases (height (bottom0 s)) (height (bottom1 s)))
    as [[Eh ->] | [Nh ->]]; simpl; [| right; auto].
  destruct (CHECK_EQ_cases (width (bottom0 s)) (width (bottom1 s)))
    as [[Ew ->] | [Nw ->]]; simpl; [| right; auto].
  left. auto.
Qed.

(** After Reshape, [diff_] has storage for one element per index of
    bottom[0], and the bottom blobs are as before. *)
Lemma Reshape_allocates_diff (s s' : State Dtype) :
  Reshape s = Ok s' -> 0 <= count (bottom0 s) ->
  bottom0 s' = bottom0 s /\ bottom1 s' = bottom1 s /\
  exists y, data_mem (diff_ s') = Some y /\
            Z.of_nat (length y) = count (bottom0 s').
Proof.
  intros E Hcount.
  destruct (Reshape_cases s) as [(_ & _ & _ & E') | [_ E']];
    rewrite E' in E; [| discriminate E].
  injection E as <-. simpl.
  split; [reflexivity |]. split; [reflexivity |].
  eexists. split; [reflexivity |].
  rewrite repeat_length. unfold count in *. lia.
Qed.

(** C5: when the channels, the heights or the widths of prediction and
    target disagree, shape validation fails with ShapeMismatch, and a
    training step stops there: neither the forward nor the backward pass
    runs. *)
Theorem Reshape_rejects_mismatch (s : State Dtype) :
  channels (bottom0 s) <> channels (bottom1 s) \/
  height (bottom0 s) <> height (bottom1 s) \/
  width (bottom0 s) <> width (bottom1 s) ->
  Reshape s = Err ShapeMismatch /\ training_step s = Err ShapeMismatch.
Proof.
  intros Hne. unfold training_step.
  destruct (Reshape_cases s) as [(Ec & Eh & Ew & _) | [_ ->]].
  - exfalso. destruct Hne as [H | [H | H]]; contradiction.
  - split; reflexivity.
Qed.

(** The forward pass looks at the shapes through four numbers only: the
    num, height and width of bottom[1] and the channels of bottom[0]. *)
Lemma Forward_cpu_shape_sources (s1 s2 : State Dtype) :
  data_mem (bottom0 s1) = data_mem (bottom0 s2) ->
  data_mem (bottom1 s1) = data_mem (bottom1 s2) ->
  data_mem (top0 s1) = data_mem (top0 s2) ->
  num (bottom1 s1) = num (bottom1 s2) ->
  height (bottom1 s1) = height (bottom1 s2) ->
  width (bottom1 s1) = width (bottom1 s2) ->
  channels (bottom0 s1) = channels (bottom0 s2) ->
  reported_loss (Forward_cpu s1) = reported_loss (Forward_cpu s2).
Proof.
  intros E0 E1 Et En Eh Ew Ec.
  unfold Forward_cpu, cpu_data, mutable_cpu_data.
  rewrite E0, E1, Et, En, Eh, Ew, Ec.
  destruct (buffer (data_mem (bottom0 s2))) as [pred | e]; simpl; [| reflexivity].
  destruct (buffer (data_mem (bottom1 s2))) as [gt | e]; simpl; [| reflexivity].
  destruct (int_mul (height (bottom1 s2)) (width (bottom1 s2))) as [sz_ch | e];
    simpl; [| reflexivity].
  destruct (int_mul sz_ch (channels (bottom0 s2))) as [sz_img | e];
    simpl; [| reflexivity].
  destruct (accumulate_loss pred gt (num (bottom1 s2)) (channels (bottom0 s2))
              (height (bottom1 s2)) (width (bottom1 s2)) sz_img sz_ch (of_int 0))
    as [loss | e]; simpl; [| reflexivity].
  destruct (int_mul (num (bottom1 s2)) (channels (bottom0 s2))) as [n1 | e];
    simpl; [| reflexivity].
  destruct (int_mul n1 sz_ch) as [n | e]; simpl; [| reflexivity].
  destruct (buffer (data_mem (top0 s2))) as [top | e]; simpl; [| reflexivity].
  destruct (write top 0 (div loss (of_int n))) as [top' | e]; simpl; reflexivity.
Qed.

(** Lines 29-35 after a base-class step that has returned. *)
Lemma Reshape_after_cases (base : State Dtype -> result (State Dtype))
    (s s0 : State Dtype) :
  base s = Ok s0 ->
  (channels (bottom0 s0) = channels (bottom1 s0) /\
   height (bottom0 s0) = height (bottom1 s0) /\
   width (bottom0 s0) = width (bottom1 s0) /\
   Reshape_after base s =
     Ok (set_diff_ s0
           (Blob_Reshape (num (bottom0 s0)) (channels (bottom0 s0))
                         (height (bottom0 s0)) (width (bottom0 s0)))))
  \/
  ((channels (bottom0 s0) <> channels (bottom1 s0) \/
    height (bottom0 s0) <> height (bottom1 s0) \/
    width (bottom0 s0) <> width (bottom1 s0)) /\
   Reshape_after base s = Err ShapeMismatch).
Proof.
  intros Eb. unfold Reshape_after. rewrite Eb. simpl.
  destruct (CHECK_EQ_cases (channels (bottom0 s0)) (channels (bottom1 s0)))
    as [[Ec ->] | [Nc ->]]; simpl; [| right; auto].
  destruct (CHECK_EQ_cases (height (bottom0 s0)) (height (bottom1 s0)))
    as [[Eh ->] | [Nh ->]]; simpl; [| right; auto].
  destruct (CHECK_EQ_cases (width (bottom0 s0)) (width (bottom1 s0)))
    as [[Ew ->] | [Nw ->]]; simpl; [| right; auto].
  left. auto.
Qed.

(** [Reshape] is [Reshape_after] the base-class step modelled from the
    spec. *)
Lemma Reshape_is_Reshape_after (s : State Dtype) :
  Reshape s = Reshape_after LossLayer_Reshape s.
Proof. reflexivity. Qed.

(** C10: the validation of lines 29-31 compares channels, height and width
    and nothing else.  Whatever the base-class step of line 26 does, once it
    has returned with the two bottom blobs as they were, Reshape fails only
    when channels, height or width differ (and then with ShapeMismatch), and
    two blobs that agree on these three pass it whatever their num.  The
    forward pass then takes num, height and width from the target and the
    channel count from the prediction: for sizes that fit it is
    [forward_with_dims] at num, height, width of bottom[1] and channels of
    bottom[0], and its loss is the same for any two states that agree on
    these four numbers and on the buffers. *)
Theorem validation_ignores_num (s : State Dtype) :
  (forall (base : State Dtype -> result (State Dtype)) (s0 : State Dtype),
     base s = Ok s0 -> bottom0 s0 = bottom0 s -> bottom1 s0 = bottom1 s ->
     (forall e, Reshape_after base s = Err e ->
        e = ShapeMismatch /\
        (channels (bottom0 s) <> channels (bottom1 s) \/
         height (bottom0 s) <> height (bottom1 s) \/
         width (bottom0 s) <> width (bottom1 s))) /\
     (channels (bottom0 s) = channels (bottom1 s) ->
      height (bottom0 s) = height (bottom1 s) ->
      width (bottom0 s) = width (bottom1 s) ->
      exists s', Reshape_after base s = Ok s' /\
                 bottom0 s' = bottom0 s /\ bottom1 s' = bottom1 s)) /\
  (sizes_fit (num (bottom1 s)) (channels (bottom0 s))
             (height (bottom1 s)) (width (bottom1 s)) ->
   Forward_cpu s
   = forward_with_dims (num (bottom1 s)) (channels (bottom0 s))
                       (height (bottom1 s)) (width (bottom1 s)) s) /\
  (forall s2 : State Dtype,
     data_mem (bottom0 s) = data_mem (bottom0 s2) ->
     data_mem (bottom1 s) = data_mem (bottom1 s2) ->
     data_mem (top0 s) = data_mem (top0 s2) ->
     num (bottom1 s) = num (bottom1 s2) ->
     height (bottom1 s) = height (bottom1 s2) ->
     width (bottom1 s) = width (bottom1 s2) ->
     channels (bottom0 s) = channels (bottom0 s2) ->
     reported_loss (Forward_cpu s) = reported_loss (Forward_cpu s2)).
Proof.
  split; [| split].
  - intros base s0 Eb E0 E1.
    destruct (Reshape_after_cases base s s0 Eb) as [(Ec & Eh & Ew & E) | [Hne E]];
      rewrite E0, E1 in *.
    + split.
      * intros e He. rewrite E in He. discriminate He.
      * intros _ _ _. eexists. split; [exact E |]. simpl. auto.
    + split.
      * intros e He. rewrite E in He. injection He as <-.
        split; [reflexivity | exact Hne].
      * intros Ec Eh Ew. exfalso.
        destruct Hne as [H | [H | H]]; contradiction.
  - intros Hfit. rewrite (Forward_cpu_fits s Hfit). reflexivity.
  - apply Forward_cpu_shape_sources.
Qed.

(** C9: each GPU entry point is the CPU pass: same loss, same gradients,
    same failures. *)
Theorem gpu_is_cpu (s : State Dtype) :
  Forward_gpu s = Forward_cpu s /\ Backward_gpu s = Backward_cpu s.
Proof. split; reflexivity. Qed.

(** C7: as long as [diff_] has no storage (no Reshape has run), the backward
    pass stops with UninitializedBuffer. *)
Theorem Backward_cpu_before_Reshape (s : State Dtype) :
  data_mem (diff_ s) = None -> Backward_cpu s = Err UninitializedBuffer.
Proof.
  intros Hnone. unfold Backward_cpu, cpu_data, mutable_cpu_data.
  destruct (data_mem (bottom0 s)) as [a |]; simpl; [| reflexivity].
  destruct (data_mem (bottom1 s)) as [b |]; simpl; [| reflexivity].
  rewrite Hnone. reflexivity.
Qed.

End Validation.

Section Passes.

Context {Dtype : Type} {SD : Scalar Dtype}.

(** *** The forward pass and the state *)

Lemma Forward_cpu_report (s : State Dtype) :
  Forward_cpu s = bind (computed_loss s) (report_loss s).
Proof.
  unfold Forward_cpu, computed_loss, report_loss.
  destruct (cpu_data (bottom0 s)) as [pred | e]; simpl; [| reflexivity].
  destruct (cpu_data (bottom1 s)) as [gt | e]; simpl; [| reflexivity].
  destruct (int_mul (height (bottom1 s)) (width (bottom1 s))) as [sz_ch | e];
    simpl; [| reflexivity].
  destruct (int_mul sz_ch (channels (bottom0 s))) as [sz_img | e];
    simpl; [| reflexivity].
  destruct (accumulate_loss pred gt (num (bottom1 s)) (channels (bottom0 s))
              (height (bottom1 s)) (width (bottom1 s)) sz_img sz_ch (of_int 0))
    as [loss | e]; simpl; [| reflexivity].
  destruct (int_mul (num (bottom1 s)) (channels (bottom0 s))) as [n1 | e];
    simpl; [| reflexivity].
  destruct (int_mul n1 sz_ch) as [n | e]; simpl; reflexivity.
Qed.

Lemma set_nth_twice {A : Type} (p : list A) (n : nat) (x : A) :
  set_nth (set_nth p n x) n x = set_nth p n x.
Proof.
  revert n. induction p as [| y p IH]; intros [| n]; simpl;
    try reflexivity.
  rewrite IH. reflexivity.
Qed.

Lemma set_nth_length {A : Type} (p : list A) (n : nat) (x : A) :
  length (set_nth p n x) = length p.
Proof.
  revert n. induction p as [| y p IH]; intros [| n]; simpl;
    try reflexivity.
  rewrite IH. reflexivity.
Qed.

Lemma write_twice {A : Type} (p p' : list A) (k : Z) (x : A) :
  write p k x = Ok p' -> write p' k x = Ok p'.
Proof.
  unfold write.
  destruct ((0 <=? k) && (k <? Z.of_nat (length p))) eqn:E;
    intros H; [| discriminate H].
  injection H as <-.
  rewrite set_nth_length, E, set_nth_twice. reflexivity.
Qed.

(** Storing the loss touches top[0] only, and storing the same loss again
    changes nothing. *)
Lemma report_loss_frame (s s' : State Dtype) (loss : Dtype) :
  report_loss s loss = Ok s' ->
  bottom0 s' = bottom0 s /\ bottom1 s' = bottom1 s /\ diff_ s' = diff_ s /\
  report_loss s' loss = Ok s'.
Proof.
  unfold report_loss, mutable_cpu_data. intros E.
  apply bind_Ok_inv in E. destruct E as (top & Etop & E).
  apply bind_Ok_inv in E. destruct E as (top' & Ew & E).
  injection E as <-. simpl.
  repeat split.
  rewrite (write_twice _ _ _ _ Ew). reflexivity.
Qed.

(** C8: a second forward pass on the state the first one left gives the very
    same outcome (the same loss in top[0], or the same failure), and a
    forward pass leaves [diff_] and both bottom blobs as they were. *)
Theorem Forward_cpu_twice (s : State Dtype) :
  bind (Forward_cpu s) Forward_cpu = Forward_cpu s /\
  (forall s', Forward_cpu s = Ok s' ->
     diff_ s' = diff_ s /\ bottom0 s' = bottom0 s /\ bottom1 s' = bottom1 s /\
     reported_loss (Forward_cpu s') = reported_loss (Forward_cpu s)).
Proof.
  assert (Hstep : forall s', Forward_cpu s = Ok s' ->
            diff_ s' = diff_ s /\ bottom0 s' = bottom0 s /\
            bottom1 s' = bottom1 s /\ Forward_cpu s' = Ok s').
  { intros s' E. rewrite Forward_cpu_report in E.
    apply bind_Ok_inv in E. destruct E as (loss & Eloss & E).
    destruct (report_loss_frame _ _ _ E) as (E0 & E1 & Ed & Eagain).
    repeat split; try assumption.
    rewrite Forward_cpu_report.
    unfold computed_loss in *. rewrite E0, E1, Eloss. simpl. exact Eagain. }
  split.
  - destruct (Forward_cpu s) as [s' | e] eqn:E; simpl; [| reflexivity].
    apply Hstep. reflexivity.
  - intros s' E. destruct (Hstep s' E) as (Ed & E0 & E1 & Eagain).
    repeat split; try assumption.
    rewrite Eagain, E. reflexivity.
Qed.

(** *** The backward pass *)

Lemma sub_elements_length (a b : list Dtype) :
  length b = length a -> length (sub_elements a b) = length a.
Proof.
  revert b. induction a as [| x a IH]; intros [| y b]; simpl; intros H;
    try reflexivity; try discriminate H.
  injection H as H. rewrite (IH b H). reflexivity.
Qed.

Lemma sub_elements_nth (a b : list Dtype) (n : nat) (x y : Dtype) :
  nth_error a n = Some x -> nth_error b n = Some y ->
  nth_error (sub_elements a b) n = Some (sub x y).
Proof.
  revert b n. induction a as [| x0 a IH]; intros [| y0 b] [| n]; simpl;
    intros Ha Hb; try discriminate.
  - injection Ha as <-. injection Hb as <-. reflexivity.
  - apply IH; assumption.
Qed.

Lemma caffe_sub_full (n : Z) (a b y : list Dtype) :
  Z.of_nat (length a) = n -> length b = length a -> length y = length a ->
  caffe_sub n a b y = Ok (sub_elements a b).
Proof.
  intros Hn Hb Hy. unfold caffe_sub. rewrite Hb, Hy, Hn.
  replace (0 <=? n) with true by (symmetry; apply Z.leb_le; lia).
  rewrite Z.leb_refl. simpl.
  subst n. rewrite Nat2Z.id.
  rewrite firstn_all, (firstn_all2 b), (skipn_all2 y), app_nil_r by lia.
  reflexivity.
Qed.

Lemma memcpy_full {A : Type} (n : Z) (dst src : list A) :
  Z.of_nat (length src) = n -> length dst = length src ->
  memcpy dst src n = Ok src.
Proof.
  intros Hn Hd. unfold memcpy. rewrite Hd, Hn.
  replace (0 <=? n) with true by (symmetry; apply Z.leb_le; lia).
  rewrite Z.leb_refl. simpl.
  subst n. rewrite Nat2Z.id.
  rewrite firstn_all, (skipn_all2 dst), app_nil_r by lia.
  reflexivity.
Qed.

Lemma read_nth {A : Type} (p : list A) (k : Z) (x : A) :
  read p k = Ok x <-> 0 <= k /\ nth_error p (Z.to_nat k) = Some x.
Proof.
  unfold read. destruct (Z.ltb_spec k 0).
  - split; [discriminate | intros [H0 _]; lia].
  - destruct (nth_error p (Z.to_nat k)) as [z |].
    + split.
      * intros E. injection E as <-. auto.
      * intros [_ E]. injection E as <-. reflexivity.
    + split; [discriminate | intros [_ E]; discriminate E].
Qed.

Lemma read_in_range {A : Type} (p : list A) (k : Z) :
  0 <= k < Z.of_nat (length p) -> exists x, read p k = Ok x.
Proof.
  intros Hk.
  destruct (nth_error p (Z.to_nat k)) as [x |] eqn:E.
  - exists x. apply read_nth. split; [lia | exact E].
  - apply nth_error_None in E. lia.
Qed.

(** C3: on two same-shaped tensors and a [diff_] of their size, the backward
    pass writes prediction[idx] - target[idx] at every flat index of
    [diff_], and copies that buffer as it is into the gradient of the
    prediction and into the gradient of the target: no negation, no factor,
    no division. *)
Theorem Backward_cpu_gradient (s : State Dtype) (p t gp gt y : list Dtype) :
  same_shape (bottom0 s) (bottom1 s) ->
  holds (bottom0 s) p gp -> holds (bottom1 s) t gt ->
  data_mem (diff_ s) = Some y ->
  Z.of_nat (length y) = count (bottom0 s) ->
  exists s' g,
    Backward_cpu s = Ok s' /\
    data_mem (diff_ s') = Some g /\
    diff_mem (bottom0 s') = Some g /\
    diff_mem (bottom1 s') = Some g /\
    Z.of_nat (length g) = count (bottom0 s) /\
    (forall idx, 0 <= idx < count (bottom0 s) ->
       exists x z, read p idx = Ok x /\ read t idx = Ok z /\
                   read g idx = Ok (sub x z)) /\
    data_mem (bottom0 s') = Some p /\ data_mem (bottom1 s') = Some t.
Proof.
  intros (En & Ec & Eh & Ew) (Hp & Hgp & Lp & Lgp) (Ht & Hgt & Lt & Lgt) Hy Ly.
  assert (Ecount : count (bottom1 s) = count (bottom0 s)).
  { unfold count. rewrite En, Ec, Eh, Ew. reflexivity. }
  rewrite Ecount in Lt, Lgt.
  assert (Lg : length (sub_elements p t) = length p).
  { apply sub_elements_length. lia. }
  exists (set_bottom1
            (set_bottom0 (set_diff_ s (set_data (diff_ s) (sub_elements p t)))
               (set_diff (bottom0 s) (sub_elements p t)))
            (set_diff (bottom1 s) (sub_elements p t))),
         (sub_elements p t).
  split; [| repeat split; simpl; try assumption; try reflexivity].
  - unfold Backward_cpu, cpu_data, mutable_cpu_data, mutable_cpu_diff.
    rewrite Hp, Ht, Hy. simpl.
    rewrite (caffe_sub_full _ p t y Lp) by lia. simpl.
    rewrite Hgp. simpl.
    rewrite (memcpy_full _ gp (sub_elements p t)) by lia. simpl.
    rewrite Hgt. simpl.
    rewrite (memcpy_full _ gt (sub_elements p t)) by lia. simpl.
    reflexivity.
  - lia.
  - intros idx Hidx.
    destruct (read_in_range p idx) as [x Hx]; [lia |].
    destruct (read_in_range t idx) as [z Hz]; [lia |].
    exists x, z. repeat split; try assumption.
    apply read_nth in Hx. apply read_nth in Hz. apply read_nth.
    split; [lia |]. apply sub_elements_nth; tauto.
Qed.

End Passes.

Section EmptyInput.

Context {Dtype : Type} {SD : Scalar Dtype}.

Lemma flat_map_nil {A B : Type} (f : A -> list B) (l : list A) :
  (forall x, f x = []) -> flat_map f l = [].
Proof.
  intros Hf. induction l as [| x l IH]; simpl.
  - reflexivity.
  - rewrite Hf, IH. reflexivity.
Qed.

(** No image, no row or no column: the loops visit no index. *)
Lemma loop_indices_empty (N C H W : Z) :
  N = 0 \/ H = 0 \/ W = 0 -> loop_indices N C H W = [].
Proof.
  unfold loop_indices. intros [-> | [-> | ->]].
  - reflexivity.
  - apply flat_map_nil. intros n. apply flat_map_nil. intros c. reflexivity.
  - apply flat_map_nil. intros n. apply flat_map_nil. intros c.
    apply flat_map_nil. intros i. reflexivity.
Qed.

(** On an empty input the forward pass stores 0 / 0. *)
Lemma Forward_cpu_empty_input (s : State Dtype) (pred gt : list Dtype) :
  data_mem (bottom0 s) = Some pred -> data_mem (bottom1 s) = Some gt ->
  num (bottom1 s) = 0 \/ height (bottom1 s) = 0 \/ width (bottom1 s) = 0 ->
  in_int (height (bottom1 s) * width (bottom1 s)) = true ->
  in_int (height (bottom1 s) * width (bottom1 s) * channels (bottom0 s)) = true ->
  in_int (num (bottom1 s) * channels (bottom0 s)) = true ->
  Forward_cpu s = report_loss s (div (of_int 0) (of_int 0)).
Proof.
  intros Hp Hg Hzero F1 F2 F3.
  rewrite Forward_cpu_report. unfold computed_loss, cpu_data, int_mul.
  rewrite Hp, Hg. simpl.
  rewrite (int_of_fits _ F1). simpl.
  rewrite (int_of_fits _ F2). simpl.
  rewrite accumulate_loss_indices, (loop_indices_empty _ _ _ _ Hzero). simpl.
  rewrite (int_of_fits _ F3). simpl.
  replace (num (bottom1 s) * channels (bottom0 s)
           * (height (bottom1 s) * width (bottom1 s))) with 0
    by (destruct Hzero as [-> | [-> | ->]]; ring).
  reflexivity.
Qed.

End EmptyInput.

(** C6, as the code has it: on an input with no image, no row or no column
    (buffers allocated, the int products in range) the forward pass raises
    no error; it divides the loss 0 by the element count 0 and stores the
    quotient, NaN, in top[0], for float and for double. *)
Theorem forward_empty_input_is_nan (s : State spec_float)
    (pred gt top : list spec_float) (old : spec_float) :
  data_mem (bottom0 s) = Some pred -> data_mem (bottom1 s) = Some gt ->
  data_mem (top0 s) = Some (old :: top) ->
  num (bottom1 s) = 0 \/ height (bottom1 s) = 0 \/ width (bottom1 s) = 0 ->
  in_int (height (bottom1 s) * width (bottom1 s)) = true ->
  in_int (height (bottom1 s) * width (bottom1 s) * channels (bottom0 s)) = true ->
  in_int (num (bottom1 s) * channels (bottom0 s)) = true ->
  reported_loss (@Forward_cpu _ Scalar_float s) = Ok S754_nan /\
  reported_loss (@Forward_cpu _ Scalar_double s) = Ok S754_nan.
Proof.
  intros Hp Hg Ht Hzero F1 F2 F3.
  rewrite (@Forward_cpu_empty_input _ Scalar_float s pred gt) by assumption.
  rewrite (@Forward_cpu_empty_input _ Scalar_double s pred gt) by assumption.
  unfold report_loss, mutable_cpu_data. rewrite Ht. simpl.
  split; reflexivity.
Qed.

(** C6, as stated, fails on a batch of no image: after Reshape the forward
    pass completes without any error and the loss it stores is NaN. *)
Lemma forward_empty_batch_no_error :
  exists s' : State spec_float,
    bind (@Reshape _ Scalar_float empty_batch) (@Forward_cpu _ Scalar_float)
      = Ok s' /\
    reported_loss (Ok s') = Ok S754_nan.
Proof. eexists. split; vm_compute; reflexivity. Qed.

(** C4: the 1 x 1 x 2 x 2 scenario, prediction [[1,2],[3,4]] against target
    [[1,1],[1,1]], as float and as double: the raw sum of squares is 14, the
    loss stored by the forward pass is 3.5, and the backward pass leaves
    [0; 1; 2; 3] as the gradient of the prediction and of the target. *)
Theorem scenario_2x2 :
  (exists s1 s2 : State spec_float,
     bind (@Reshape _ Scalar_float scenario_float) (@Forward_cpu _ Scalar_float)
       = Ok s1 /\
     @raw_sum_of_squared_diffs _ Scalar_float
       (map f32 [1; 2; 3; 4]) (map f32 [1; 1; 1; 1]) (f32 0) = f32 14 /\
     reported_loss (Ok s1) = Ok (SFdiv 24 128 (f32 7) (f32 2)) /\
     @Backward_cpu _ Scalar_float s1 = Ok s2 /\
     diff_mem (bottom0 s2) = Some (map f32 [0; 1; 2; 3]) /\
     diff_mem (bottom1 s2) = Some (map f32 [0; 1; 2; 3]))
  /\
  (exists s1 s2 : State spec_float,
     bind (@Reshape _ Scalar_double scenario_double) (@Forward_cpu _ Scalar_double)
       = Ok s1 /\
     @raw_sum_of_squared_diffs _ Scalar_double
       (map f64 [1; 2; 3; 4]) (map f64 [1; 1; 1; 1]) (f64 0) = f64 14 /\
     reported_loss (Ok s1) = Ok (SFdiv 53 1024 (f64 7) (f64 2)) /\
     @Backward_cpu _ Scalar_double s1 = Ok s2 /\
     diff_mem (bottom0 s2) = Some (map f64 [0; 1; 2; 3]) /\
     diff_mem (bottom1 s2) = Some (map f64 [0; 1; 2; 3])).
Proof.
  split; eexists; eexists; repeat split; vm_compute; reflexivity.
Qed.

(** ** Square heatmaps

    With height = width the offsets of line 121 are the offsets of the
    elements, each once and in storage order, and the forward pass stores the
    mean of the squared differences. *)

Lemma Zrange_shift (k : nat) (m : nat) :
  map Z.of_nat (seq k m) =
  map (fun j => Z.of_nat k + j) (map Z.of_nat (seq 0 m)).
Proof.
  revert k. induction m as [| m IH]; intros k; simpl.
  - reflexivity.
  - f_equal; [lia |].
    rewrite (IH (S k)), (IH 1%nat), !map_map.
    apply map_ext. intros j. lia.
Qed.

Lemma Zrange_app (a b : Z) :
  0 <= a -> 0 <= b ->
  Zrange (a + b) = Zrange a ++ map (fun j => a + j) (Zrange b).
Proof.
  intros Ha Hb. unfold Zrange.
  rewrite Z2Nat.inj_add, seq_app, map_app by assumption.
  f_equal. simpl. rewrite Zrange_shift, Z2Nat.id by assumption.
  reflexivity.
Qed.

Lemma Zrange_nonpos (n : Z) : n <= 0 -> Zrange n = [].
Proof.
  intros Hn. unfold Zrange.
  replace (Z.to_nat n) with 0%nat by lia. reflexivity.
Qed.

Lemma Zrange_one : Zrange 1 = [0].
Proof. reflexivity. Qed.

(** [n] consecutive blocks of [m] offsets are the first [n * m] offsets. *)
Lemma Zrange_block (f : Z -> Z -> Z) (base m n : Z) :
  0 <= m -> (forall i j, f i j = base + i * m + j) ->
  flat_map (fun i => map (f i) (Zrange m)) (Zrange n)
  = map (fun k => base + k) (Zrange (n * m)).
Proof.
  intros Hm Hf.
  destruct (Z.le_gt_cases 0 n) as [Hn | Hn].
  - revert n Hn. apply natlike_ind.
    + reflexivity.
    + intros n Hn IH.
      unfold Z.succ. rewrite (Zrange_app n 1), Zrange_one by lia.
      rewrite flat_map_app, IH. simpl. rewrite app_nil_r.
      replace ((n + 1) * m) with (n * m + m) by ring.
      rewrite (Zrange_app (n * m) m) by nia.
      rewrite map_app, map_map. f_equal.
      apply map_ext. intros j. rewrite Hf. ring.
  - rewrite (Zrange_nonpos n), (Zrange_nonpos (n * m)) by nia.
    reflexivity.
Qed.

Lemma map_flat_map {A B C : Type} (f : B -> C) (g : A -> list B) (l : list A) :
  map f (flat_map g l) = flat_map (fun x => map f (g x)) l.
Proof.
  induction l as [| x l IH]; simpl.
  - reflexivity.
  - rewrite map_app, IH. reflexivity.
Qed.

(** On a square heatmap the forward pass visits the offsets
    0, 1, ..., N*C*H*H - 1, in this order. *)
Lemma square_offsets (N C H : Z) :
  0 <= C -> 0 <= H ->
  map (fun '(n, c, i, j) => flat_offset C H H n c i j) (loop_indices N C H H)
  = Zrange (N * C * H * H).
Proof.
  intros HC HH. unfold loop_indices.
  rewrite map_flat_map.
  rewrite (flat_map_ext _
             (fun n => map (fun k => n * (C * H * H) + k) (Zrange (C * H * H)))).
  - rewrite (Zrange_block (fun n k => n * (C * H * H) + k) 0 (C * H * H) N)
      by (intros; nia || ring).
    replace (N * (C * H * H)) with (N * C * H * H) by ring.
    rewrite <- (map_id (Zrange (N * C * H * H))) at 2.
    apply map_ext. intros k. ring.
  - intros n. rewrite map_flat_map.
    rewrite (flat_map_ext _
               (fun c => map (fun k => n * (C * H * H) + c * (H * H) + k)
                             (Zrange (H * H)))).
    + rewrite (Zrange_block (fun c k => n * (C * H * H) + c * (H * H) + k)
                 (n * (C * H * H)) (H * H) C) by (intros; nia || ring).
      replace (C * (H * H)) with (C * H * H) by ring. reflexivity.
    + intros c. rewrite map_flat_map.
      rewrite (flat_map_ext _
                 (fun i => map (fun j => flat_offset C H H n c i j) (Zrange H))).
      * apply (Zrange_block (fun i j => flat_offset C H H n c i j)
                 (n * (C * H * H) + c * (H * H)) H H HH).
        intros i j. reflexivity.
      * intros i. rewrite map_map. reflexivity.
Qed.

Section Square.

Context {Dtype : Type} {SD : Scalar Dtype}.

Lemma read_app_here {A : Type} (pre p : list A) (x : A) :
  read (pre ++ x :: p) (Z.of_nat (length pre)) = Ok x.
Proof.
  apply read_nth. split; [lia |].
  rewrite Nat2Z.id, nth_error_app2, Nat.sub_diag by lia. reflexivity.
Qed.

(** Reading two buffers of one length at every offset, in order, sums the
    squared differences of all their elements. *)
Lemma foldM_all_offsets (p g pre_p pre_g : list Dtype) (k : nat)
    (loss : Dtype) :
  length pre_p = k -> length pre_g = k -> length g = length p ->
  foldM (fun a o => squared_diff_at (pre_p ++ p) (pre_g ++ g) o a)
        (map Z.of_nat (seq k (length p))) loss
  = Ok (raw_sum_of_squared_diffs p g loss).
Proof.
  revert g pre_p pre_g k loss.
  induction p as [| x p IH]; intros [| z g] pre_p pre_g k loss Hp Hg Hlen;
    try discriminate Hlen.
  - reflexivity.
  - injection Hlen as Hlen.
    cbn [length seq map foldM raw_sum_of_squared_diffs].
    assert (Rp : read (pre_p ++ x :: p) (Z.of_nat k) = Ok x)
      by (rewrite <- Hp; apply read_app_here).
    assert (Rg : read (pre_g ++ z :: g) (Z.of_nat k) = Ok z)
      by (rewrite <- Hg; apply read_app_here).
    unfold squared_diff_at at 1. rewrite Rp, Rg. cbn [bind].
    replace (pre_p ++ x :: p) with ((pre_p ++ [x]) ++ p)
      by (rewrite <- app_assoc; reflexivity).
    replace (pre_g ++ z :: g) with ((pre_g ++ [z]) ++ g)
      by (rewrite <- app_assoc; reflexivity).
    apply IH.
    + rewrite length_app. simpl. lia.
    + rewrite length_app. simpl. lia.
    + exact Hlen.
Qed.

(** On two same-shaped square heatmaps, reading at the offsets of the
    specification gives the mean of the squared differences of all
    elements. *)
Lemma forward_by_offsets_square (s : State Dtype) (p t gp gt : list Dtype) :
  same_shape (bottom0 s) (bottom1 s) ->
  holds (bottom0 s) p gp -> holds (bottom1 s) t gt ->
  height (bottom0 s) = width (bottom0 s) ->
  0 <= channels (bottom0 s) -> 0 <= height (bottom0 s) ->
  forward_by_offsets s
  = bind (mean_squared_error (bottom0 s) (bottom1 s)) (report_loss s).
Proof.
  intros (En & Ec & Eh & Ew) (Hp & _ & Lp & _) (Ht & _ & Lt & _) Esq HC HH.
  unfold forward_by_offsets, mean_squared_error, cpu_data.
  rewrite Hp, Ht. simpl.
  assert (Ecount : count (bottom1 s) = count (bottom0 s)).
  { unfold count. rewrite En, Ec, Eh, Ew. reflexivity. }
  assert (Elen : length t = length p) by lia.
  rewrite <- En, <- Eh, <- Ew, <- Esq.
  rewrite (foldM_ext _
             (fun loss x =>
                squared_diff_at p t
                  ((fun '(n, c, i, j) =>
                      flat_offset (channels (bottom0 s)) (height (bottom0 s))
                                  (height (bottom0 s)) n c i j) x) loss))
    by (intros a [[[n c] i] j]; reflexivity).
  rewrite <- (foldM_map (fun loss k => squared_diff_at p t k loss)).
  rewrite square_offsets by assumption.
  unfold count in Lp. rewrite <- Esq in Lp.
  unfold Zrange. rewrite <- Lp, Nat2Z.id.
  rewrite (foldM_all_offsets p t [] [] 0 _ eq_refl eq_refl Elen). simpl.
  unfold count. rewrite <- Esq, Lp. reflexivity.
Qed.

(** The forward pass on two same-shaped square heatmaps of sizes that fit
    stores the mean of the squared differences of all elements. *)
Lemma Forward_cpu_square (s : State Dtype) (p t gp gt : list Dtype) :
  same_shape (bottom0 s) (bottom1 s) ->
  holds (bottom0 s) p gp -> holds (bottom1 s) t gt ->
  height (bottom0 s) = width (bottom0 s) ->
  sizes_fit (num (bottom1 s)) (channels (bottom0 s))
            (height (bottom1 s)) (width (bottom1 s)) ->
  Forward_cpu s
  = bind (mean_squared_error (bottom0 s) (bottom1 s)) (report_loss s).
Proof.
  intros Hshape Hp Ht Esq Hfit.
  rewrite (Forward_cpu_fits s Hfit).
  apply (forward_by_offsets_square s p t gp gt); try assumption.
  - apply Hfit.
  - destruct Hshape as (_ & _ & -> & _). apply Hfit.
Qed.

End Square.

(** ** Heatmaps higher than wide

    With height > width the last pixel of the last channel of the last image
    is read past the end of the buffers. *)

Lemma foldM_fails {A B : Type} (f : A -> B -> result A) (l : list B) (b : B) :
  In b l -> (forall a, exists e, f a b = Err e) ->
  forall a, exists e, foldM f l a = Err e.
Proof.
  intros Hin Hb. induction l as [| b0 l IH]; intros a; simpl.
  - contradiction Hin.
  - destruct Hin as [-> | Hin].
    + destruct (Hb a) as [e ->]. exists e. reflexivity.
    + destruct (f a b0) as [a' | e]; simpl.
      * apply IH. exact Hin.
      * exists e. reflexivity.
Qed.

Lemma loop_indices_In (N C H W n c i j : Z) :
  0 <= n < N -> 0 <= c < C -> 0 <= i < H -> 0 <= j < W ->
  In (n, c, i, j) (loop_indices N C H W).
Proof.
  intros Hn Hc Hi Hj. unfold loop_indices.
  apply in_flat_map. exists n. split; [apply In_Zrange; exact Hn |].
  apply in_flat_map. exists c. split; [apply In_Zrange; exact Hc |].
  apply in_flat_map. exists i. split; [apply In_Zrange; exact Hi |].
  apply in_map_iff. exists j. split; [reflexivity | apply In_Zrange; exact Hj].
Qed.

Lemma read_past_end {A : Type} (p : list A) (k : Z) :
  Z.of_nat (length p) <= k -> read p k = Err OutOfBounds.
Proof.
  intros Hk. unfold read.
  destruct (Z.ltb_spec k 0); [reflexivity |].
  replace (nth_error p (Z.to_nat k)) with (@None A); [reflexivity |].
  symmetry. apply nth_error_None. lia.
Qed.

Section Tall.

Context {Dtype : Type} {SD : Scalar Dtype}.

(** On same-shaped tensors with at least one image, one channel and one
    column, and more rows than columns, the forward pass does not return. *)
Lemma Forward_cpu_tall (s : State Dtype) (p t gp gt : list Dtype) :
  same_shape (bottom0 s) (bottom1 s) ->
  holds (bottom0 s) p gp -> holds (bottom1 s) t gt ->
  0 < num (bottom0 s) -> 0 < channels (bottom0 s) ->
  0 < width (bottom0 s) < height (bottom0 s) ->
  exists e, Forward_cpu s = Err e.
Proof.
  intros (En & Ec & Eh & Ew) (Hp & _ & Lp & _) _ HN HC HW.
  destruct (Forward_cpu_agrees s) as [E | E]; [eexists; exact E |].
  rewrite E. unfold forward_by_offsets, cpu_data. rewrite Hp.
  destruct (data_mem (bottom1 s)) as [g |]; simpl;
    [| eexists; reflexivity].
  rewrite <- En, <- Eh, <- Ew.
  set (N := num (bottom0 s)) in *. set (C := channels (bottom0 s)) in *.
  set (H := height (bottom0 s)) in *. set (W := width (bottom0 s)) in *.
  destruct (foldM_fails
              (fun loss '(n, c, i, j) =>
                 squared_diff_at p g (flat_offset C H W n c i j) loss)
              (loop_indices N C H W) (N - 1, C - 1, H - 1, W - 1))
    with (a := of_int 0) as [e ->].
  - apply loop_indices_In; lia.
  - intros a. exists OutOfBounds. unfold squared_diff_at.
    rewrite read_past_end; [reflexivity |].
    rewrite Lp. unfold count, flat_offset. fold N C H W.
    assert (B : 1 <= (H - W) * (H - 1)) by nia.
    nia.
  - exists e. reflexivity.
Qed.

End Tall.

(** C1 on tensors that are not square.  On 2 rows by 1 column the mean of
    the squared differences of [1; 2] and [1; 1] is 1/2, and the forward pass
    reads offset 2 of buffers of 2 elements.  On 2 rows by 3 columns the mean
    for [0;0;0;0;0;6] against zeros is 36/6 = 6, and the forward pass, which
    reads offsets 0, 1, 2, 2, 3, 4, stores the loss 0. *)
Theorem forward_not_mean_off_square :
  (bind (@Reshape _ Scalar_float tall_pair) (@Forward_cpu _ Scalar_float)
     = Err OutOfBounds /\
   @mean_squared_error _ Scalar_float (bottom0 tall_pair) (bottom1 tall_pair)
     = Ok (SFdiv 24 128 (f32 1) (f32 2)))
  /\
  (reported_loss
     (bind (@Reshape _ Scalar_float wide_pair) (@Forward_cpu _ Scalar_float))
     = Ok (f32 0) /\
   @mean_squared_error _ Scalar_float (bottom0 wide_pair) (bottom1 wide_pair)
     = Ok (f32 6) /\
   map (fun '(n, c, i, j) => flat_offset 1 2 3 n c i j) (loop_indices 1 1 2 3)
     = [0; 1; 2; 2; 3; 4]).
Proof. repeat split; vm_compute; reflexivity. Qed.

(** ** The theorems at concrete inputs *)

Example scenario_reshaped_is_Reshape :
  @Reshape _ Scalar_float scenario_float = Ok scenario_reshaped.
Proof. reflexivity. Qed.

Example Forward_cpu_square_scenario :
  @Forward_cpu _ Scalar_float scenario_reshaped
  = bind (@mean_squared_error _ Scalar_float (bottom0 scenario_reshaped)
                                             (bottom1 scenario_reshaped))
         (report_loss scenario_reshaped).
Proof.
  apply (@Forward_cpu_square _ Scalar_float scenario_reshaped
           (map f32 [1; 2; 3; 4]) (map f32 [1; 1; 1; 1])
           (repeat (S754_zero false) 4) (repeat (S754_zero false) 4)).
  - repeat split; reflexivity.
  - repeat split; reflexivity.
  - repeat split; reflexivity.
  - reflexivity.
  - unfold sizes_fit, INT_MAX. simpl. lia.
Qed.

Example forward_by_offsets_scenario :
  @forward_by_offsets _ Scalar_float scenario_reshaped
    = @Forward_cpu _ Scalar_float scenario_reshaped /\
  reported_loss (@forward_by_offsets _ Scalar_float scenario_reshaped)
    = Ok (SFdiv 24 128 (f32 7) (f32 2)).
Proof. split; vm_compute; reflexivity. Qed.

Lemma Backward_cpu_gradient_witness :
  exists s' g,
    @Backward_cpu _ Scalar_float scenario_reshaped = Ok s' /\
    data_mem (diff_ s') = Some g /\
    diff_mem (bottom0 s') = Some g /\
    diff_mem (bottom1 s') = Some g /\
    Z.of_nat (length g) = count (bottom0 scenario_reshaped) /\
    (forall idx, 0 <= idx < count (bottom0 scenario_reshaped) ->
       exists x z, read (map f32 [1; 2; 3; 4]) idx = Ok x /\
                   read (map f32 [1; 1; 1; 1]) idx = Ok z /\
                   read g idx = Ok (SFsub 24 128 x z)) /\
    data_mem (bottom0 s') = Some (map f32 [1; 2; 3; 4]) /\
    data_mem (bottom1 s') = Some (map f32 [1; 1; 1; 1]).
Proof.
  apply (@Backward_cpu_gradient _ Scalar_float scenario_reshaped
           (map f32 [1; 2; 3; 4]) (map f32 [1; 1; 1; 1])
           (repeat (S754_zero false) 4) (repeat (S754_zero false) 4)
           (repeat (S754_zero false) 4)).
  - repeat split; reflexivity.
  - repeat split; reflexivity.
  - repeat split; reflexivity.
  - reflexivity.
  - reflexivity.
Defined.

Lemma Reshape_rejects_mismatch_witness :
  (channels (bottom0 channel_mismatch) <> channels (bottom1 channel_mismatch)) /\
  @Reshape _ Scalar_float channel_mismatch = Err ShapeMismatch /\
  @training_step _ Scalar_float channel_mismatch = Err ShapeMismatch.
Proof.
  assert (H : channels (bottom0 channel_mismatch)
              <> channels (bottom1 channel_mismatch)).
  { simpl. lia. }
  split; [exact H |].
  apply (@Reshape_rejects_mismatch _ Scalar_float channel_mismatch).
  left. exact H.
Defined.

Lemma forward_empty_input_is_nan_witness :
  num (bottom1 empty_batch_reshaped) = 0 /\
  reported_loss (@Forward_cpu _ Scalar_float empty_batch_reshaped)
    = Ok S754_nan /\
  reported_loss (@Forward_cpu _ Scalar_double empty_batch_reshaped)
    = Ok S754_nan.
Proof.
  split; [reflexivity |].
  apply (forward_empty_input_is_nan empty_batch_reshaped [] [] []
           (S754_zero false)).
  - reflexivity.
  - reflexivity.
  - reflexivity.
  - left. reflexivity.
  - reflexivity.
  - reflexivity.
  - reflexivity.
Defined.

Lemma Backward_cpu_before_Reshape_witness :
  data_mem (diff_ scenario_float) = None /\
  @Backward_cpu _ Scalar_float scenario_float = Err UninitializedBuffer.
Proof.
  split; [reflexivity |].
  apply (@Backward_cpu_before_Reshape _ Scalar_float scenario_float).
  reflexivity.
Defined.

Lemma Forward_cpu_twice_witness :
  exists s' : State spec_float,
    @Forward_cpu _ Scalar_float scenario_reshaped = Ok s' /\
    diff_ s' = diff_ scenario_reshaped /\
    bottom0 s' = bottom0 scenario_reshaped /\
    bottom1 s' = bottom1 scenario_reshaped /\
    reported_loss (@Forward_cpu _ Scalar_float s')
      = reported_loss (@Forward_cpu _ Scalar_float scenario_reshaped).
Proof.
  eexists. split.
  - vm_compute. reflexivity.
  - apply (proj2 (@Forward_cpu_twice _ Scalar_float scenario_reshaped)).
    vm_compute. reflexivity.
Defined.

Lemma validation_ignores_num_witness :
  num (bottom0 two_against_one) <> num (bottom1 two_against_one) /\
  (exists s', @Reshape_after _ Scalar_float (@LossLayer_Reshape _ Scalar_float)
                two_against_one
              = Ok s' /\
              bottom0 s' = bottom0 two_against_one /\
              bottom1 s' = bottom1 two_against_one) /\
  @Forward_cpu _ Scalar_float (ready two_against_one)
  = @forward_with_dims _ Scalar_float 1 1 1 2 (ready two_against_one) /\
  reported_loss (@forward_with_dims _ Scalar_float 1 1 1 2
                   (ready two_against_one)) = Ok (f32 2) /\
  reported_loss (@Forward_cpu _ Scalar_float
                   (set_bottom0 scenario_reshaped
                      (tensor 7 1 5 9 (map f32 [1; 2; 3; 4]))))
    = reported_loss (@Forward_cpu _ Scalar_float scenario_reshaped).
Proof.
  split; [simpl; lia |].
  split; [| split; [| split]].
  - apply (proj2 (proj1 (@validation_ignores_num _ Scalar_float
                           two_against_one)
                    (@LossLayer_Reshape _ Scalar_float)
                    (set_top0 two_against_one
                       (@Blob_Reshape _ Scalar_float 1 1 1 1))
                    eq_refl eq_refl eq_refl));
      reflexivity.
  - apply (proj1 (proj2 (@validation_ignores_num _ Scalar_float
                           (ready two_against_one)))).
    unfold sizes_fit, INT_MAX. simpl. lia.
  - vm_compute. reflexivity.
  - symmetry.
    apply (proj2 (proj2 (@validation_ignores_num _ Scalar_float
                           scenario_reshaped))); reflexivity.
Defined.

Lemma forward_reads_flat_offset_witness :
  sizes_fit 1 1 2 2 /\
  image_idx (2 * 2 * 1) (2 * 2) 2 0 0 1 0 = Ok 2 /\
  @Forward_cpu _ Scalar_float scenario_reshaped
  = @forward_by_offsets _ Scalar_float scenario_reshaped /\
  reported_loss (@forward_by_offsets _ Scalar_float scenario_reshaped)
  = Ok (SFdiv 24 128 (f32 7) (f32 2)).
Proof.
  assert (Hfit : sizes_fit 1 1 2 2) by (unfold sizes_fit, INT_MAX; lia).
  split; [exact Hfit |].
  split; [| split].
  - apply (proj1 (@forward_reads_flat_offset _ Scalar_float scenario_reshaped)
             1 1 2 2 0 0 1 0 Hfit); lia.
  - apply (proj1 (proj2 (@forward_reads_flat_offset _ Scalar_float
                           scenario_reshaped))).
    exact Hfit.
  - vm_compute. reflexivity.
Defined.

(** A prediction of two images against a label of one: Reshape accepts the
    pair, and the loss is the one of the first image alone,
    ((3-1)^2 + (1-1)^2) / (1*1*1*2) = 2. *)
Example forward_two_against_one :
  reported_loss (bind (@Reshape _ Scalar_float two_against_one)
                      (@Forward_cpu _ Scalar_float))
    = Ok (f32 2).
Proof. vm_compute. reflexivity. Qed.

(** ** Further properties of the forward pass *)

Lemma foldM_succeeds {A B : Type} (f : A -> B -> result A) (l : list B) :
  (forall a b, In b l -> exists a', f a b = Ok a') ->
  forall a, exists r, foldM f l a = Ok r.
Proof.
  induction l as [| b l IH]; intros Hf a; simpl.
  - exists a. reflexivity.
  - destruct (Hf a b (or_introl eq_refl)) as [a' ->]. simpl.
    apply IH. intros a0 b0 Hin. apply Hf. right. exact Hin.
Qed.

Lemma foldM_error_kind {A B : Type} (f : A -> B -> result A) (P : error -> Prop)
    (l : list B) :
  (forall a b e, f a b = Err e -> P e) ->
  forall a e, foldM f l a = Err e -> P e.
Proof.
  intros Hf. induction l as [| b l IH]; intros a e; simpl.
  - discriminate.
  - destruct (f a b) as [a' | e'] eqn:E; simpl.
    + apply IH.
    + intros H. injection H as <-. exact (Hf a b e' E).
Qed.

Lemma set_nth_other {A : Type} (p : list A) (n m : nat) (x : A) :
  n <> m -> nth_error (set_nth p n x) m = nth_error p m.
Proof.
  revert n m. induction p as [| y p IH]; intros [| n] [| m] Hne; simpl;
    try reflexivity.
  - contradiction Hne. reflexivity.
  - apply IH. intros ->. apply Hne. reflexivity.
Qed.

Lemma read_set_nth_other {A : Type} (p : list A) (k o : Z) (x : A) :
  0 <= k -> o <> k -> read (set_nth p (Z.to_nat k) x) o = read p o.
Proof.
  intros Hk Hne. unfold read.
  destruct (Z.ltb_spec o 0); [reflexivity |].
  rewrite set_nth_other by lia. reflexivity.
Qed.

Section ForwardMore.

Context {Dtype : Type} {SD : Scalar Dtype}.

Lemma reported_report_loss (s : State Dtype) (old loss : Dtype)
    (top : list Dtype) :
  data_mem (top0 s) = Some (old :: top) ->
  reported_loss (report_loss s loss) = Ok loss.
Proof.
  intros Ht. unfold reported_loss, report_loss, mutable_cpu_data, cpu_data.
  rewrite Ht. reflexivity.
Qed.

(** What is left in top[0] depends on the computed loss and on the buffer of
    top[0] only. *)
Lemma reported_loss_report (s1 s2 : State Dtype) (c : result Dtype) :
  data_mem (top0 s1) = data_mem (top0 s2) ->
  reported_loss (bind c (report_loss s1)) = reported_loss (bind c (report_loss s2)).
Proof.
  intros Et. destruct c as [loss | e]; simpl; [| reflexivity].
  unfold reported_loss, report_loss, mutable_cpu_data, cpu_data. rewrite Et.
  destruct (buffer (data_mem (top0 s2))) as [top | e]; simpl; [| reflexivity].
  destruct (write top 0 loss) as [top' | e]; simpl; reflexivity.
Qed.

Lemma squared_diff_at_error (pred gt : list Dtype) (k : Z) (loss : Dtype)
    (e : error) :
  squared_diff_at pred gt k loss = Err e -> e = OutOfBounds.
Proof.
  unfold squared_diff_at, read.
  destruct (k <? 0); simpl; [intros H; injection H as <-; reflexivity |].
  destruct (nth_error pred (Z.to_nat k)); simpl;
    [| intros H; injection H as <-; reflexivity].
  destruct (nth_error gt (Z.to_nat k)); simpl;
    [discriminate | intros H; injection H as <-; reflexivity].
Qed.

(** Offsets of a heatmap not higher than wide stay inside the tensor. *)
Lemma flat_offset_in_range (N C H W n c i j : Z) :
  H <= W ->
  0 <= n < N -> 0 <= c < C -> 0 <= i < H -> 0 <= j < W ->
  0 <= flat_offset C H W n c i j < N * C * H * W.
Proof.
  intros HW Hn Hc Hi Hj. unfold flat_offset.
  assert (B0 : 0 <= H * W) by nia.
  assert (B0' : 0 <= C * H) by nia.
  assert (B0'' : 0 <= C * H * W) by nia.
  assert (B1 : 0 <= n * (C * H * W) <= (N - 1) * (C * H * W)).
  { split; [nia |]. apply Z.mul_le_mono_nonneg_r; lia. }
  assert (B2 : 0 <= c * (H * W) <= (C - 1) * (H * W)).
  { split; [nia |]. apply Z.mul_le_mono_nonneg_r; lia. }
  assert (B3 : 0 <= i * H <= (H - 1) * W) by nia.
  assert (B4 : (N - 1) * (C * H * W) + (C - 1) * (H * W) + (H - 1) * W + W
               = N * C * H * W) by ring.
  lia.
Qed.

(** On same-shaped square tensors of sizes that fit the stored loss is the
    sum of the terms of lines 122-123 over all elements, divided by their
    number. *)
Lemma Forward_cpu_square_mean (s : State Dtype) (p t gp gt top : list Dtype)
    (old : Dtype) :
  same_shape (bottom0 s) (bottom1 s) ->
  holds (bottom0 s) p gp -> holds (bottom1 s) t gt ->
  height (bottom0 s) = width (bottom0 s) ->
  sizes_fit (num (bottom1 s)) (channels (bottom0 s))
            (height (bottom1 s)) (width (bottom1 s)) ->
  data_mem (top0 s) = Some (old :: top) ->
  reported_loss (Forward_cpu s)
  = Ok (div (raw_sum_of_squared_diffs p t (of_int 0))
            (of_int (count (bottom0 s)))).
Proof.
  intros Hshape Hp Ht Esq Hfit Htop.
  rewrite (Forward_cpu_square s p t gp gt Hshape Hp Ht Esq Hfit).
  unfold mean_squared_error, cpu_data.
  destruct Hp as (-> & _). destruct Ht as (-> & _). simpl.
  apply (reported_report_loss s old _ top Htop).
Qed.

(** With more rows than columns, reading at the offsets of the forward pass
    leaves the buffers. *)
Lemma forward_by_offsets_tall (s : State Dtype) (p t gp gt : list Dtype) :
  same_shape (bottom0 s) (bottom1 s) ->
  holds (bottom0 s) p gp -> holds (bottom1 s) t gt ->
  0 < num (bottom0 s) -> 0 < channels (bottom0 s) ->
  0 < width (bottom0 s) < height (bottom0 s) ->
  forward_by_offsets s = Err OutOfBounds.
Proof.
  intros (En & Ec & Eh & Ew) (Hp & _ & Lp & _) (Ht & _) HN HC HW.
  unfold forward_by_offsets, cpu_data. rewrite Hp, Ht. simpl.
  rewrite <- En, <- Eh, <- Ew.
  set (N := num (bottom0 s)) in *. set (C := channels (bottom0 s)) in *.
  set (H := height (bottom0 s)) in *. set (W := width (bottom0 s)) in *.
  set (step := fun loss '(n, c, i, j) =>
                 squared_diff_at p t (flat_offset C H W n c i j) loss).
  destruct (foldM_fails step (loop_indices N C H W)
              (N - 1, C - 1, H - 1, W - 1))
    with (a := of_int 0) as [e Ee].
  - apply loop_indices_In; lia.
  - intros a. exists OutOfBounds. unfold step, squared_diff_at.
    rewrite read_past_end; [reflexivity |].
    rewrite Lp. unfold count, flat_offset. fold N C H W.
    assert (B : 1 <= (H - W) * (H - 1)) by nia.
    nia.
  - rewrite Ee. simpl. f_equal.
    apply (foldM_error_kind step (fun e => e = OutOfBounds)
             (loop_indices N C H W)) with (a := of_int 0); [| exact Ee].
    intros a [[[n c] i] j] e0. apply squared_diff_at_error.
Qed.

(** X2: on same-shaped tensors with at least one image, one channel and one
    column and with more rows than columns, the forward pass never returns a
    loss: it reads past the end of the buffers (or overflows an int before
    that). *)
Theorem forward_tall_out_of_bounds (s : State Dtype) (p t gp gt : list Dtype) :
  same_shape (bottom0 s) (bottom1 s) ->
  holds (bottom0 s) p gp -> holds (bottom1 s) t gt ->
  0 < num (bottom0 s) -> 0 < channels (bottom0 s) ->
  0 < width (bottom0 s) < height (bottom0 s) ->
  Forward_cpu s = Err OutOfBounds \/ Forward_cpu s = Err IntOverflow.
Proof.
  intros Hshape Hp Ht HN HC HW.
  destruct (Forward_cpu_agrees s) as [E | E]; [right; exact E | left].
  rewrite E. apply (forward_by_offsets_tall s p t gp gt); assumption.
Qed.

(** On same-shaped tensors of sizes that fit whose height does not exceed
    the width, with top[0] allocated, every read of the loops is inside the
    buffers and the loss is stored. *)
Lemma Forward_cpu_completes (s : State Dtype) (p t gp gt top : list Dtype)
    (old : Dtype) :
  same_shape (bottom0 s) (bottom1 s) ->
  holds (bottom0 s) p gp -> holds (bottom1 s) t gt ->
  height (bottom0 s) <= width (bottom0 s) ->
  sizes_fit (num (bottom1 s)) (channels (bottom0 s))
            (height (bottom1 s)) (width (bottom1 s)) ->
  data_mem (top0 s) = Some (old :: top) ->
  exists loss,
    Forward_cpu s = Ok (set_top0 s (set_data (top0 s) (loss :: top))).
Proof.
  intros (En & Ec & Eh & Ew) (Hp & _ & Lp & _) (Ht & _ & Lt & _) HW Hfit Htop.
  rewrite (Forward_cpu_fits s Hfit).
  unfold forward_by_offsets, cpu_data. rewrite Hp, Ht. simpl.
  assert (Ecount : count (bottom1 s) = count (bottom0 s)).
  { unfold count. rewrite En, Ec, Eh, Ew. reflexivity. }
  rewrite <- En, <- Eh, <- Ew.
  destruct (foldM_succeeds
              (fun loss '(n, c, i, j) =>
                 squared_diff_at p t
                   (flat_offset (channels (bottom0 s)) (height (bottom0 s))
                                (width (bottom0 s)) n c i j) loss)
              (loop_indices (num (bottom0 s)) (channels (bottom0 s))
                            (height (bottom0 s)) (width (bottom0 s))))
    with (a := of_int 0) as [loss ->].
  - intros a [[[n c] i] j] Hin. apply In_loop_indices in Hin.
    destruct Hin as (Hn & Hc & Hi & Hj).
    pose proof (flat_offset_in_range _ _ _ _ _ _ _ _ HW Hn Hc Hi Hj) as Hoff.
    fold (count (bottom0 s)) in Hoff.
    unfold squared_diff_at.
    destruct (read_in_range p (flat_offset (channels (bottom0 s))
                (height (bottom0 s)) (width (bottom0 s)) n c i j))
      as [x ->]; [lia |].
    destruct (read_in_range t (flat_offset (channels (bottom0 s))
                (height (bottom0 s)) (width (bottom0 s)) n c i j))
      as [z ->]; [lia |].
    simpl. eexists. reflexivity.
  - simpl. unfold report_loss, mutable_cpu_data. rewrite Htop. simpl.
    eexists. reflexivity.
Qed.

(** Buffers that agree at every visited offset give the same loss. *)
Lemma reported_loss_visited (s1 s2 : State Dtype)
    (p1 t1 p2 t2 : list Dtype) :
  data_mem (bottom0 s1) = Some p1 -> data_mem (bottom1 s1) = Some t1 ->
  data_mem (bottom0 s2) = Some p2 -> data_mem (bottom1 s2) = Some t2 ->
  data_mem (top0 s1) = data_mem (top0 s2) ->
  num (bottom1 s1) = num (bottom1 s2) ->
  height (bottom1 s1) = height (bottom1 s2) ->
  width (bottom1 s1) = width (bottom1 s2) ->
  channels (bottom0 s1) = channels (bottom0 s2) ->
  (forall n c i j,
     In (n, c, i, j) (loop_indices (num (bottom1 s1)) (channels (bottom0 s1))
                                   (height (bottom1 s1)) (width (bottom1 s1))) ->
     let k := flat_offset (channels (bottom0 s1)) (height (bottom1 s1))
                          (width (bottom1 s1)) n c i j in
     read p1 k = read p2 k /\ read t1 k = read t2 k) ->
  reported_loss (Forward_cpu s1) = reported_loss (Forward_cpu s2).
Proof.
  intros Hp1 Ht1 Hp2 Ht2 Etop En Eh Ew Ec Hvis.
  rewrite !Forward_cpu_report.
  replace (computed_loss s2) with (computed_loss s1).
  - apply reported_loss_report. exact Etop.
  - unfold computed_loss, cpu_data.
    rewrite Hp1, Ht1, Hp2, Ht2, <- En, <- Eh, <- Ew, <- Ec. simpl.
    unfold int_mul.
    destruct (int_of_cases (height (bottom1 s1) * width (bottom1 s1)))
      as [-> | ->]; simpl; [reflexivity |].
    destruct (int_of_cases (height (bottom1 s1) * width (bottom1 s1)
                            * channels (bottom0 s1)))
      as [-> | ->]; simpl; [reflexivity |].
    rewrite !accumulate_loss_indices.
    f_equal. apply foldM_ext_in.
    intros a [[[n c] i] j] Hin. unfold pixel_loss.
    destruct (image_idx _ _ _ n c i j) as [k | e] eqn:Ek; simpl;
      [| reflexivity].
    apply image_idx_flat_offset in Ek. subst k.
    destruct (Hvis n c i j Hin) as [-> ->]. reflexivity.
Qed.

(** X4: the loss depends on the two buffers only through the offsets the
    loops visit: two states with the same shapes and the same top[0] whose
    buffers agree at every visited offset get the same loss (or the same
    failure). *)
Theorem forward_reads_only_visited (s1 s2 : State Dtype)
    (p1 t1 p2 t2 : list Dtype) :
  data_mem (bottom0 s1) = Some p1 -> data_mem (bottom1 s1) = Some t1 ->
  data_mem (bottom0 s2) = Some p2 -> data_mem (bottom1 s2) = Some t2 ->
  data_mem (top0 s1) = data_mem (top0 s2) ->
  num (bottom1 s1) = num (bottom1 s2) ->
  height (bottom1 s1) = height (bottom1 s2) ->
  width (bottom1 s1) = width (bottom1 s2) ->
  channels (bottom0 s1) = channels (bottom0 s2) ->
  (forall n c i j,
     In (n, c, i, j) (loop_indices (num (bottom1 s1)) (channels (bottom0 s1))
                                   (height (bottom1 s1)) (width (bottom1 s1))) ->
     let k := flat_offset (channels (bottom0 s1)) (height (bottom1 s1))
                          (width (bottom1 s1)) n c i j in
     read p1 k = read p2 k /\ read t1 k = read t2 k) ->
  reported_loss (Forward_cpu s1) = reported_loss (Forward_cpu s2).
Proof. apply reported_loss_visited. Qed.

(** With at least two rows and more columns than rows, no visited offset is
    the last pixel of a channel. *)
Lemma wide_misses_last_pixel (C H W n c i j q : Z) :
  2 <= H < W -> 0 <= q ->
  0 <= n -> 0 <= c < C -> 0 <= i < H -> 0 <= j < W ->
  flat_offset C H W n c i j <> q * (H * W) + (H * W - 1).
Proof.
  intros HW Hq Hn Hc Hi Hj. unfold flat_offset.
  assert (Br : 0 <= i * H + j <= H * W - 2).
  { assert (B : (H - W) * (H - 1) <= -1) by nia. nia. }
  replace (n * (C * H * W) + c * (H * W) + i * H + j)
    with ((n * C + c) * (H * W) + (i * H + j)) by ring.
  intros E.
  assert (Ed : (n * C + c - q) * (H * W) = H * W - 1 - (i * H + j)) by lia.
  destruct (Z.le_gt_cases (n * C + c - q) 0); nia.
Qed.

(** X5: with at least two rows and more columns than rows, the loss does
    not depend on the last pixel of any channel, neither of the prediction
    nor of the target: overwriting that element changes nothing. *)
Theorem forward_wide_ignores_last_pixel (s : State Dtype) (p t : list Dtype)
    (q : Z) (x : Dtype) :
  data_mem (bottom0 s) = Some p -> data_mem (bottom1 s) = Some t ->
  2 <= height (bottom1 s) < width (bottom1 s) -> 0 <= q ->
  let k := q * (height (bottom1 s) * width (bottom1 s))
           + (height (bottom1 s) * width (bottom1 s) - 1) in
  reported_loss
    (Forward_cpu (set_bottom0 s (set_data (bottom0 s)
                                   (set_nth p (Z.to_nat k) x))))
    = reported_loss (Forward_cpu s) /\
  reported_loss
    (Forward_cpu (set_bottom1 s (set_data (bottom1 s)
                                   (set_nth t (Z.to_nat k) x))))
    = reported_loss (Forward_cpu s).
Proof.
  intros Hp Ht HW Hq k.
  assert (Hk : 0 <= k).
  { assert (B0 : 0 < height (bottom1 s) * width (bottom1 s)) by nia.
    assert (B1 : 0 <= q * (height (bottom1 s) * width (bottom1 s)))
      by (apply Z.mul_nonneg_nonneg; lia).
    unfold k. lia. }
  assert (Hmiss : forall n c i j,
            In (n, c, i, j)
               (loop_indices (num (bottom1 s)) (channels (bottom0 s))
                             (height (bottom1 s)) (width (bottom1 s))) ->
            flat_offset (channels (bottom0 s)) (height (bottom1 s))
                        (width (bottom1 s)) n c i j <> k).
  { intros n c i j Hin. apply In_loop_indices in Hin.
    destruct Hin as (Hn & Hc & Hi & Hj).
    apply wide_misses_last_pixel; lia. }
  split.
  - apply (reported_loss_visited _ s (set_nth p (Z.to_nat k) x) t p t);
      try reflexivity; try assumption.
    simpl. intros n c i j Hin. split; [| reflexivity].
    apply read_set_nth_other; [exact Hk |]. apply Hmiss. exact Hin.
  - apply (reported_loss_visited _ s p (set_nth t (Z.to_nat k) x) p t);
      try reflexivity; try assumption.
    simpl. intros n c i j Hin. split; [reflexivity |].
    apply read_set_nth_other; [exact Hk |]. apply Hmiss. exact Hin.
Qed.

End ForwardMore.

(** For Dtype float the casts of lines 122-123 do nothing: the sum of the
    terms is the sum of the squared differences in binary32. *)
Lemma raw_sum_of_squared_diffs_float (p t : list spec_float)
    (loss : spec_float) :
  @raw_sum_of_squared_diffs _ Scalar_float p t loss
  = fold_left (fun loss '(x, y) =>
                 SFadd 24 128 loss
                       (SFmul 24 128 (SFsub 24 128 x y) (SFsub 24 128 x y)))
              (combine p t) loss.
Proof.
  revert t loss. induction p as [| x p IH]; intros t loss.
  - reflexivity.
  - destruct t as [| y t]; [reflexivity |]. simpl. apply IH.
Qed.

Lemma mean_of_squared_differences_float (p t : list spec_float) (n : Z) :
  @div _ Scalar_float
    (@raw_sum_of_squared_diffs _ Scalar_float p t (@of_int _ Scalar_float 0))
    (@of_int _ Scalar_float n)
  = mean_of_squared_differences 24 128 p t n.
Proof.
  unfold mean_of_squared_differences, sum_of_squared_differences.
  rewrite raw_sum_of_squared_diffs_float. reflexivity.
Qed.

(** X1: on two same-shaped square heatmaps (height = width) of sizes that
    fit, the forward pass reads every element of the two tensors exactly
    once, in storage order, and leaves in top[0] the sum of the terms of
    lines 122-123 divided by the number of elements; each term is the
    product, in float, of the difference of the two values cast to float.
    For Dtype float this is the binary32 mean of the squared differences.
    For Dtype double it is not the binary64 mean of the squared differences:
    for 2^24 + 1 against 2^24 the pass stores 0 where that mean is 1. *)
Theorem forward_square_mean :
  (forall (Dtype : Type) (SD : Scalar Dtype) (s : State Dtype)
          (p t gp gt top : list Dtype) (old : Dtype),
     same_shape (bottom0 s) (bottom1 s) ->
     holds (bottom0 s) p gp -> holds (bottom1 s) t gt ->
     height (bottom0 s) = width (bottom0 s) ->
     sizes_fit (num (bottom1 s)) (channels (bottom0 s))
               (height (bottom1 s)) (width (bottom1 s)) ->
     data_mem (top0 s) = Some (old :: top) ->
     reported_loss (Forward_cpu s)
     = Ok (div (raw_sum_of_squared_diffs p t (of_int 0))
               (of_int (count (bottom0 s))))) /\
  (forall (s : State spec_float) (p t gp gt top : list spec_float)
          (old : spec_float),
     same_shape (bottom0 s) (bottom1 s) ->
     holds (bottom0 s) p gp -> holds (bottom1 s) t gt ->
     height (bottom0 s) = width (bottom0 s) ->
     sizes_fit (num (bottom1 s)) (channels (bottom0 s))
               (height (bottom1 s)) (width (bottom1 s)) ->
     data_mem (top0 s) = Some (old :: top) ->
     reported_loss (@Forward_cpu _ Scalar_float s)
     = Ok (mean_of_squared_differences 24 128 p t (count (bottom0 s)))) /\
  reported_loss (@Forward_cpu _ Scalar_double narrowed_pair) = Ok (f64 0) /\
  mean_of_squared_differences 53 1024 [f64 16777217] [f64 16777216]
    (count (bottom0 narrowed_pair)) = f64 1.
Proof.
  split; [| split; [| split]].
  - intros Dtype SD s p t gp gt top old. apply Forward_cpu_square_mean.
  - intros s p t gp gt top old Hshape Hp Ht Esq Hfit Htop.
    rewrite (Forward_cpu_square_mean s p t gp gt top old
               Hshape Hp Ht Esq Hfit Htop).
    rewrite mean_of_squared_differences_float. reflexivity.
  - vm_compute. reflexivity.
  - vm_compute. reflexivity.
Qed.

(** ** Further properties of the backward pass *)

Lemma skipn_app_exact {A : Type} (l1 l2 : list A) (n : nat) :
  length l1 = n -> skipn n (l1 ++ l2) = l2.
Proof.
  intros <-. rewrite skipn_app, skipn_all, Nat.sub_diag. reflexivity.
Qed.

Lemma firstn_app_exact {A : Type} (l1 l2 : list A) (n : nat) :
  length l1 = n -> firstn n (l1 ++ l2) = l1.
Proof.
  intros <-. rewrite firstn_app, firstn_all, Nat.sub_diag. simpl.
  apply app_nil_r.
Qed.

Lemma memcpy_Ok_inv {A : Type} (dst src dst' : list A) (n : Z) :
  memcpy dst src n = Ok dst' ->
  0 <= n <= Z.of_nat (length dst) /\ n <= Z.of_nat (length src) /\
  dst' = firstn (Z.to_nat n) src ++ skipn (Z.to_nat n) dst.
Proof.
  unfold memcpy.
  destruct ((0 <=? n) && (n <=? Z.of_nat (length dst))
            && (n <=? Z.of_nat (length src))) eqn:E; [| discriminate].
  intros H. injection H as <-.
  apply andb_true_iff in E. destruct E as [E E3].
  apply andb_true_iff in E. destruct E as [E1 E2].
  apply Z.leb_le in E1, E2, E3. auto.
Qed.

(** Copying the same source again changes nothing. *)
Lemma memcpy_again {A : Type} (dst src dst' : list A) (n : Z) :
  memcpy dst src n = Ok dst' -> memcpy dst' src n = Ok dst'.
Proof.
  intros E. pose proof E as E'. apply memcpy_Ok_inv in E'.
  destruct E' as ((Hn0 & Hnd) & Hns & ->).
  assert (Lf : length (firstn (Z.to_nat n) src) = Z.to_nat n).
  { apply firstn_length_le. lia. }
  unfold memcpy. rewrite length_app, Lf, length_skipn.
  replace ((0 <=? n)
           && (n <=? Z.of_nat (Z.to_nat n + (length dst - Z.to_nat n)))
           && (n <=? Z.of_nat (length src))) with true.
  - rewrite (skipn_app_exact _ _ _ Lf). reflexivity.
  - symmetry. rewrite !andb_true_iff. repeat split; apply Z.leb_le; lia.
Qed.

Section BackwardMore.

Context {Dtype : Type} {SD : Scalar Dtype}.

Lemma sub_elements_firstn_length (a b : list Dtype) (n : nat) :
  (n <= length a)%nat -> (n <= length b)%nat ->
  length (sub_elements (firstn n a) (firstn n b)) = n.
Proof.
  intros Ha Hb. rewrite sub_elements_length; rewrite !firstn_length_le; lia.
Qed.

Lemma caffe_sub_Ok_inv (n : Z) (a b y y' : list Dtype) :
  caffe_sub n a b y = Ok y' ->
  0 <= n <= Z.of_nat (length a) /\ n <= Z.of_nat (length b) /\
  n <= Z.of_nat (length y) /\
  y' = sub_elements (firstn (Z.to_nat n) a) (firstn (Z.to_nat n) b)
       ++ skipn (Z.to_nat n) y.
Proof.
  unfold caffe_sub.
  destruct ((0 <=? n) && (n <=? Z.of_nat (length a))
            && (n <=? Z.of_nat (length b)) && (n <=? Z.of_nat (length y)))
    eqn:E; [| discriminate].
  intros H. injection H as <-.
  apply andb_true_iff in E. destruct E as [E E4].
  apply andb_true_iff in E. destruct E as [E E3].
  apply andb_true_iff in E. destruct E as [E1 E2].
  apply Z.leb_le in E1, E2, E3, E4. auto.
Qed.

(** Subtracting the same operands again changes nothing. *)
Lemma caffe_sub_again (n : Z) (a b y y' : list Dtype) :
  caffe_sub n a b y = Ok y' -> caffe_sub n a b y' = Ok y'.
Proof.
  intros E. pose proof E as E'. apply caffe_sub_Ok_inv in E'.
  destruct E' as ((Hn0 & Hna) & Hnb & Hny & ->).
  assert (Ls : length (sub_elements (firstn (Z.to_nat n) a)
                                    (firstn (Z.to_nat n) b)) = Z.to_nat n).
  { apply sub_elements_firstn_length; lia. }
  unfold caffe_sub. rewrite length_app, Ls, length_skipn.
  replace ((0 <=? n) && (n <=? Z.of_nat (length a))
           && (n <=? Z.of_nat (length b))
           && (n <=? Z.of_nat (Z.to_nat n + (length y - Z.to_nat n))))
    with true.
  - rewrite (skipn_app_exact _ _ _ Ls). reflexivity.
  - symmetry. rewrite !andb_true_iff. repeat split; apply Z.leb_le; lia.
Qed.

(** X6: the backward pass overwrites and does not accumulate: a second
    backward pass on the state the first one left has the same outcome, with
    the same [diff_] and the same two gradients. *)
Theorem Backward_cpu_twice (s : State Dtype) :
  bind (Backward_cpu s) Backward_cpu = Backward_cpu s.
Proof.
  destruct (Backward_cpu s) as [s' | e] eqn:E; simpl; [| reflexivity].
  revert E. unfold Backward_cpu, cpu_data, mutable_cpu_data, mutable_cpu_diff.
  destruct (data_mem (bottom0 s)) as [a |] eqn:Ha; simpl; [| discriminate].
  destruct (data_mem (bottom1 s)) as [b |] eqn:Hb; simpl; [| discriminate].
  destruct (data_mem (diff_ s)) as [y |] eqn:Hy; simpl; [| discriminate].
  destruct (caffe_sub (count (bottom0 s)) a b y) as [y' |] eqn:Ey; simpl;
    [| discriminate].
  destruct (diff_mem (bottom0 s)) as [d0 |] eqn:Hd0; simpl; [| discriminate].
  destruct (memcpy d0 y' (count (bottom0 s))) as [d0' |] eqn:E0; simpl;
    [| discriminate].
  destruct (diff_mem (bottom1 s)) as [d1 |] eqn:Hd1; simpl; [| discriminate].
  destruct (memcpy d1 y' (count (bottom0 s))) as [d1' |] eqn:E1; simpl;
    [| discriminate].
  intros H. injection H as <-. simpl.
  rewrite Ha, Hb. simpl. unfold count in *. simpl.
  rewrite (caffe_sub_again _ _ _ _ _ Ey). simpl.
  rewrite (memcpy_again _ _ _ _ E0). simpl.
  rewrite (memcpy_again _ _ _ _ E1). simpl.
  reflexivity.
Qed.

(** X7: the backward pass never looks at top[0] and leaves it alone: with
    another top[0] it has the same outcome, that top[0] apart.  A loss weight
    stored in top[0] does not scale the gradients. *)
Theorem Backward_cpu_ignores_top (s : State Dtype) (b : Blob Dtype) :
  Backward_cpu (set_top0 s b)
  = bind (Backward_cpu s) (fun s' => Ok (set_top0 s' b)).
Proof.
  unfold Backward_cpu, cpu_data, mutable_cpu_data, mutable_cpu_diff. simpl.
  destruct (data_mem (bottom0 s)) as [a |]; simpl; [| reflexivity].
  destruct (data_mem (bottom1 s)) as [t |]; simpl; [| reflexivity].
  destruct (data_mem (diff_ s)) as [y |]; simpl; [| reflexivity].
  destruct (caffe_sub (count (bottom0 s)) a t y) as [y' |]; simpl;
    [| reflexivity].
  destruct (diff_mem (bottom0 s)) as [d0 |]; simpl; [| reflexivity].
  destruct (memcpy d0 y' (count (bottom0 s))) as [d0' |]; simpl;
    [| reflexivity].
  destruct (diff_mem (bottom1 s)) as [d1 |]; simpl; [| reflexivity].
  destruct (memcpy d1 y' (count (bottom0 s))) as [d1' |]; simpl; reflexivity.
Qed.

(** The backward pass keeps the shapes, the values of both bottom blobs and
    top[0]. *)
Lemma Backward_cpu_frame (s s' : State Dtype) :
  Backward_cpu s = Ok s' ->
  top0 s' = top0 s /\
  data_mem (bottom0 s') = data_mem (bottom0 s) /\
  data_mem (bottom1 s') = data_mem (bottom1 s) /\
  num (bottom1 s') = num (bottom1 s) /\
  height (bottom1 s') = height (bottom1 s) /\
  width (bottom1 s') = width (bottom1 s) /\
  channels (bottom0 s') = channels (bottom0 s).
Proof.
  unfold Backward_cpu, cpu_data, mutable_cpu_data, mutable_cpu_diff.
  destruct (data_mem (bottom0 s)) as [a |] eqn:Ha; simpl; [| discriminate].
  destruct (data_mem (bottom1 s)) as [t |] eqn:Ht; simpl; [| discriminate].
  destruct (data_mem (diff_ s)) as [y |]; simpl; [| discriminate].
  destruct (caffe_sub (count (bottom0 s)) a t y) as [y' |]; simpl;
    [| discriminate].
  destruct (diff_mem (bottom0 s)) as [d0 |]; simpl; [| discriminate].
  destruct (memcpy d0 y' (count (bottom0 s))) as [d0' |]; simpl;
    [| discriminate].
  destruct (diff_mem (bottom1 s)) as [d1 |]; simpl; [| discriminate].
  destruct (memcpy d1 y' (count (bottom0 s))) as [d1' |]; simpl;
    [| discriminate].
  intros H. injection H as <-. simpl. rewrite Ha, Ht. repeat split.
Qed.

Lemma computed_loss_ext (s1 s2 : State Dtype) :
  data_mem (bottom0 s1) = data_mem (bottom0 s2) ->
  data_mem (bottom1 s1) = data_mem (bottom1 s2) ->
  num (bottom1 s1) = num (bottom1 s2) ->
  height (bottom1 s1) = height (bottom1 s2) ->
  width (bottom1 s1) = width (bottom1 s2) ->
  channels (bottom0 s1) = channels (bottom0 s2) ->
  computed_loss s1 = computed_loss s2.
Proof.
  intros E0 E1 En Eh Ew Ec. unfold computed_loss, cpu_data.
  rewrite E0, E1, En, Eh, Ew, Ec. reflexivity.
Qed.

(** X8: the two passes do not interfere: when both complete from a state,
    running forward then backward and running backward then forward end in
    the same state. *)
Theorem forward_backward_commute (s s1 s2 : State Dtype) :
  Forward_cpu s = Ok s1 -> Backward_cpu s = Ok s2 ->
  exists s12, Backward_cpu s1 = Ok s12 /\ Forward_cpu s2 = Ok s12.
Proof.
  intros EF EB.
  rewrite Forward_cpu_report in EF.
  apply bind_Ok_inv in EF. destruct EF as (loss & Eloss & EF).
  destruct (Backward_cpu_frame s s2 EB) as (Et & E0 & E1 & En & Eh & Ew & Ec).
  unfold report_loss, mutable_cpu_data in EF.
  apply bind_Ok_inv in EF. destruct EF as (top & Etop & EF).
  apply bind_Ok_inv in EF. destruct EF as (top' & Ew' & EF).
  injection EF as <-.
  exists (set_top0 s2 (set_data (top0 s) top')). split.
  - rewrite Backward_cpu_ignores_top, EB. reflexivity.
  - rewrite Forward_cpu_report.
    rewrite (computed_loss_ext s2 s) by assumption.
    rewrite Eloss. simpl.
    unfold report_loss, mutable_cpu_data. rewrite Et, Etop. simpl.
    rewrite Ew'. reflexivity.
Qed.

(** A prediction that holds more elements than the target makes the backward
    pass read past the end of the target. *)
Lemma Backward_cpu_short_target (s : State Dtype)
    (p t gp gt y : list Dtype) :
  holds (bottom0 s) p gp -> holds (bottom1 s) t gt ->
  data_mem (diff_ s) = Some y ->
  count (bottom1 s) < count (bottom0 s) ->
  Backward_cpu s = Err OutOfBounds.
Proof.
  intros (Hp & _ & Lp & _) (Ht & _ & Lt & _) Hy Hlt.
  unfold Backward_cpu, cpu_data, mutable_cpu_data.
  rewrite Hp, Ht, Hy. simpl. unfold caffe_sub.
  replace (count (bottom0 s) <=? Z.of_nat (length t)) with false
    by (symmetry; apply Z.leb_gt; lia).
  rewrite andb_false_r. reflexivity.
Qed.

(** X9: lines 29-31 of Reshape do not compare the num of the two blobs.
    Whenever the base-class step of line 26 returns and leaves the two
    bottom blobs as they were, a prediction with more images than the target
    (equal and positive channels, height and width) passes Reshape, and the
    backward pass that follows reads past the end of the target; the same
    holds of the backward pass on its own, whatever difference buffer has
    been allocated. *)
Theorem Reshape_then_Backward_short_target
    (base : State Dtype -> result (State Dtype)) (s s0 : State Dtype)
    (p t gp gt : list Dtype) :
  base s = Ok s0 -> bottom0 s0 = bottom0 s -> bottom1 s0 = bottom1 s ->
  holds (bottom0 s) p gp -> holds (bottom1 s) t gt ->
  channels (bottom0 s) = channels (bottom1 s) ->
  height (bottom0 s) = height (bottom1 s) ->
  width (bottom0 s) = width (bottom1 s) ->
  0 < channels (bottom0 s) -> 0 < height (bottom0 s) ->
  0 < width (bottom0 s) ->
  num (bottom1 s) < num (bottom0 s) ->
  (exists s1, Reshape_after base s = Ok s1) /\
  bind (Reshape_after base s) Backward_cpu = Err OutOfBounds /\
  (forall y, data_mem (diff_ s) = Some y -> Backward_cpu s = Err OutOfBounds).
Proof.
  intros Eb E0 E1 Hp Ht Ec Eh Ew HC HH HW Hnum.
  assert (Hcount : count (bottom1 s) < count (bottom0 s)).
  { unfold count. rewrite <- Ec, <- Eh, <- Ew.
    assert (B1 : 0 < channels (bottom0 s) * height (bottom0 s)) by nia.
    assert (B2 : 0 < channels (bottom0 s) * height (bottom0 s)
                     * width (bottom0 s)) by nia.
    nia. }
  destruct (Reshape_after_cases base s s0 Eb) as [(_ & _ & _ & E) | [Hne _]].
  - split; [eexists; exact E |]. split.
    + rewrite E. simpl.
      apply (Backward_cpu_short_target _ p t gp gt
               (repeat (of_int 0)
                  (Z.to_nat (num (bottom0 s0) * channels (bottom0 s0)
                             * height (bottom0 s0) * width (bottom0 s0)))));
        simpl; rewrite ?E0, ?E1; try assumption; reflexivity.
    + intros y Hy.
      apply (Backward_cpu_short_target s p t gp gt y); assumption.
  - exfalso. rewrite E0, E1 in Hne.
    destruct Hne as [H | [H | H]]; contradiction.
Qed.

End BackwardMore.

Section BatchMismatch.

Context {Dtype : Type} {SD : Scalar Dtype}.

(** X10: a target with more images than the prediction (channels, height
    and width equal and positive) makes the forward pass, which loops over
    the images of the target, read past the end of the prediction (or
    overflow an int before that). *)
Theorem forward_short_prediction (s : State Dtype) (p t gp gt : list Dtype) :
  holds (bottom0 s) p gp -> holds (bottom1 s) t gt ->
  channels (bottom0 s) = channels (bottom1 s) ->
  height (bottom0 s) = height (bottom1 s) ->
  width (bottom0 s) = width (bottom1 s) ->
  0 < channels (bottom0 s) -> 0 < height (bottom0 s) ->
  0 < width (bottom0 s) ->
  0 <= num (bottom0 s) < num (bottom1 s) ->
  Forward_cpu s = Err OutOfBounds \/ Forward_cpu s = Err IntOverflow.
Proof.
  intros (Hp & _ & Lp & _) (Ht & _) Ec Eh Ew HC HH HW Hnum.
  destruct (Forward_cpu_agrees s) as [E | E]; [right; exact E | left].
  rewrite E. unfold forward_by_offsets, cpu_data. rewrite Hp, Ht. simpl.
  rewrite <- Eh, <- Ew.
  set (N := num (bottom1 s)) in *. set (C := channels (bottom0 s)) in *.
  set (H := height (bottom0 s)) in *. set (W := width (bottom0 s)) in *.
  set (step := fun loss '(n, c, i, j) =>
                 squared_diff_at p t (flat_offset C H W n c i j) loss).
  destruct (foldM_fails step (loop_indices N C H W) (N - 1, 0, 0, 0))
    with (a := of_int 0) as [e Ee].
  - apply loop_indices_In; lia.
  - intros a. exists OutOfBounds. unfold step, squared_diff_at.
    rewrite read_past_end; [reflexivity |].
    rewrite Lp. unfold count, flat_offset. fold C H W.
    assert (B1 : 0 < C * H) by nia.
    assert (B2 : 0 < C * H * W) by nia.
    nia.
  - rewrite Ee. simpl. f_equal.
    apply (foldM_error_kind step (fun e => e = OutOfBounds)
             (loop_indices N C H W)) with (a := of_int 0); [| exact Ee].
    intros a [[[n c] i] j] e0. apply squared_diff_at_error.
Qed.

Lemma read_app_left {A : Type} (l1 l2 l2' : list A) (k : Z) :
  k < Z.of_nat (length l1) -> read (l1 ++ l2) k = read (l1 ++ l2') k.
Proof.
  intros Hk. unfold read.
  destruct (Z.ltb_spec k 0); [reflexivity |].
  rewrite !nth_error_app1 by lia. reflexivity.
Qed.

(** X11: a prediction with more images than the target (height not above
    width): the loss is computed from the first images only, as many as the
    target has; the values of the remaining images of the prediction do not
    matter. *)
Theorem forward_ignores_extra_images (s : State Dtype)
    (p extra extra' t : list Dtype) :
  data_mem (bottom0 s) = Some (p ++ extra) ->
  data_mem (bottom1 s) = Some t ->
  height (bottom1 s) <= width (bottom1 s) ->
  Z.of_nat (length p) = num (bottom1 s) * channels (bottom0 s)
                        * height (bottom1 s) * width (bottom1 s) ->
  reported_loss
    (Forward_cpu (set_bottom0 s (set_data (bottom0 s) (p ++ extra'))))
  = reported_loss (Forward_cpu s).
Proof.
  intros Hp Ht HW Lp.
  apply (reported_loss_visited _ s (p ++ extra') t (p ++ extra) t);
    try reflexivity; try assumption.
  simpl. intros n c i j Hin. split; [| reflexivity].
  apply In_loop_indices in Hin. destruct Hin as (Hn & Hc & Hi & Hj).
  apply read_app_left. rewrite Lp.
  apply (flat_offset_in_range _ _ _ _ _ _ _ _ HW Hn Hc Hi Hj).
Qed.

End BatchMismatch.

(** ** IEEE arithmetic in the two passes *)

Lemma binary_round_aux_sign (prec emax : Z) (s : bool) (m e : Z) (l : location) :
  has_sign s (binary_round_aux prec emax s m e l).
Proof.
  unfold binary_round_aux.
  destruct (shr_fexp prec emax m e l) as [mrs' e'].
  destruct (shr_fexp prec emax _ e' loc_Exact) as [mrs'' e''].
  destruct (shr_m mrs''); simpl; auto.
  destruct (Z.leb e'' (Z.sub emax prec)); simpl; reflexivity.
Qed.

Lemma binary_round_sign (prec emax : Z) (s : bool) (m : positive) (e : Z) :
  has_sign s (binary_round prec emax s m e).
Proof.
  unfold binary_round.
  destruct (shl_align m e _) as [mz ez]. apply binary_round_aux_sign.
Qed.

Lemma binary_normalize_not_negative (prec emax : Z) (m e : Z) :
  0 <= m -> not_negative (binary_normalize prec emax m e false).
Proof.
  intros Hm. unfold not_negative. destruct m as [| m | m]; simpl.
  - reflexivity.
  - apply binary_round_sign.
  - lia.
Qed.

Lemma SFof_int_not_negative (prec emax : Z) (n : Z) :
  0 <= n -> not_negative (SFof_int prec emax n).
Proof. apply binary_normalize_not_negative. Qed.

Lemma SFconv_not_negative (prec emax : Z) (x : spec_float) :
  not_negative x -> not_negative (SFconv prec emax x).
Proof.
  unfold not_negative. destruct x as [s | s | | s m e]; simpl; auto.
  intros ->. simpl. apply binary_round_sign.
Qed.

(** A square is never negative. *)
Lemma SFmul_square_not_negative (prec emax : Z) (x : spec_float) :
  not_negative (SFmul prec emax x x).
Proof.
  unfold not_negative. destruct x as [s | s | | s m e]; simpl.
  - apply xorb_nilpotent.
  - apply xorb_nilpotent.
  - exact I.
  - rewrite xorb_nilpotent. apply binary_round_aux_sign.
Qed.

Lemma SFadd_not_negative (prec emax : Z) (x y : spec_float) :
  not_negative x -> not_negative y -> not_negative (SFadd prec emax x y).
Proof.
  unfold not_negative.
  destruct x as [sx | sx | | sx mx ex], y as [sy | sy | | sy my ey]; simpl;
    intros Hx Hy; subst; simpl; auto.
  destruct (shl_align mx ex (Z.min ex ey)) as [ax ?].
  destruct (shl_align my ey (Z.min ex ey)) as [ay ?].
  simpl. apply binary_round_sign.
Qed.

Lemma SFdiv_not_negative (prec emax : Z) (x y : spec_float) :
  not_negative x -> not_negative y -> not_negative (SFdiv prec emax x y).
Proof.
  unfold not_negative.
  destruct x as [sx | sx | | sx mx ex], y as [sy | sy | | sy my ey]; simpl;
    intros Hx Hy; subst; simpl; auto.
  destruct (SFdiv_core_binary prec emax (Zpos mx) ex (Zpos my) ey)
    as [[mz ez] lz].
  apply (binary_round_aux_sign prec emax false).
Qed.

(** The difference of a finite number and itself is +0. *)
Lemma SFsub_diag (prec emax : Z) (x : spec_float) :
  SFfinite x = true -> SFsub prec emax x x = S754_zero false.
Proof.
  destruct x as [s | s | | s m e]; try discriminate; intros _.
  - destruct s; reflexivity.
  - unfold SFsub. rewrite Z.min_id. unfold shl_align.
    rewrite !Z.sub_diag. reflexivity.
Qed.

Lemma foldM_invariant {A B : Type} (P : A -> Prop) (f : A -> B -> result A)
    (l : list B) :
  (forall a b r, P a -> f a b = Ok r -> P r) ->
  forall a r, P a -> foldM f l a = Ok r -> P r.
Proof.
  intros Hf. induction l as [| b l IH]; intros a r Ha; simpl.
  - intros H. injection H as <-. exact Ha.
  - intros H. apply bind_Ok_inv in H. destruct H as (a' & Ea & H).
    apply (IH a' r); [| exact H]. apply (Hf a b a' Ha Ea).
Qed.

Section LossValue.

Context {Dtype : Type} {SD : Scalar Dtype}.

Lemma reported_report_loss_inv (s : State Dtype) (loss v : Dtype) :
  reported_loss (report_loss s loss) = Ok v -> v = loss.
Proof.
  unfold reported_loss, report_loss, mutable_cpu_data, cpu_data.
  destruct (data_mem (top0 s)) as [top |]; simpl; [| discriminate].
  unfold write.
  destruct ((0 <=? 0) && (0 <? Z.of_nat (length top))); simpl;
    [| discriminate].
  destruct top as [| old top]; simpl; [discriminate |].
  intros H. injection H as <-. reflexivity.
Qed.

(** A loss left in top[0] is the sum accumulated over the visited indices,
    divided by num * channels * (height * width). *)
Lemma reported_loss_Ok_inv (s : State Dtype) (v : Dtype) :
  reported_loss (Forward_cpu s) = Ok v ->
  exists pred gt acc,
    data_mem (bottom0 s) = Some pred /\ data_mem (bottom1 s) = Some gt /\
    foldM (fun loss '(n, c, i, j) =>
             pixel_loss pred gt
               (height (bottom1 s) * width (bottom1 s) * channels (bottom0 s))
               (height (bottom1 s) * width (bottom1 s)) (height (bottom1 s))
               n c i j loss)
          (loop_indices (num (bottom1 s)) (channels (bottom0 s))
                        (height (bottom1 s)) (width (bottom1 s)))
          (of_int 0) = Ok acc /\
    v = div acc (of_int (num (bottom1 s) * channels (bottom0 s)
                         * (height (bottom1 s) * width (bottom1 s)))).
Proof.
  rewrite Forward_cpu_report.
  destruct (computed_loss s) as [loss |] eqn:E; simpl; [| discriminate].
  intros Hv. apply reported_report_loss_inv in Hv. subst v.
  revert E. unfold computed_loss, cpu_data, int_mul.
  destruct (data_mem (bottom0 s)) as [pred |]; simpl; [| discriminate].
  destruct (data_mem (bottom1 s)) as [gt |]; simpl; [| discriminate].
  intros E.
  apply bind_Ok_inv in E. destruct E as (sz_ch & Hch & E).
  apply int_of_Ok in Hch. subst sz_ch.
  apply bind_Ok_inv in E. destruct E as (sz_img & Himg & E).
  apply int_of_Ok in Himg. subst sz_img.
  apply bind_Ok_inv in E. destruct E as (acc & Hacc & E).
  apply bind_Ok_inv in E. destruct E as (n1 & Hn1 & E).
  apply int_of_Ok in Hn1. subst n1.
  apply bind_Ok_inv in E. destruct E as (n & Hn & E).
  apply int_of_Ok in Hn. subst n.
  injection E as <-.
  rewrite accumulate_loss_indices in Hacc.
  exists pred, gt, acc. repeat split. exact Hacc.
Qed.

(** The backward pass on two same-shaped tensors and a [diff_] of their
    size, in full. *)
Lemma Backward_cpu_full (s : State Dtype) (p t gp gt y : list Dtype) :
  same_shape (bottom0 s) (bottom1 s) ->
  holds (bottom0 s) p gp -> holds (bottom1 s) t gt ->
  data_mem (diff_ s) = Some y ->
  Z.of_nat (length y) = count (bottom0 s) ->
  Backward_cpu s
  = Ok (set_bottom1
          (set_bottom0 (set_diff_ s (set_data (diff_ s) (sub_elements p t)))
             (set_diff (bottom0 s) (sub_elements p t)))
          (set_diff (bottom1 s) (sub_elements p t))).
Proof.
  intros (En & Ec & Eh & Ew) (Hp & Hgp & Lp & Lgp) (Ht & Hgt & Lt & Lgt) Hy Ly.
  assert (Ecount : count (bottom1 s) = count (bottom0 s)).
  { unfold count. rewrite En, Ec, Eh, Ew. reflexivity. }
  rewrite Ecount in Lt, Lgt.
  assert (Lg : length (sub_elements p t) = length p).
  { apply sub_elements_length. lia. }
  unfold Backward_cpu, cpu_data, mutable_cpu_data, mutable_cpu_diff.
  rewrite Hp, Ht, Hy. simpl.
  rewrite (caffe_sub_full _ p t y Lp) by lia. simpl.
  rewrite Hgp. simpl.
  rewrite (memcpy_full _ gp (sub_elements p t)) by lia. simpl.
  rewrite Hgt. simpl.
  rewrite (memcpy_full _ gt (sub_elements p t)) by lia. simpl.
  reflexivity.
Qed.

End LossValue.

(** Both instances subtract a finite number from itself to +0. *)
Lemma sub_elements_diag_float (p : list spec_float) :
  Forall (fun x => SFfinite x = true) p ->
  @sub_elements _ Scalar_float p p = repeat (S754_zero false) (length p).
Proof.
  induction 1 as [| x p Hx _ IH]; simpl.
  - reflexivity.
  - rewrite (SFsub_diag 24 128 x Hx), IH. reflexivity.
Qed.

Lemma sub_elements_diag_double (p : list spec_float) :
  Forall (fun x => SFfinite x = true) p ->
  @sub_elements _ Scalar_double p p = repeat (S754_zero false) (length p).
Proof.
  induction 1 as [| x p Hx _ IH]; simpl.
  - reflexivity.
  - rewrite (SFsub_diag 53 1024 x Hx), IH. reflexivity.
Qed.

(** X12: when prediction and target hold the same finite values, the
    backward pass leaves +0 everywhere in both gradients, for float and for
    double. *)
Theorem Backward_cpu_identical_tensors (s : State spec_float)
    (p gp gt y : list spec_float) :
  same_shape (bottom0 s) (bottom1 s) ->
  holds (bottom0 s) p gp -> holds (bottom1 s) p gt ->
  data_mem (diff_ s) = Some y ->
  Z.of_nat (length y) = count (bottom0 s) ->
  Forall (fun x => SFfinite x = true) p ->
  (exists s', @Backward_cpu _ Scalar_float s = Ok s' /\
     diff_mem (bottom0 s') = Some (repeat (S754_zero false) (length p)) /\
     diff_mem (bottom1 s') = Some (repeat (S754_zero false) (length p))) /\
  (exists s', @Backward_cpu _ Scalar_double s = Ok s' /\
     diff_mem (bottom0 s') = Some (repeat (S754_zero false) (length p)) /\
     diff_mem (bottom1 s') = Some (repeat (S754_zero false) (length p))).
Proof.
  intros Hshape Hp Ht Hy Ly Hfin. split.
  - rewrite (@Backward_cpu_full _ Scalar_float s p p gp gt y) by assumption.
    eexists. split; [reflexivity |]. simpl.
    rewrite (sub_elements_diag_float p Hfin). split; reflexivity.
  - rewrite (@Backward_cpu_full _ Scalar_double s p p gp gt y) by assumption.
    eexists. split; [reflexivity |]. simpl.
    rewrite (sub_elements_diag_double p Hfin). split; reflexivity.
Qed.

(** One step of the forward loops keeps the running loss not negative. *)
Lemma pixel_loss_not_negative_float (pred gt : list spec_float)
    (a b c n ch i j : Z) (loss r : spec_float) :
  not_negative loss ->
  @pixel_loss _ Scalar_float pred gt a b c n ch i j loss = Ok r ->
  not_negative r.
Proof.
  intros Hl. unfold pixel_loss. intros E.
  apply bind_Ok_inv in E. destruct E as (k & _ & E).
  apply bind_Ok_inv in E. destruct E as (x & _ & E).
  apply bind_Ok_inv in E. destruct E as (z & _ & E).
  injection E as <-. simpl.
  apply SFadd_not_negative; [exact Hl |].
  apply SFmul_square_not_negative.
Qed.

Lemma pixel_loss_not_negative_double (pred gt : list spec_float)
    (a b c n ch i j : Z) (loss r : spec_float) :
  not_negative loss ->
  @pixel_loss _ Scalar_double pred gt a b c n ch i j loss = Ok r ->
  not_negative r.
Proof.
  intros Hl. unfold pixel_loss. intros E.
  apply bind_Ok_inv in E. destruct E as (k & _ & E).
  apply bind_Ok_inv in E. destruct E as (x & _ & E).
  apply bind_Ok_inv in E. destruct E as (z & _ & E).
  injection E as <-. simpl.
  apply SFadd_not_negative; [exact Hl |].
  apply SFconv_not_negative. apply SFmul_square_not_negative.
Qed.

(** X13: whatever the values of the two tensors, a loss that the forward
    pass stores is never negative: it is NaN or has a clear sign bit, for
    float and for double. *)
Theorem forward_loss_not_negative (s : State spec_float) (v : spec_float) :
  0 <= num (bottom1 s) -> 0 <= channels (bottom0 s) ->
  0 <= height (bottom1 s) -> 0 <= width (bottom1 s) ->
  (reported_loss (@Forward_cpu _ Scalar_float s) = Ok v -> not_negative v) /\
  (reported_loss (@Forward_cpu _ Scalar_double s) = Ok v -> not_negative v).
Proof.
  intros HN HC HH HW.
  assert (Hn : 0 <= num (bottom1 s) * channels (bottom0 s)
                    * (height (bottom1 s) * width (bottom1 s))).
  { apply Z.mul_nonneg_nonneg; apply Z.mul_nonneg_nonneg; assumption. }
  split; intros Hv; apply reported_loss_Ok_inv in Hv;
    destruct Hv as (pred & gt & acc & _ & _ & Hacc & ->); simpl.
  - apply SFdiv_not_negative; [| apply SFof_int_not_negative; exact Hn].
    eapply (foldM_invariant not_negative); [| | exact Hacc].
    + intros a [[[n c] i] j] r Ha.
      apply pixel_loss_not_negative_float. exact Ha.
    + apply (SFof_int_not_negative 24 128 0). lia.
  - apply SFdiv_not_negative; [| apply SFof_int_not_negative; exact Hn].
    eapply (foldM_invariant not_negative); [| | exact Hacc].
    + intros a [[[n c] i] j] r Ha.
      apply pixel_loss_not_negative_double. exact Ha.
    + apply (SFof_int_not_negative 53 1024 0). lia.
Qed.

(** One step of the forward loops on two equal buffers keeps the running
    loss at +0. *)
Lemma pixel_loss_identical_float (p : list spec_float) (a b c n ch i j : Z)
    (r : spec_float) :
  Forall (fun x => SFfinite x = true) p ->
  @pixel_loss _ Scalar_float p p a b c n ch i j (S754_zero false) = Ok r ->
  r = S754_zero false.
Proof.
  intros Hfin. unfold pixel_loss. intros E.
  apply bind_Ok_inv in E. destruct E as (k & _ & E).
  apply bind_Ok_inv in E. destruct E as (x & Hx & E).
  rewrite Hx in E. simpl in E. injection E as <-.
  apply read_nth in Hx. destruct Hx as [_ Hx]. apply nth_error_In in Hx.
  rewrite Forall_forall in Hfin.
  rewrite (SFsub_diag 24 128 x (Hfin x Hx)). reflexivity.
Qed.

Lemma pixel_loss_identical_double (p : list spec_float) (a b c n ch i j : Z)
    (r : spec_float) :
  Forall (fun x => SFfinite (SFconv 24 128 x) = true) p ->
  @pixel_loss _ Scalar_double p p a b c n ch i j (S754_zero false) = Ok r ->
  r = S754_zero false.
Proof.
  intros Hfin. unfold pixel_loss. intros E.
  apply bind_Ok_inv in E. destruct E as (k & _ & E).
  apply bind_Ok_inv in E. destruct E as (x & Hx & E).
  rewrite Hx in E. simpl in E. injection E as <-.
  apply read_nth in Hx. destruct Hx as [_ Hx]. apply nth_error_In in Hx.
  rewrite Forall_forall in Hfin.
  rewrite (SFsub_diag 24 128 _ (Hfin x Hx)). reflexivity.
Qed.

Lemma SFdiv_zero_not_negative (prec emax : Z) (y : spec_float) :
  not_negative y ->
  SFdiv prec emax (S754_zero false) y = S754_zero false \/
  SFdiv prec emax (S754_zero false) y = S754_nan.
Proof.
  unfold not_negative. destruct y as [s | s | | s m e]; simpl; auto;
    intros ->; auto.
Qed.

(** X14: when prediction and target are one and the same buffer of values
    that are finite as float, the sum the forward pass accumulates is
    exactly +0: the loss it stores is +0 divided by the element count, hence
    +0, or NaN (as on an empty input).  For double the values are cast to
    float first, so it is the cast value that has to be finite. *)
Theorem forward_identical_tensors (s : State spec_float)
    (p : list spec_float) (v : spec_float) :
  data_mem (bottom0 s) = Some p -> data_mem (bottom1 s) = Some p ->
  0 <= num (bottom1 s) -> 0 <= channels (bottom0 s) ->
  0 <= height (bottom1 s) -> 0 <= width (bottom1 s) ->
  let n := num (bottom1 s) * channels (bottom0 s)
           * (height (bottom1 s) * width (bottom1 s)) in
  (Forall (fun x => SFfinite x = true) p ->
   reported_loss (@Forward_cpu _ Scalar_float s) = Ok v ->
   v = SFdiv 24 128 (S754_zero false) (f32 n) /\
   (v = S754_zero false \/ v = S754_nan)) /\
  (Forall (fun x => SFfinite (SFconv 24 128 x) = true) p ->
   reported_loss (@Forward_cpu _ Scalar_double s) = Ok v ->
   v = SFdiv 53 1024 (S754_zero false) (f64 n) /\
   (v = S754_zero false \/ v = S754_nan)).
Proof.
  intros Hp Ht HN HC HH HW n.
  assert (Hn : 0 <= n).
  { unfold n. apply Z.mul_nonneg_nonneg; apply Z.mul_nonneg_nonneg;
      assumption. }
  split; intros Hfin Hv; apply reported_loss_Ok_inv in Hv;
    destruct Hv as (pred & gt & acc & Hp' & Ht' & Hacc & ->);
    rewrite Hp in Hp'; rewrite Ht in Ht';
    injection Hp' as <-; injection Ht' as <-; simpl.
  - assert (Eacc : acc = S754_zero false).
    { eapply (foldM_invariant (fun a => a = S754_zero false));
        [| | exact Hacc].
      - intros a [[[n0 c] i] j] r -> Hr.
        apply (pixel_loss_identical_float p _ _ _ _ _ _ _ r Hfin Hr).
      - reflexivity. }
    subst acc. split; [reflexivity |].
    apply SFdiv_zero_not_negative. apply SFof_int_not_negative. exact Hn.
  - assert (Eacc : acc = S754_zero false).
    { eapply (foldM_invariant (fun a => a = S754_zero false));
        [| | exact Hacc].
      - intros a [[[n0 c] i] j] r -> Hr.
        apply (pixel_loss_identical_double p _ _ _ _ _ _ _ r Hfin Hr).
      - reflexivity. }
    subst acc. split; [reflexivity |].
    apply SFdiv_zero_not_negative. apply SFof_int_not_negative. exact Hn.
Qed.

Section TrainingStep.

Context {Dtype : Type} {SD : Scalar Dtype}.

(** A training step on two same-shaped square heatmaps of sizes that fit
    completes, with the sum of the terms of lines 122-123 divided by the
    number of elements in top[0] and prediction - target in [diff_] and in
    both gradients. *)
Lemma training_step_square_terms (s : State Dtype) (p t gp gt : list Dtype) :
  same_shape (bottom0 s) (bottom1 s) ->
  holds (bottom0 s) p gp -> holds (bottom1 s) t gt ->
  height (bottom0 s) = width (bottom0 s) ->
  sizes_fit (num (bottom1 s)) (channels (bottom0 s))
            (height (bottom1 s)) (width (bottom1 s)) ->
  exists s',
    training_step s = Ok s' /\
    reported_loss (Ok s')
      = Ok (div (raw_sum_of_squared_diffs p t (of_int 0))
                (of_int (count (bottom0 s)))) /\
    data_mem (diff_ s') = Some (sub_elements p t) /\
    diff_mem (bottom0 s') = Some (sub_elements p t) /\
    diff_mem (bottom1 s') = Some (sub_elements p t).
Proof.
  intros Hshape Hp Ht Esq Hfit.
  unfold training_step.
  destruct (Reshape_cases s) as [(_ & _ & _ & E) | [Hne _]].
  2:{ exfalso. destruct Hshape as (_ & Ec & Eh & Ew).
      destruct Hne as [H | [H | H]]; contradiction. }
  rewrite E. cbn [bind].
  set (s1 := set_diff_ (set_top0 s (Blob_Reshape 1 1 1 1))
               (Blob_Reshape (num (bottom0 s)) (channels (bottom0 s))
                             (height (bottom0 s)) (width (bottom0 s)))).
  rewrite (Forward_cpu_square s1 p t gp gt Hshape Hp Ht Esq Hfit).
  unfold mean_squared_error, cpu_data. simpl.
  destruct Hp as (Hp & Hgp & Lp & Lgp). destruct Ht as (Ht & Hgt & Lt & Lgt).
  rewrite Hp, Ht. simpl.
  set (loss := div (raw_sum_of_squared_diffs p t (of_int 0))
                   (of_int (count (bottom0 s)))).
  set (s2 := set_top0 s1 (set_data (top0 s1) [loss])).
  rewrite (Backward_cpu_full s2 p t gp gt
             (repeat (of_int 0) (Z.to_nat (count (bottom0 s))))).
  - eexists. split; [reflexivity |]. simpl. repeat split.
  - exact Hshape.
  - repeat split; assumption.
  - repeat split; assumption.
  - reflexivity.
  - rewrite repeat_length. simpl. lia.
Qed.

End TrainingStep.

Lemma sub_elements_float (p t : list spec_float) :
  @sub_elements _ Scalar_float p t = differences 24 128 p t.
Proof.
  unfold differences. revert t. induction p as [| x p IH]; intros t.
  - reflexivity.
  - destruct t as [| y t]; [reflexivity |]. simpl. f_equal. apply IH.
Qed.

(** X15: a training step on two same-shaped square heatmaps of sizes that
    fit completes: Reshape accepts them; the forward pass leaves in top[0]
    the sum of the terms of lines 122-123 over all elements, divided by
    their number, each term being the product, in float, of the difference
    of the two values cast to float; the backward pass leaves
    prediction - target, subtracted in Dtype, in [diff_] and in both
    gradients.  For Dtype float the loss is the binary32 mean of the squared
    differences and the gradients are the binary32 differences. *)
Theorem training_step_square :
  (forall (Dtype : Type) (SD : Scalar Dtype) (s : State Dtype)
          (p t gp gt : list Dtype),
     same_shape (bottom0 s) (bottom1 s) ->
     holds (bottom0 s) p gp -> holds (bottom1 s) t gt ->
     height (bottom0 s) = width (bottom0 s) ->
     sizes_fit (num (bottom1 s)) (channels (bottom0 s))
               (height (bottom1 s)) (width (bottom1 s)) ->
     exists s',
       training_step s = Ok s' /\
       reported_loss (Ok s')
         = Ok (div (raw_sum_of_squared_diffs p t (of_int 0))
                   (of_int (count (bottom0 s)))) /\
       data_mem (diff_ s') = Some (sub_elements p t) /\
       diff_mem (bottom0 s') = Some (sub_elements p t) /\
       diff_mem (bottom1 s') = Some (sub_elements p t)) /\
  (forall (s : State spec_float) (p t gp gt : list spec_float),
     same_shape (bottom0 s) (bottom1 s) ->
     holds (bottom0 s) p gp -> holds (bottom1 s) t gt ->
     height (bottom0 s) = width (bottom0 s) ->
     sizes_fit (num (bottom1 s)) (channels (bottom0 s))
               (height (bottom1 s)) (width (bottom1 s)) ->
     exists s',
       @training_step _ Scalar_float s = Ok s' /\
       reported_loss (Ok s')
         = Ok (mean_of_squared_differences 24 128 p t (count (bottom0 s))) /\
       data_mem (diff_ s') = Some (differences 24 128 p t) /\
       diff_mem (bottom0 s') = Some (differences 24 128 p t) /\
       diff_mem (bottom1 s') = Some (differences 24 128 p t)).
Proof.
  split.
  - intros Dtype SD s p t gp gt. apply training_step_square_terms.
  - intros s p t gp gt Hshape Hp Ht Esq Hfit.
    destruct (@training_step_square_terms _ Scalar_float s p t gp gt
                Hshape Hp Ht Esq Hfit) as (s' & E & El & Ed & E0 & E1).
    exists s'. split; [exact E |].
    rewrite <- mean_of_squared_differences_float, <- sub_elements_float.
    repeat split; assumption.
Qed.

Section SetUp.

Context {Dtype : Type} {SD : Scalar Dtype}.

(** X16: LayerSetUp gives the layer a loss weight of 1 exactly when none is
    configured: configured weights are kept as they are, the result always
    has a loss weight, the visualisation settings are untouched, and a
    second LayerSetUp changes nothing. *)
Theorem LayerSetUp_default_weight (lp : LayerParameter cfloat) :
  (loss_weight lp = [] ->
   loss_weight (LayerSetUp lp) = [to_float (of_int 1)]) /\
  (loss_weight lp <> [] -> LayerSetUp lp = lp) /\
  loss_weight (LayerSetUp lp) <> [] /\
  visualize (LayerSetUp lp) = visualize lp /\
  visualize_channel (LayerSetUp lp) = visualize_channel lp /\
  LayerSetUp (LayerSetUp lp) = LayerSetUp lp.
Proof.
  unfold LayerSetUp, loss_weight_size.
  destruct lp as [[| w ws] vis ch]; simpl.
  - repeat split; try reflexivity; try discriminate.
    intros H. contradiction H. reflexivity.
  - repeat split; try reflexivity; discriminate.
Qed.

End SetUp.

(** ** The display images *)

Lemma foldM_fails_inv {A B : Type} (Inv : A -> Prop) (f : A -> B -> result A)
    (l : list B) (b : B) :
  (forall a b' r, Inv a -> f a b' = Ok r -> Inv r) ->
  In b l -> (forall a, Inv a -> exists e, f a b = Err e) ->
  forall a, Inv a -> exists e, foldM f l a = Err e.
Proof.
  intros Hinv Hin Hb. induction l as [| b0 l IH]; intros a Ha; simpl.
  - contradiction Hin.
  - destruct (f a b0) as [a' | e] eqn:E; simpl.
    + destruct Hin as [-> | Hin].
      * destruct (Hb a Ha) as [e' E']. rewrite E' in E. discriminate E.
      * apply IH; [exact Hin |]. apply (Hinv a b0 a' Ha E).
    + exists e. reflexivity.
Qed.

(** Two folds in step: the second sees the first through a projection. *)
Lemma foldM_project {A A' B : Type} (Inv : A -> Prop) (proj : A -> A')
    (f : A -> B -> result A) (g : A' -> B -> result A') (l : list B) :
  (forall a b, Inv a -> In b l ->
     bind (f a b) (fun r => Ok (proj r)) = g (proj a) b /\
     (forall r, f a b = Ok r -> Inv r)) ->
  forall a, Inv a ->
    bind (foldM f l a) (fun r => Ok (proj r)) = foldM g l (proj a).
Proof.
  induction l as [| b l IH]; intros Hstep a Ha; simpl.
  - reflexivity.
  - destruct (Hstep a b Ha (or_introl eq_refl)) as [E Hinv].
    rewrite <- E.
    destruct (f a b) as [a' | e]; simpl; [| reflexivity].
    apply IH; [| apply Hinv; reflexivity].
    intros a0 b0 Ha0 Hin. apply Hstep; [exact Ha0 | right; exact Hin].
Qed.

Lemma In_image_indices (C H W c i j : Z) :
  In (c, i, j) (image_indices C H W) <->
  0 <= c < C /\ 0 <= i < H /\ 0 <= j < W.
Proof.
  unfold image_indices. split.
  - intros Hin.
    apply in_flat_map in Hin. destruct Hin as (c' & Hc & Hin).
    apply in_flat_map in Hin. destruct Hin as (i' & Hi & Hin).
    apply in_map_iff in Hin. destruct Hin as (j' & E & Hj).
    injection E as <- <- <-.
    apply In_Zrange in Hc, Hi, Hj. auto.
  - intros (Hc & Hi & Hj).
    apply in_flat_map. exists c. split; [apply In_Zrange; exact Hc |].
    apply in_flat_map. exists i. split; [apply In_Zrange; exact Hi |].
    apply in_map_iff. exists j. split; [reflexivity | apply In_Zrange; exact Hj].
Qed.

Lemma write_length {A : Type} (p p' : list A) (k : Z) (x : A) :
  write p k x = Ok p' -> length p' = length p.
Proof.
  unfold write. destruct ((0 <=? k) && (k <? Z.of_nat (length p)));
    [| discriminate].
  intros H. injection H as <-. apply set_nth_length.
Qed.

Lemma write_in_range {A : Type} (p : list A) (k : Z) (x : A) :
  0 <= k < Z.of_nat (length p) -> exists p', write p k x = Ok p'.
Proof.
  intros Hk. unfold write.
  replace ((0 <=? k) && (k <? Z.of_nat (length p))) with true.
  - eexists. reflexivity.
  - symmetry. apply andb_true_iff. split; [apply Z.leb_le | apply Z.ltb_lt]; lia.
Qed.

Lemma write_past_end {A : Type} (p : list A) (k : Z) (x : A) :
  Z.of_nat (length p) <= k -> write p k x = Err OutOfBounds.
Proof.
  intros Hk. unfold write.
  replace (k <? Z.of_nat (length p)) with false
    by (symmetry; apply Z.ltb_ge; lia).
  rewrite andb_false_r. reflexivity.
Qed.

Lemma Mat_at_size {F : Type} (m m' : Mat F) (r c : Z) (v : F) :
  Mat_at m r c v = Ok m' ->
  cols m' = cols m /\ length (elems m') = length (elems m).
Proof.
  unfold Mat_at. intros E.
  apply bind_Ok_inv in E. destruct E as (e & Ew & E).
  injection E as <-. simpl. split; [reflexivity |].
  apply (write_length _ _ _ _ Ew).
Qed.

Section DisplayFacts.

Context {Dtype : Type} {SD : Scalar Dtype}.

Lemma image_pass_indices (pred gt : list Dtype) (C H W sz_img sz_ch n : Z)
    (loss : Dtype) :
  image_pass pred gt C H W sz_img sz_ch n loss =
  foldM (fun loss '(c, i, j) => pixel_loss pred gt sz_img sz_ch H n c i j loss)
        (image_indices C H W) loss.
Proof.
  unfold image_pass, for_loop, image_indices.
  rewrite foldM_flat_map. apply foldM_ext. intros a c.
  rewrite foldM_flat_map. apply foldM_ext. intros a0 i.
  rewrite foldM_map. reflexivity.
Qed.

Lemma image_pass_display_indices (v : bool) (vc : Z) (pred gt : list Dtype)
    (C H W sz_img sz_ch n : Z) (st : Dtype * Images cfloat) :
  image_pass_display v vc pred gt C H W sz_img sz_ch n st =
  foldM (fun st '(c, i, j) =>
           pixel_loss_display v vc pred gt sz_img sz_ch H n c i j st)
        (image_indices C H W) st.
Proof.
  unfold image_pass_display, for_loop, image_indices.
  rewrite foldM_flat_map. apply foldM_ext. intros a c.
  rewrite foldM_flat_map. apply foldM_ext. intros a0 i.
  rewrite foldM_map. reflexivity.
Qed.

(** The loops of the forward pass are the image pass, image after image. *)
Lemma accumulate_loss_image_pass (pred gt : list Dtype)
    (N C H W sz_img sz_ch : Z) (loss : Dtype) :
  accumulate_loss pred gt N C H W sz_img sz_ch loss =
  for_loop N (fun n loss => image_pass pred gt C H W sz_img sz_ch n loss) loss.
Proof. reflexivity. Qed.

(** One step, seen from the loss. *)
Lemma pixel_loss_display_loss (v : bool) (vc : Z) (pred gt : list Dtype)
    (sz_img sz_ch H n c i j : Z) (loss : Dtype) (imgs : Images cfloat)
    (r : Dtype * Images cfloat) :
  pixel_loss_display v vc pred gt sz_img sz_ch H n c i j (loss, imgs) = Ok r ->
  pixel_loss pred gt sz_img sz_ch H n c i j loss = Ok (fst r).
Proof.
  unfold pixel_loss_display, pixel_loss. intros E.
  apply bind_Ok_inv in E. destruct E as (k & -> & E). cbn [bind].
  apply bind_Ok_inv in E. destruct E as (x & -> & E). cbn [bind].
  apply bind_Ok_inv in E. destruct E as (z & -> & E). cbn [bind].
  destruct ((c =? vc) && v).
  - apply bind_Ok_inv in E. destruct E as (b & _ & E).
    apply bind_Ok_inv in E. destruct E as (t & _ & E).
    apply bind_Ok_inv in E. destruct E as (d & _ & E).
    injection E as <-. reflexivity.
  - injection E as <-. reflexivity.
Qed.

Lemma pixel_loss_display_off (vc : Z) (pred gt : list Dtype)
    (sz_img sz_ch H n c i j : Z) (loss : Dtype) (imgs : Images cfloat) :
  pixel_loss_display false vc pred gt sz_img sz_ch H n c i j (loss, imgs)
  = bind (pixel_loss pred gt sz_img sz_ch H n c i j loss)
         (fun l => Ok (l, imgs)).
Proof.
  unfold pixel_loss_display, pixel_loss.
  destruct (image_idx sz_img sz_ch H n c i j) as [k | e]; simpl;
    [| reflexivity].
  destruct (read pred k) as [x | e]; simpl; [| reflexivity].
  destruct (read gt k) as [z | e]; simpl; [| reflexivity].
  rewrite andb_false_r. reflexivity.
Qed.

Lemma foldM_Ok_project {A A' B : Type} (proj : A -> A')
    (f : A -> B -> result A) (g : A' -> B -> result A') (l : list B) :
  (forall a b r, f a b = Ok r -> g (proj a) b = Ok (proj r)) ->
  forall a r, foldM f l a = Ok r -> foldM g l (proj a) = Ok (proj r).
Proof.
  intros Hstep. induction l as [| b l IH]; intros a r; simpl.
  - intros H. injection H as <-. reflexivity.
  - intros H. apply bind_Ok_inv in H. destruct H as (a' & Ea & H).
    rewrite (Hstep a b a' Ea). simpl. apply IH. exact H.
Qed.

(** X17: the display never changes the loss.  With visualize unset the image
    pass is the plain one and leaves the images alone; with visualize set,
    whenever the pass completes, the loss it returns is the loss of the plain
    pass. *)
Theorem display_keeps_loss (v : bool) (vc : Z) (pred gt : list Dtype)
    (C H W sz_img sz_ch n : Z) (loss : Dtype) (imgs : Images cfloat) :
  image_pass_display false vc pred gt C H W sz_img sz_ch n (loss, imgs)
    = bind (image_pass pred gt C H W sz_img sz_ch n loss)
           (fun l => Ok (l, imgs)) /\
  (forall r,
     image_pass_display v vc pred gt C H W sz_img sz_ch n (loss, imgs) = Ok r ->
     image_pass pred gt C H W sz_img sz_ch n loss = Ok (fst r)).
Proof.
  rewrite !image_pass_display_indices, image_pass_indices. split.
  - generalize (image_indices C H W) as l. intros l. revert loss.
    induction l as [| [[c i] j] l IH]; intros loss.
    + reflexivity.
    + cbn [foldM]. rewrite pixel_loss_display_off.
      destruct (pixel_loss pred gt sz_img sz_ch H n c i j loss) as [l' | e];
        simpl; [apply IH | reflexivity].
  - intros r Hr.
    apply (foldM_Ok_project fst
             (fun st '(c, i, j) =>
                pixel_loss_display v vc pred gt sz_img sz_ch H n c i j st)
             (fun loss '(c, i, j) =>
                pixel_loss pred gt sz_img sz_ch H n c i j loss)
             (image_indices C H W)) with (a := (loss, imgs)); [| exact Hr].
    intros [l0 im0] [[c i] j] r0 E.
    apply (pixel_loss_display_loss _ _ _ _ _ _ _ _ _ _ _ _ _ _ E).
Qed.

Lemma Mat_at_in_range (m : Mat cfloat) (H W r c : Z) (x : cfloat) :
  cols m = W -> Z.of_nat (length (elems m)) = H * W ->
  0 <= r < H -> 0 <= c < W ->
  exists m', Mat_at m r c x = Ok m' /\ cols m' = W /\
             Z.of_nat (length (elems m')) = H * W.
Proof.
  intros Hc Hl Hr Hcc. unfold Mat_at.
  destruct (write_in_range (elems m) (r * cols m + c) x) as [e Ee].
  - rewrite Hc, Hl. nia.
  - rewrite Ee. simpl. eexists. split; [reflexivity |]. simpl.
    rewrite (write_length _ _ _ _ Ee). auto.
Qed.

(** One step keeps the sizes of the images. *)
Lemma pixel_loss_display_size (v : bool) (vc : Z) (pred gt : list Dtype)
    (sz_img sz_ch H0 n c i j H W : Z) (st r : Dtype * Images cfloat) :
  images_of_size H W (snd st) ->
  pixel_loss_display v vc pred gt sz_img sz_ch H0 n c i j st = Ok r ->
  images_of_size H W (snd r).
Proof.
  destruct st as [loss imgs]. simpl.
  intros (C1 & C2 & C3 & L1 & L2 & L3). unfold pixel_loss_display. intros E.
  apply bind_Ok_inv in E. destruct E as (k & _ & E).
  apply bind_Ok_inv in E. destruct E as (x & _ & E).
  apply bind_Ok_inv in E. destruct E as (z & _ & E).
  destruct ((c =? vc) && v).
  - apply bind_Ok_inv in E. destruct E as (b & Eb & E).
    apply bind_Ok_inv in E. destruct E as (t & Et & E).
    apply bind_Ok_inv in E. destruct E as (d & Ed & E).
    injection E as <-. unfold images_of_size. simpl.
    apply Mat_at_size in Eb, Et, Ed.
    destruct Eb as [Eb1 Eb2], Et as [Et1 Et2], Ed as [Ed1 Ed2].
    rewrite Eb1, Eb2, Et1, Et2, Ed1, Ed2.
    repeat split; assumption.
  - injection E as <-. simpl. repeat split; assumption.
Qed.

(** X18: on a square heatmap the display cannot fail: with images of the
    size of the heatmap, the image pass with visualize set completes
    exactly when the plain pass does, with the same loss, and stops with the
    same error otherwise. *)
Theorem display_square_harmless (v : bool) (vc : Z) (pred gt : list Dtype)
    (C H sz_img sz_ch n : Z) (loss : Dtype) (imgs : Images cfloat) :
  images_of_size H H imgs ->
  bind (image_pass_display v vc pred gt C H H sz_img sz_ch n (loss, imgs))
       (fun r => Ok (fst r))
  = image_pass pred gt C H H sz_img sz_ch n loss.
Proof.
  intros Hsize.
  rewrite image_pass_display_indices, image_pass_indices.
  apply (foldM_project (fun st => images_of_size H H (snd st)) fst
           (fun st '(c, i, j) =>
              pixel_loss_display v vc pred gt sz_img sz_ch H n c i j st)
           (fun loss '(c, i, j) =>
              pixel_loss pred gt sz_img sz_ch H n c i j loss)
           (image_indices C H H)) with (a := (loss, imgs)); [| exact Hsize].
  intros [l0 im0] [[c i] j] Hinv Hin.
  apply In_image_indices in Hin. destruct Hin as (Hc & Hi & Hj).
  split.
  - simpl in Hinv. destruct Hinv as (C1 & C2 & C3 & L1 & L2 & L3).
    unfold pixel_loss_display, pixel_loss. simpl.
    destruct (image_idx sz_img sz_ch H n c i j) as [k | e]; simpl;
      [| reflexivity].
    destruct (read pred k) as [x | e]; simpl; [| reflexivity].
    destruct (read gt k) as [z | e]; simpl; [| reflexivity].
    destruct ((c =? vc) && v); [| reflexivity].
    destruct (Mat_at_in_range (bottom_img im0) H H j i (to_float x))
      as (b & -> & _); try assumption.
    destruct (Mat_at_in_range (gt_img im0) H H j i (to_float z))
      as (t & -> & _); try assumption.
    destruct (Mat_at_in_range (diff_img im0) H H j i
                (fmul (fsub (to_float x) (to_float z))
                      (fsub (to_float x) (to_float z))))
      as (d & -> & _); try assumption.
    reflexivity.
  - intros r. apply pixel_loss_display_size. exact Hinv.
Qed.

(** X19: on a heatmap with more columns than rows (and at least one row)
    the display breaks the forward pass: with visualize set and the
    visualised channel among the channels, the image pass never completes,
    since pixel (row 0, column W-1) is stored at row W-1 of an image of H
    rows, past the end of its buffer. *)
Theorem display_wide_out_of_bounds (vc : Z) (pred gt : list Dtype)
    (C H W sz_img sz_ch n : Z) (loss : Dtype) (imgs : Images cfloat) :
  images_of_size H W imgs ->
  0 < H < W -> 0 <= vc < C ->
  exists e,
    image_pass_display true vc pred gt C H W sz_img sz_ch n (loss, imgs)
    = Err e.
Proof.
  intros Hsize HW Hvc.
  rewrite image_pass_display_indices.
  apply (foldM_fails_inv (fun st => images_of_size H W (snd st))
           (fun st '(c, i, j) =>
              pixel_loss_display true vc pred gt sz_img sz_ch H n c i j st)
           (image_indices C H W) (vc, 0, W - 1)).
  - intros st [[c i] j] r. apply pixel_loss_display_size.
  - apply In_image_indices. lia.
  - intros [l0 im0] (C1 & _ & _ & L1 & _ & _). simpl in C1, L1.
    unfold pixel_loss_display.
    destruct (image_idx sz_img sz_ch H n vc 0 (W - 1)) as [k | e]; simpl;
      [| eexists; reflexivity].
    destruct (read pred k) as [x | e]; simpl; [| eexists; reflexivity].
    destruct (read gt k) as [z | e]; simpl; [| eexists; reflexivity].
    rewrite Z.eqb_refl. simpl. unfold Mat_at.
    rewrite write_past_end; [eexists; reflexivity |].
    rewrite C1, L1. nia.
  - exact Hsize.
Qed.

End DisplayFacts.

(** *** The forward pass with the display *)

Section ForwardDisplayFacts.

Context {Dtype : Type} {SD : Scalar Dtype} {DS : DisplayScalar Dtype}.

Variable Window : Type.
Variable namedWindow : Window -> result Window.
Variable show_image :
  Z -> Dtype -> Images cfloat -> Window -> result (Images cfloat * Window).

(** With visualize unset the pass over one image is the plain one. *)
Lemma image_pass_display_off (vc : Z) (pred gt : list Dtype)
    (C H W sz_img sz_ch n : Z) (loss : Dtype) (imgs : Images cfloat) :
  image_pass_display false vc pred gt C H W sz_img sz_ch n (loss, imgs)
  = bind (image_pass pred gt C H W sz_img sz_ch n loss)
         (fun l => Ok (l, imgs)).
Proof.
  rewrite image_pass_display_indices, image_pass_indices.
  generalize (image_indices C H W) as l. intros l. revert loss.
  induction l as [| [[c i] j] l IH]; intros loss.
  - reflexivity.
  - cbn [foldM]. rewrite pixel_loss_display_off.
    destruct (pixel_loss pred gt sz_img sz_ch H n c i j loss) as [l' | e];
      simpl; [apply IH | reflexivity].
Qed.

Lemma image_step_off (vc : Z) (pred gt : list Dtype)
    (C H W sz_img sz_ch n : Z) (loss : Dtype) (imgs : Images cfloat)
    (w : Window) :
  image_step Window show_image false vc pred gt C H W sz_img sz_ch n
             (loss, imgs, w)
  = bind (image_pass pred gt C H W sz_img sz_ch n loss)
         (fun l => Ok (l, imgs, w)).
Proof.
  unfold image_step. rewrite image_pass_display_off.
  destruct (image_pass pred gt C H W sz_img sz_ch n loss); reflexivity.
Qed.

(** With visualize unset, lines 52-164 are [Forward_cpu]: no image is
    created, no window is opened and nothing is shown. *)
Lemma Forward_cpu_display_unset (lp : LayerParameter cfloat)
    (s : State Dtype) (w : Window) :
  visualize lp = false ->
  Forward_cpu_display Window namedWindow show_image lp s w
  = bind (Forward_cpu s) (fun s' => Ok (s', w)).
Proof.
  intros Hv. unfold Forward_cpu_display, Forward_cpu. rewrite Hv.
  destruct (cpu_data (bottom0 s)) as [pred | e]; simpl; [| reflexivity].
  destruct (cpu_data (bottom1 s)) as [gt | e]; simpl; [| reflexivity].
  destruct (int_mul (height (bottom1 s)) (width (bottom1 s)))
    as [sz_ch | e]; simpl; [| reflexivity].
  destruct (int_mul sz_ch (channels (bottom0 s))) as [sz_img | e]; simpl;
    [| reflexivity].
  rewrite accumulate_loss_image_pass. unfold for_loop.
  set (imgs := {| bottom_img := Mat_empty; gt_img := Mat_empty;
                  diff_img := Mat_empty |}).
  assert (Hloop : forall l loss,
            foldM (fun st n =>
                     image_step Window show_image false (visualize_channel lp)
                                pred gt (channels (bottom0 s))
                                (height (bottom1 s)) (width (bottom1 s))
                                sz_img sz_ch n st) l (loss, imgs, w)
            = bind (foldM (fun loss n =>
                             image_pass pred gt (channels (bottom0 s))
                                        (height (bottom1 s))
                                        (width (bottom1 s))
                                        sz_img sz_ch n loss) l loss)
                   (fun l' => Ok (l', imgs, w))).
  { induction l as [| n l IH]; intros loss.
    - reflexivity.
    - cbn [foldM]. rewrite image_step_off.
      destruct (image_pass pred gt (channels (bottom0 s)) (height (bottom1 s))
                           (width (bottom1 s)) sz_img sz_ch n loss)
        as [l' | e]; simpl; [apply IH | reflexivity]. }
  rewrite Hloop.
  destruct (foldM _ (Zrange (num (bottom1 s))) (of_int 0)) as [loss | e];
    simpl; [| reflexivity].
  destruct (int_mul (num (bottom1 s)) (channels (bottom0 s))) as [n1 | e];
    simpl; [| reflexivity].
  destruct (int_mul n1 sz_ch) as [n | e]; simpl; [| reflexivity].
  destruct (mutable_cpu_data (top0 s)) as [top | e]; simpl; [| reflexivity].
  destruct (write top 0 (div loss (of_int n))) as [top' | e]; simpl;
    reflexivity.
Qed.

(** X3: with heatmap_loss_param.visualize unset, on same-shaped tensors of
    sizes that fit whose height does not exceed the width, with top[0]
    allocated, the forward pass of lines 52-164 completes, whatever the
    display calls would do: every read is inside the buffers, top[0][0] is
    overwritten and nothing else changes. *)
Theorem forward_completes (lp : LayerParameter cfloat) (s : State Dtype)
    (w : Window) (p t gp gt top : list Dtype) (old : Dtype) :
  visualize lp = false ->
  same_shape (bottom0 s) (bottom1 s) ->
  holds (bottom0 s) p gp -> holds (bottom1 s) t gt ->
  height (bottom0 s) <= width (bottom0 s) ->
  sizes_fit (num (bottom1 s)) (channels (bottom0 s))
            (height (bottom1 s)) (width (bottom1 s)) ->
  data_mem (top0 s) = Some (old :: top) ->
  exists loss,
    Forward_cpu_display Window namedWindow show_image lp s w
    = Ok (set_top0 s (set_data (top0 s) (loss :: top)), w).
Proof.
  intros Hv Hshape Hp Ht HW Hfit Htop.
  rewrite (Forward_cpu_display_unset lp s w Hv).
  destruct (Forward_cpu_completes s p t gp gt top old Hshape Hp Ht HW Hfit Htop)
    as [loss E].
  exists loss. rewrite E. reflexivity.
Qed.

End ForwardDisplayFacts.

(** *** What the images hold after a pass *)

Lemma NoDup_flat_map {A B : Type} (f : A -> list B) (l : list A) :
  NoDup l -> (forall x, In x l -> NoDup (f x)) ->
  (forall x y z, In x l -> In y l -> In z (f x) -> In z (f y) -> x = y) ->
  NoDup (flat_map f l).
Proof.
  induction 1 as [| x l Hx Hl IH]; intros Hf Hdisj; simpl.
  - constructor.
  - apply NoDup_app.
    + apply Hf. left. reflexivity.
    + apply IH.
      * intros y Hy. apply Hf. right. exact Hy.
      * intros y1 y2 z H1 H2. apply Hdisj; right; assumption.
    + intros z Hz Hin. apply in_flat_map in Hin.
      destruct Hin as (y & Hy & Hzy).
      apply Hx.
      rewrite (Hdisj x y z (or_introl eq_refl) (or_intror Hy) Hz Hzy).
      exact Hy.
Qed.

Lemma Zrange_NoDup (n : Z) : NoDup (Zrange n).
Proof.
  unfold Zrange. apply NoDup_map_NoDup_ForallPairs.
  - intros x y _ _. apply Nat2Z.inj.
  - apply seq_NoDup.
Qed.

Lemma image_indices_NoDup (C H W : Z) : NoDup (image_indices C H W).
Proof.
  unfold image_indices.
  apply NoDup_flat_map; [apply Zrange_NoDup | |].
  - intros c _. apply NoDup_flat_map; [apply Zrange_NoDup | |].
    + intros i _. apply NoDup_map_NoDup_ForallPairs; [| apply Zrange_NoDup].
      intros x y _ _ E. injection E as ->. reflexivity.
    + intros i1 i2 z _ _ H1 H2.
      apply in_map_iff in H1, H2.
      destruct H1 as (j1 & <- & _), H2 as (j2 & E & _).
      injection E as -> _. reflexivity.
  - intros c1 c2 z _ _ H1 H2.
    apply in_flat_map in H1, H2.
    destruct H1 as (i1 & _ & H1), H2 as (i2 & _ & H2).
    apply in_map_iff in H1, H2.
    destruct H1 as (j1 & <- & _), H2 as (j2 & E & _).
    injection E as -> _ _. reflexivity.
Qed.

Lemma foldM_preserve {A B : Type} (Inv Q : A -> Prop) (f : A -> B -> result A)
    (l : list B) :
  (forall a b r, In b l -> Inv a -> f a b = Ok r -> Inv r) ->
  (forall a b r, In b l -> Inv a -> f a b = Ok r -> Q a -> Q r) ->
  forall a r, Inv a -> Q a -> foldM f l a = Ok r -> Q r.
Proof.
  induction l as [| b l IH]; intros Hinv Hq a r Ha Qa E; simpl in E.
  - injection E as <-. exact Qa.
  - apply bind_Ok_inv in E. destruct E as (a1 & E1 & E).
    apply (IH (fun a' b' r' Hb' => Hinv a' b' r' (or_intror Hb'))
              (fun a' b' r' Hb' => Hq a' b' r' (or_intror Hb'))
              a1 r); [| | exact E].
    + apply (Hinv a b a1 (or_introl eq_refl) Ha E1).
    + apply (Hq a b a1 (or_introl eq_refl) Ha E1 Qa).
Qed.

(** A property each step establishes for its own element and no other step
    destroys holds for every element once the fold is over. *)
Lemma foldM_establish {A B : Type} (Inv : A -> Prop) (P : A -> B -> Prop)
    (f : A -> B -> result A) (l : list B) :
  NoDup l ->
  (forall a b r, In b l -> Inv a -> f a b = Ok r -> Inv r /\ P r b) ->
  (forall a b b' r, In b l -> In b' l -> b <> b' -> Inv a ->
     f a b' = Ok r -> P a b -> P r b) ->
  forall a r, Inv a -> foldM f l a = Ok r -> forall b, In b l -> P r b.
Proof.
  induction 1 as [| b0 l Hb0 Hl IH]; intros Hest Hkeep a r Ha E b Hin.
  - contradiction Hin.
  - simpl in E. apply bind_Ok_inv in E. destruct E as (a1 & E1 & E).
    destruct (Hest a b0 a1 (or_introl eq_refl) Ha E1) as [Ha1 Pb0].
    destruct Hin as [<- | Hin].
    + apply (foldM_preserve Inv (fun a' => P a' b0) f l) with (a := a1);
        try assumption.
      * intros a' b' r' Hb' Ha' E'.
        apply (Hest a' b' r' (or_intror Hb') Ha' E').
      * intros a' b' r' Hb' Ha' E' HP.
        apply (Hkeep a' b0 b' r'); try assumption.
        -- left. reflexivity.
        -- right. exact Hb'.
        -- intros ->. contradiction.
    + apply (IH (fun a' b' r' Hb' => Hest a' b' r' (or_intror Hb'))
                (fun a' b1 b2 r' H1 H2 => Hkeep a' b1 b2 r' (or_intror H1)
                                            (or_intror H2))
                a1 r Ha1 E b Hin).
Qed.

Lemma read_write_same {A : Type} (p p' : list A) (k : Z) (x : A) :
  write p k x = Ok p' -> read p' k = Ok x.
Proof.
  unfold write.
  destruct ((0 <=? k) && (k <? Z.of_nat (length p))) eqn:E; [| discriminate].
  intros H. injection H as <-.
  apply andb_true_iff in E. destruct E as [E0 E1].
  apply Z.leb_le in E0. apply Z.ltb_lt in E1.
  apply read_nth. split; [exact E0 |].
  assert (Hlt : (Z.to_nat k < length p)%nat) by lia.
  clear E0 E1. revert Hlt. generalize (Z.to_nat k) as n.
  induction p as [| y p IH]; intros [| n] Hlt; simpl in *; try lia.
  - reflexivity.
  - apply IH. lia.
Qed.

Lemma read_write_other {A : Type} (p p' : list A) (k o : Z) (x : A) :
  write p k x = Ok p' -> o <> k -> read p' o = read p o.
Proof.
  unfold write.
  destruct ((0 <=? k) && (k <? Z.of_nat (length p))) eqn:E; [| discriminate].
  intros H Hne. injection H as <-.
  apply andb_true_iff in E. destruct E as [E0 _]. apply Z.leb_le in E0.
  apply read_set_nth_other; assumption.
Qed.

Section DisplayContents.

Context {Dtype : Type} {SD : Scalar Dtype}.

Lemma Mat_at_read_same (m m' : Mat cfloat) (r c : Z) (x : cfloat) :
  Mat_at m r c x = Ok m' -> read (elems m') (r * cols m + c) = Ok x.
Proof.
  unfold Mat_at. intros E.
  apply bind_Ok_inv in E. destruct E as (e & Ew & E).
  injection E as <-. simpl. apply (read_write_same _ _ _ _ Ew).
Qed.

Lemma Mat_at_read_other (m m' : Mat cfloat) (r c o : Z) (x : cfloat) :
  Mat_at m r c x = Ok m' -> o <> r * cols m + c ->
  read (elems m') o = read (elems m) o.
Proof.
  unfold Mat_at. intros E Hne.
  apply bind_Ok_inv in E. destruct E as (e & Ew & E).
  injection E as <-. simpl. apply (read_write_other _ _ _ _ _ Ew Hne).
Qed.

(** X20: on a square heatmap, once the image pass with visualize set has
    completed, the three images hold the visualised channel transposed: for
    every pixel (row i, column j), the prediction, the target and their
    squared difference are at row j and column i of their image. *)
Theorem display_square_transposed (vc : Z) (pred gt : list Dtype)
    (C H sz_img sz_ch n : Z) (loss : Dtype) (imgs : Images cfloat)
    (r : Dtype * Images cfloat) :
  images_of_size H H imgs ->
  image_pass_display true vc pred gt C H H sz_img sz_ch n (loss, imgs) = Ok r ->
  0 <= vc < C ->
  forall i j, 0 <= i < H -> 0 <= j < H ->
  exists k x z,
    image_idx sz_img sz_ch H n vc i j = Ok k /\
    read pred k = Ok x /\ read gt k = Ok z /\
    read (elems (bottom_img (snd r))) (j * H + i) = Ok (to_float x) /\
    read (elems (gt_img (snd r))) (j * H + i) = Ok (to_float z) /\
    read (elems (diff_img (snd r))) (j * H + i)
      = Ok (fmul (fsub (to_float x) (to_float z))
                 (fsub (to_float x) (to_float z))).
Proof.
  intros Hsize E Hvc i j Hi Hj.
  rewrite image_pass_display_indices in E.
  assert (Hshows : shows pred gt sz_img sz_ch H n vc r (vc, i, j)).
  { apply (foldM_establish (fun st => images_of_size H H (snd st))
             (shows pred gt sz_img sz_ch H n vc)
             (fun st '(c, i, j) =>
                pixel_loss_display true vc pred gt sz_img sz_ch H n c i j st)
             (image_indices C H H)) with (a := (loss, imgs));
      [apply image_indices_NoDup | | | exact Hsize | exact E
       | apply In_image_indices; lia].
    - (* each step shows its own pixel *)
      intros [l0 im0] [[c0 i0] j0] r0 _ Hinv Er.
      split; [apply (pixel_loss_display_size _ _ _ _ _ _ _ _ _ _ _ _ _ _ _
                       Hinv Er) |].
      simpl in Hinv. destruct Hinv as (C1 & C2 & C3 & _).
      unfold shows. intros ->.
      unfold pixel_loss_display in Er.
      apply bind_Ok_inv in Er. destruct Er as (k & Ek & Er).
      apply bind_Ok_inv in Er. destruct Er as (x & Ex & Er).
      apply bind_Ok_inv in Er. destruct Er as (z & Ez & Er).
      rewrite Z.eqb_refl in Er. simpl in Er.
      apply bind_Ok_inv in Er. destruct Er as (b & Eb & Er).
      apply bind_Ok_inv in Er. destruct Er as (t & Et & Er).
      apply bind_Ok_inv in Er. destruct Er as (d & Ed & Er).
      injection Er as <-. simpl.
      exists k, x, z. repeat split; try assumption.
      + rewrite <- C1. apply (Mat_at_read_same _ _ _ _ _ Eb).
      + rewrite <- C2. apply (Mat_at_read_same _ _ _ _ _ Et).
      + rewrite <- C3. apply (Mat_at_read_same _ _ _ _ _ Ed).
    - (* the other steps leave it *)
      intros [l0 im0] [[c1 i1] j1] [[c2 i2] j2] r0 H1 H2 Hne Hinv Er Hs.
      apply In_image_indices in H1, H2.
      simpl in Hinv. destruct Hinv as (C1 & C2 & C3 & _).
      unfold shows in *. intros Ec. specialize (Hs Ec).
      destruct Hs as (k & x & z & Ek & Ex & Ez & Rb & Rt & Rd).
      exists k, x, z. repeat split; try assumption.
      all: unfold pixel_loss_display in Er.
      all: apply bind_Ok_inv in Er; destruct Er as (k2 & Ek2 & Er).
      all: apply bind_Ok_inv in Er; destruct Er as (x2 & Ex2 & Er).
      all: apply bind_Ok_inv in Er; destruct Er as (z2 & Ez2 & Er).
      all: destruct (Z.eqb_spec c2 vc) as [Ec2 | Nc2]; simpl in Er;
        [| injection Er as <-; simpl; assumption].
      all: apply bind_Ok_inv in Er; destruct Er as (b & Eb & Er).
      all: apply bind_Ok_inv in Er; destruct Er as (t & Et & Er).
      all: apply bind_Ok_inv in Er; destruct Er as (d & Ed & Er).
      all: injection Er as <-; simpl.
      all: assert (Hpos : j1 * H + i1 <> j2 * H + i2)
        by (intros Epos; apply Hne;
            assert (j1 = j2) by nia; assert (i1 = i2) by nia;
            congruence).
      + rewrite (Mat_at_read_other _ _ _ _ _ _ Eb); [exact Rb |].
        rewrite C1. exact Hpos.
      + rewrite (Mat_at_read_other _ _ _ _ _ _ Et); [exact Rt |].
        rewrite C2. exact Hpos.
      + rewrite (Mat_at_read_other _ _ _ _ _ _ Ed); [exact Rd |].
        rewrite C3. exact Hpos. }
  unfold shows in Hshows. apply Hshows. reflexivity.
Qed.

End DisplayContents.

(** ** The conversion loop of VisualizeBottom *)

Lemma agrees_foldM_unchanged {A B : Type} (f : A -> B -> result A)
    (l : list B) :
  (forall a b, In b l -> agrees (f a b) (Ok a)) ->
  forall a, agrees (foldM f l a) (Ok a).
Proof.
  induction l as [| b l IH]; intros Hf a; simpl.
  - right. reflexivity.
  - destruct (Hf a b (or_introl eq_refl)) as [-> | ->]; simpl.
    + left. reflexivity.
    + apply IH. intros a0 b0 Hin. apply Hf. right. exact Hin.
Qed.

(** A fold whose steps succeed under an invariant they keep completes. *)
Lemma foldM_succeeds_inv {A B : Type} (Inv : A -> Prop)
    (f : A -> B -> result A) (l : list B) :
  (forall a b, In b l -> Inv a -> exists a', f a b = Ok a' /\ Inv a') ->
  forall a, Inv a -> exists r, foldM f l a = Ok r.
Proof.
  induction l as [| b l IH]; intros Hf a Ha; simpl.
  - exists a. reflexivity.
  - destruct (Hf a b (or_introl eq_refl) Ha) as (a' & -> & Ha'). simpl.
    apply IH; [| exact Ha'].
    intros a0 b0 Hin. apply Hf. right. exact Hin.
Qed.

(** Reading an RGB image after a store. *)
Lemma Mat_at3_read_same {F : Type} (m m' : Mat F) (r c ch : Z) (x : F) :
  Mat_at3 m r c ch x = Ok m' ->
  read (elems m') ((r * cols m + c) * 3 + ch) = Ok x.
Proof.
  unfold Mat_at3. intros E.
  apply bind_Ok_inv in E. destruct E as (e & Ew & E).
  injection E as <-. simpl. apply (read_write_same _ _ _ _ Ew).
Qed.

Lemma Mat_at3_read_other {F : Type} (m m' : Mat F) (r c ch o : Z) (x : F) :
  Mat_at3 m r c ch x = Ok m' -> o <> (r * cols m + c) * 3 + ch ->
  read (elems m') o = read (elems m) o.
Proof.
  unfold Mat_at3. intros E Hne.
  apply bind_Ok_inv in E. destruct E as (e & Ew & E).
  injection E as <-. simpl. apply (read_write_other _ _ _ _ _ Ew Hne).
Qed.

Section BottomFacts.

Context {Dtype : Type} {SD : Scalar Dtype} {DS : DisplayScalar Dtype}.

Lemma VisualizeBottom_convert_indices (vb : Blob Dtype) (n vc : Z) :
  VisualizeBottom_convert vb n vc =
  foldM (fun img '(c, i, j) =>
           VisualizeBottom_pixel vb (channels vb =? 3) n vc c i j img)
        (image_indices (channels vb) (height vb) (width vb))
        (if channels vb =? 3
         then Mat_zeros3 (float_of_int 0) (height vb) (width vb)
         else Mat_zeros (float_of_int 0) (height vb) (width vb)).
Proof.
  unfold VisualizeBottom_convert, for_loop, image_indices.
  rewrite foldM_flat_map. apply foldM_ext. intros a c.
  rewrite foldM_flat_map. apply foldM_ext. intros a0 i.
  rewrite foldM_map. reflexivity.
Qed.

Lemma VisualizeBottom_image_idx_cases (W H C n c i j : Z) :
  VisualizeBottom_image_idx W H C n c i j = Err IntOverflow \/
  exists k, VisualizeBottom_image_idx W H C n c i j = Ok k.
Proof.
  unfold VisualizeBottom_image_idx, int_mul, int_add.
  repeat match goal with
         | |- context [int_of ?z] =>
             destruct (int_of_cases z) as [-> | ->]; simpl;
             [left; reflexivity |]
         end.
  right. eexists. reflexivity.
Qed.

(** X22: for a blob that is not drawn as RGB and a visualize_channel that is
    none of its channels, the conversion reads nothing from the blob and
    draws nothing: unless an int overflows in the offsets, it returns the
    image of zeros. *)
Theorem VisualizeBottom_no_such_channel (vb : Blob Dtype) (n vc : Z) :
  channels vb <> 3 -> vc < 0 \/ channels vb <= vc ->
  VisualizeBottom_convert vb n vc = Err IntOverflow \/
  VisualizeBottom_convert vb n vc
  = Ok (Mat_zeros (float_of_int 0) (height vb) (width vb)).
Proof.
  intros HC Hvc. rewrite VisualizeBottom_convert_indices.
  replace (channels vb =? 3) with false by (symmetry; apply Z.eqb_neq; exact HC).
  apply agrees_foldM_unchanged. intros img [[c i] j] Hin.
  apply In_image_indices in Hin. destruct Hin as (Hc & _ & _).
  unfold VisualizeBottom_pixel.
  destruct (VisualizeBottom_image_idx_cases (width vb) (height vb)
              (channels vb) n c i j) as [-> | [k ->]]; simpl.
  - left. reflexivity.
  - replace (c =? vc) with false by (symmetry; apply Z.eqb_neq; lia).
    right. reflexivity.
Qed.

Lemma Mat_at3_size (m m' : Mat cfloat) (r c ch : Z) (v : cfloat) :
  Mat_at3 m r c ch v = Ok m' ->
  cols m' = cols m /\ length (elems m') = length (elems m).
Proof.
  unfold Mat_at3. intros E.
  apply bind_Ok_inv in E. destruct E as (e & Ew & E).
  injection E as <-. simpl. split; [reflexivity |].
  apply (write_length _ _ _ _ Ew).
Qed.

(** One step keeps the number of columns and the size of the buffer. *)
Lemma VisualizeBottom_pixel_size (vb : Blob Dtype) (rgb : bool)
    (n vc c i j : Z) (img img' : Mat cfloat) :
  VisualizeBottom_pixel vb rgb n vc c i j img = Ok img' ->
  cols img' = cols img /\ length (elems img') = length (elems img).
Proof.
  unfold VisualizeBottom_pixel. intros E.
  apply bind_Ok_inv in E. destruct E as (k & _ & E).
  destruct (rgb && (c <? 3)).
  - apply bind_Ok_inv in E. destruct E as (data & _ & E).
    apply bind_Ok_inv in E. destruct E as (x & _ & E).
    apply (Mat_at3_size _ _ _ _ _ _ E).
  - destruct (c =? vc).
    + apply bind_Ok_inv in E. destruct E as (data & _ & E).
      apply bind_Ok_inv in E. destruct E as (x & _ & E).
      apply (Mat_at_size _ _ _ _ _ E).
    + injection E as <-. split; reflexivity.
Qed.

(** X23: for a blob with more columns than rows (and at least one row),
    drawn as RGB or with visualize_channel among its channels, the
    conversion never completes: the pixel (row 0, column W-1) is stored at
    row W-1 of an image of H rows, past the end of its buffer. *)
Theorem VisualizeBottom_wide_out_of_bounds (vb : Blob Dtype) (n vc : Z) :
  0 < height vb < width vb ->
  channels vb = 3 \/ 0 <= vc < channels vb ->
  exists e, VisualizeBottom_convert vb n vc = Err e.
Proof.
  intros HW Hsel. rewrite VisualizeBottom_convert_indices.
  set (H := height vb) in *. set (W := width vb) in *.
  set (C := channels vb) in *.
  set (size := if C =? 3 then H * W * 3 else H * W).
  set (c0 := if C =? 3 then 0 else vc).
  assert (Hc0 : 0 <= c0 < C).
  { unfold c0. destruct (Z.eqb_spec C 3); [lia |].
    destruct Hsel as [E | Hv]; [contradiction | exact Hv]. }
  apply (foldM_fails_inv
           (fun img => cols img = W /\ Z.of_nat (length (elems img)) = size)
           (fun img '(c, i, j) =>
              VisualizeBottom_pixel vb (C =? 3) n vc c i j img)
           (image_indices C H W) (c0, 0, W - 1)).
  - intros img [[c i] j] img' [Hcols Hlen] E.
    apply VisualizeBottom_pixel_size in E. destruct E as [-> ->]. auto.
  - apply In_image_indices. lia.
  - intros img [Hcols Hlen]. unfold VisualizeBottom_pixel.
    fold W H C.
    destruct (VisualizeBottom_image_idx W H C n c0 0 (W - 1)) as [k | e];
      simpl; [| eexists; reflexivity].
    unfold c0, size in *.
    destruct (Z.eqb_spec C 3) as [E3 | N3]; simpl.
    + destruct (cpu_data vb) as [data | e]; simpl; [| eexists; reflexivity].
      destruct (read data k) as [x | e]; simpl; [| eexists; reflexivity].
      unfold Mat_at3. rewrite write_past_end; [eexists; reflexivity |].
      rewrite Hcols, Hlen. nia.
    + rewrite Z.eqb_refl.
      destruct (cpu_data vb) as [data | e]; simpl; [| eexists; reflexivity].
      destruct (read data k) as [x | e]; simpl; [| eexists; reflexivity].
      unfold Mat_at. rewrite write_past_end; [eexists; reflexivity |].
      rewrite Hcols, Hlen. nia.
  - unfold size. destruct (C =? 3); simpl; rewrite repeat_length;
      split; try reflexivity; nia.
Qed.

(** The offset of line 259 when no int overflows. *)
Lemma VisualizeBottom_image_idx_fits (W H C n c i j : Z) :
  0 <= n -> 0 <= c < C -> 0 <= i < H -> 0 <= j < W -> H <= W ->
  (n + 1) * W * H * C <= INT_MAX ->
  VisualizeBottom_image_idx W H C n c i j
  = Ok (n * W * H * C + c * W * H + i * H + j).
Proof.
  intros Hn Hc Hi Hj HW Hfit.
  assert (A0 : 0 <= W * H) by nia.
  assert (A1 : 0 <= n * W) by nia.
  assert (A2 : n * W <= n * W * H) by nia.
  assert (A3 : 0 <= n * W * H) by nia.
  assert (A4 : n * W * H <= n * W * H * C) by nia.
  assert (A5 : 0 <= c * W) by nia.
  assert (A6 : c * W <= c * W * H) by nia.
  assert (A7 : c * W * H <= (C - 1) * (W * H)).
  { replace (c * W * H) with (c * (W * H)) by ring.
    apply Z.mul_le_mono_nonneg_r; lia. }
  assert (A8 : 0 <= i * H <= (H - 1) * W) by nia.
  assert (A9 : (n + 1) * W * H * C
               = n * W * H * C + (C - 1) * (W * H) + (H - 1) * W + W) by ring.
  unfold VisualizeBottom_image_idx, int_mul, int_add.
  rewrite (int_of_fits (n * W)) by (apply in_int_bounds; lia). cbn [bind].
  rewrite (int_of_fits (n * W * H)) by (apply in_int_bounds; lia). cbn [bind].
  rewrite (int_of_fits (n * W * H * C)) by (apply in_int_bounds; lia).
  cbn [bind].
  rewrite (int_of_fits (c * W)) by (apply in_int_bounds; lia). cbn [bind].
  rewrite (int_of_fits (c * W * H)) by (apply in_int_bounds; lia). cbn [bind].
  rewrite int_of_fits by (apply in_int_bounds; lia). cbn [bind].
  rewrite (int_of_fits (i * H)) by (apply in_int_bounds; lia). cbn [bind].
  rewrite int_of_fits by (apply in_int_bounds; lia). cbn [bind].
  rewrite int_of_fits by (apply in_int_bounds; lia).
  reflexivity.
Qed.


(** One step on a square blob of three channels: the value is read at the
    offset of line 259 and stored, scaled, at row j, column i, channel c. *)
Lemma VisualizeBottom_pixel_rgb (vb : Blob Dtype) (data : list Dtype)
    (n vc c i j : Z) (img : Mat cfloat) :
  channels vb = 3 -> height vb = width vb ->
  0 <= n < num vb -> count vb <= INT_MAX ->
  data_mem vb = Some data -> Z.of_nat (length data) = count vb ->
  0 <= c < 3 -> 0 <= i < height vb -> 0 <= j < width vb ->
  exists x,
    read data (n * width vb * height vb * 3 + c * width vb * height vb
               + i * height vb + j) = Ok x /\
    VisualizeBottom_pixel vb true n vc c i j img
    = Mat_at3 img j i c
        (fdiv (fmul (float_of_int 4) (to_float x)) (float_of_int 255)).
Proof.
  intros HC Hsq Hn Hfit Hdata Hlen Hc Hi Hj.
  unfold count in *. rewrite HC in *.
  set (W := width vb) in *. set (H := height vb) in *.
  set (N := num vb) in *.
  assert (A0 : 0 <= W * H * 3) by nia.
  assert (A1 : (n + 1) * W * H * 3 <= N * 3 * H * W).
  { replace ((n + 1) * W * H * 3) with ((n + 1) * (W * H * 3)) by ring.
    replace (N * 3 * H * W) with (N * (W * H * 3)) by ring.
    apply Z.mul_le_mono_nonneg_r; lia. }
  assert (A2 : 0 <= n * W * H * 3) by nia.
  assert (A3 : 0 <= c * W * H <= 2 * (W * H)) by nia.
  assert (A4 : 0 <= i * H <= (H - 1) * W) by nia.
  assert (A5 : (n + 1) * W * H * 3
               = n * W * H * 3 + 2 * (W * H) + (H - 1) * W + W) by ring.
  destruct (read_in_range data
              (n * W * H * 3 + c * W * H + i * H + j)) as [x Ex];
    [rewrite Hlen; lia |].
  exists x. split; [exact Ex |].
  unfold VisualizeBottom_pixel. rewrite HC. fold W H.
  rewrite (VisualizeBottom_image_idx_fits W H 3 n c i j)
    by (try lia; fold W H).
  cbn [bind].
  replace (c <? 3) with true by (symmetry; apply Z.ltb_lt; lia).
  cbn [andb]. unfold cpu_data. rewrite Hdata. cbn [buffer bind].
  rewrite Ex. reflexivity.
Qed.

(** X21: a blob of three channels is drawn as RGB, and the conversion does
    not depend on visualize_channel: the branch for a single channel is never
    taken.  On a square blob (height = width) whose storage holds count
    elements, with count within int and the image index within the batch,
    the conversion completes and every channel is copied: for each channel
    c < 3, row i and column j, the value read at offset
    idx_img*width*height*3 + c*width*height + i*height + j, cast to float,
    multiplied by 4 and divided by 255, is element c of the pixel at row j
    and column i of the image. *)
Theorem VisualizeBottom_rgb_ignores_channel (vb : Blob Dtype) (n vc1 vc2 : Z) :
  channels vb = 3 ->
  VisualizeBottom_convert vb n vc1 = VisualizeBottom_convert vb n vc2 /\
  (forall data : list Dtype,
     height vb = width vb -> 0 <= n < num vb -> count vb <= INT_MAX ->
     data_mem vb = Some data -> Z.of_nat (length data) = count vb ->
     exists img,
       VisualizeBottom_convert vb n vc1 = Ok img /\
       forall c i j,
         0 <= c < 3 -> 0 <= i < height vb -> 0 <= j < width vb ->
         exists x,
           read data (n * width vb * height vb * 3 + c * width vb * height vb
                      + i * height vb + j) = Ok x /\
           read (elems img) ((j * width vb + i) * 3 + c)
           = Ok (fdiv (fmul (float_of_int 4) (to_float x))
                      (float_of_int 255))).
Proof.
  intros HC. split.
  - rewrite !VisualizeBottom_convert_indices.
    apply foldM_ext_in. intros img [[c i] j] Hin.
    apply In_image_indices in Hin. destruct Hin as (Hc & _ & _).
    unfold VisualizeBottom_pixel. rewrite HC. simpl.
    replace (c <? 3) with true by (symmetry; apply Z.ltb_lt; lia).
    reflexivity.
  - intros data Hsq Hn Hfit Hdata Hlen.
    rewrite VisualizeBottom_convert_indices. rewrite HC. cbn [Z.eqb Pos.eqb].
    set (W := width vb) in *. set (H := height vb) in *.
    set (Inv := fun img : Mat cfloat =>
                  cols img = W /\ Z.of_nat (length (elems img)) = H * W * 3).
    set (f := fun img '(c, i, j) =>
                VisualizeBottom_pixel vb true n vc1 c i j img).
    assert (Hstep : forall img c i j,
              0 <= c < 3 -> 0 <= i < H -> 0 <= j < W ->
              exists x,
                read data (n * W * H * 3 + c * W * H + i * H + j) = Ok x /\
                f img (c, i, j)
                = Mat_at3 img j i c
                    (fdiv (fmul (float_of_int 4) (to_float x))
                          (float_of_int 255))).
    { intros img c i j Hc Hi Hj.
      apply (VisualizeBottom_pixel_rgb vb data n vc1 c i j img);
        assumption. }
    assert (Hinv0 : Inv (Mat_zeros3 (float_of_int 0) H W)).
    { unfold Inv. simpl. rewrite repeat_length. split; [reflexivity |].
      assert (0 <= H * W * 3) by nia. lia. }
    destruct (foldM_succeeds_inv Inv f (image_indices 3 H W)) with
      (a := Mat_zeros3 (float_of_int 0) H W) as [img Eimg];
      [| exact Hinv0 |].
    { intros img [[c i] j] Hin [Hcols Hl].
      apply In_image_indices in Hin. destruct Hin as (Hc & Hi & Hj).
      destruct (Hstep img c i j Hc Hi Hj) as (x & _ & ->).
      unfold Mat_at3.
      destruct (write_in_range (elems img) ((j * cols img + i) * 3 + c)
                  (fdiv (fmul (float_of_int 4) (to_float x))
                        (float_of_int 255))) as [e Ee].
      - rewrite Hcols, Hl. nia.
      - rewrite Ee. cbn [bind]. eexists. split; [reflexivity |].
        unfold Inv. simpl. split; [exact Hcols |].
        rewrite (write_length _ _ _ _ Ee). exact Hl. }
    exists img. split; [exact Eimg |].
    intros c i j Hc Hi Hj.
    apply (foldM_establish Inv
             (fun img '(c, i, j) =>
                exists x,
                  read data (n * W * H * 3 + c * W * H + i * H + j) = Ok x /\
                  read (elems img) ((j * W + i) * 3 + c)
                  = Ok (fdiv (fmul (float_of_int 4) (to_float x))
                             (float_of_int 255)))
             f (image_indices 3 H W)) with
      (a := Mat_zeros3 (float_of_int 0) H W) (r := img) (b := (c, i, j));
      [apply image_indices_NoDup | | | exact Hinv0 | exact Eimg
       | apply In_image_indices; lia].
    + intros a [[c0 i0] j0] r Hin [Hcols Hl] Er.
      apply In_image_indices in Hin. destruct Hin as (Hc0 & Hi0 & Hj0).
      destruct (Hstep a c0 i0 j0 Hc0 Hi0 Hj0) as (x & Ex & Ef).
      rewrite Ef in Er. split.
      * destruct (Mat_at3_size _ _ _ _ _ _ Er) as [E1 E2].
        unfold Inv. rewrite E1, E2. auto.
      * exists x. split; [exact Ex |].
        rewrite <- Hcols. apply (Mat_at3_read_same _ _ _ _ _ _ Er).
    + intros a [[c1 i1] j1] [[c2 i2] j2] r H1 H2 Hne [Hcols Hl] Er
             (x & Ex & Rx).
      apply In_image_indices in H1, H2.
      destruct (Hstep a c2 i2 j2) as (x2 & _ & Ef); try tauto.
      rewrite Ef in Er.
      exists x. split; [exact Ex |].
      rewrite (Mat_at3_read_other _ _ _ _ _ _ _ Er); [exact Rx |].
      rewrite Hcols. intros Epos. apply Hne.
      assert (Ec : c1 = c2) by lia.
      assert (Eu : j1 * W + i1 = j2 * W + i2) by lia.
      assert (Ej : j1 = j2) by nia.
      assert (Ei : i1 = i2) by nia.
      congruence.
Qed.

End BottomFacts.

(** ** The further properties at concrete inputs *)

Example ready_scenario : ready scenario_float = scenario_reshaped.
Proof. reflexivity. Qed.

Lemma forward_square_mean_witness :
  reported_loss (@Forward_cpu _ Scalar_float scenario_reshaped)
  = Ok (mean_of_squared_differences 24 128
          (map f32 [1; 2; 3; 4]) (map f32 [1; 1; 1; 1]) 4) /\
  mean_of_squared_differences 24 128
    (map f32 [1; 2; 3; 4]) (map f32 [1; 1; 1; 1]) 4
  = SFdiv 24 128 (f32 7) (f32 2) /\
  reported_loss (@Forward_cpu _ Scalar_double
                   (set_top0 (fresh_layer (tensor 1 1 2 2 (map f64 [1; 2; 3; 4]))
                                          (tensor 1 1 2 2 (map f64 [1; 1; 1; 1])))
                             (top0 narrowed_pair)))
  = Ok (SFdiv 53 1024
          (@raw_sum_of_squared_diffs _ Scalar_double
             (map f64 [1; 2; 3; 4]) (map f64 [1; 1; 1; 1]) (f64 0))
          (f64 4)).
Proof.
  split; [| split].
  - apply (proj1 (proj2 forward_square_mean) scenario_reshaped
             (map f32 [1; 2; 3; 4]) (map f32 [1; 1; 1; 1])
             (repeat (S754_zero false) 4) (repeat (S754_zero false) 4)
             [] (S754_zero false)).
    + repeat split; reflexivity.
    + repeat split; reflexivity.
    + repeat split; reflexivity.
    + reflexivity.
    + unfold sizes_fit, INT_MAX. simpl. lia.
    + reflexivity.
  - vm_compute. reflexivity.
  - apply (proj1 forward_square_mean _ Scalar_double
             (set_top0 (fresh_layer (tensor 1 1 2 2 (map f64 [1; 2; 3; 4]))
                                    (tensor 1 1 2 2 (map f64 [1; 1; 1; 1])))
                       (top0 narrowed_pair))
             (map f64 [1; 2; 3; 4]) (map f64 [1; 1; 1; 1])
             (repeat (S754_zero false) 4) (repeat (S754_zero false) 4)
             [] (S754_zero false)).
    + repeat split; reflexivity.
    + repeat split; reflexivity.
    + repeat split; reflexivity.
    + reflexivity.
    + unfold sizes_fit, INT_MAX. simpl. lia.
    + reflexivity.
Defined.

Lemma forward_tall_out_of_bounds_witness :
  @Forward_cpu _ Scalar_float tall_pair = Err OutOfBounds \/
  @Forward_cpu _ Scalar_float tall_pair = Err IntOverflow.
Proof.
  apply (@forward_tall_out_of_bounds _ Scalar_float tall_pair
           (map f32 [1; 2]) (map f32 [1; 1])
           (repeat (S754_zero false) 2) (repeat (S754_zero false) 2)).
  - repeat split; reflexivity.
  - repeat split; reflexivity.
  - repeat split; reflexivity.
  - simpl. lia.
  - simpl. lia.
  - simpl. lia.
Defined.

Lemma forward_completes_witness :
  exists loss,
    @Forward_cpu_display _ Scalar_float Display_float unit
      (fun w => Ok w) (fun _ _ imgs w => Ok (imgs, w))
      no_weight (ready wide_pair) tt
    = Ok (set_top0 (ready wide_pair)
            (set_data (top0 (ready wide_pair)) (loss :: [])), tt).
Proof.
  apply (@forward_completes _ Scalar_float Display_float unit
           (fun w => Ok w) (fun _ _ imgs w => Ok (imgs, w))
           no_weight (ready wide_pair) tt
           (map f32 [0; 0; 0; 0; 0; 6]) (map f32 [0; 0; 0; 0; 0; 0])
           (repeat (S754_zero false) 6) (repeat (S754_zero false) 6)
           [] (S754_zero false)).
  - reflexivity.
  - repeat split; reflexivity.
  - repeat split; reflexivity.
  - repeat split; reflexivity.
  - simpl. lia.
  - unfold sizes_fit, INT_MAX. simpl. lia.
  - reflexivity.
Defined.

Lemma forward_reads_only_visited_witness :
  reported_loss
    (@Forward_cpu _ Scalar_float
       (set_bottom0 (ready wide_pair)
          (tensor 1 1 2 3 (map f32 [0; 0; 0; 0; 0; 9]))))
  = reported_loss (@Forward_cpu _ Scalar_float (ready wide_pair)).
Proof.
  apply (@forward_reads_only_visited _ Scalar_float _ (ready wide_pair)
           (map f32 [0; 0; 0; 0; 0; 9]) (map f32 [0; 0; 0; 0; 0; 0])
           (map f32 [0; 0; 0; 0; 0; 6]) (map f32 [0; 0; 0; 0; 0; 0]));
    try reflexivity.
  intros n c i j Hin. simpl in Hin.
  repeat (destruct Hin as [Hin | Hin];
          [injection Hin as <- <- <- <-; split; reflexivity |]).
  contradiction Hin.
Defined.

Lemma forward_wide_ignores_last_pixel_witness :
  reported_loss
    (@Forward_cpu _ Scalar_float
       (set_bottom0 (ready wide_pair)
          (set_data (bottom0 (ready wide_pair))
             (set_nth (map f32 [0; 0; 0; 0; 0; 6]) (Z.to_nat 5) (f32 9)))))
    = reported_loss (@Forward_cpu _ Scalar_float (ready wide_pair)) /\
  reported_loss
    (@Forward_cpu _ Scalar_float
       (set_bottom1 (ready wide_pair)
          (set_data (bottom1 (ready wide_pair))
             (set_nth (map f32 [0; 0; 0; 0; 0; 0]) (Z.to_nat 5) (f32 9)))))
    = reported_loss (@Forward_cpu _ Scalar_float (ready wide_pair)).
Proof.
  apply (@forward_wide_ignores_last_pixel _ Scalar_float (ready wide_pair)
           (map f32 [0; 0; 0; 0; 0; 6]) (map f32 [0; 0; 0; 0; 0; 0])
           0 (f32 9)).
  - reflexivity.
  - reflexivity.
  - simpl. lia.
  - lia.
Defined.

Lemma forward_backward_commute_witness :
  exists s1 s2 s12 : State spec_float,
    @Forward_cpu _ Scalar_float scenario_reshaped = Ok s1 /\
    @Backward_cpu _ Scalar_float scenario_reshaped = Ok s2 /\
    @Backward_cpu _ Scalar_float s1 = Ok s12 /\
    @Forward_cpu _ Scalar_float s2 = Ok s12.
Proof.
  eassert (EF : @Forward_cpu _ Scalar_float scenario_reshaped = Ok _)
    by (vm_compute; reflexivity).
  eassert (EB : @Backward_cpu _ Scalar_float scenario_reshaped = Ok _)
    by (vm_compute; reflexivity).
  destruct (@forward_backward_commute _ Scalar_float _ _ _ EF EB)
    as (s12 & H1 & H2).
  eexists. eexists. exists s12. repeat split; eassumption.
Defined.

Lemma Reshape_then_Backward_short_target_witness :
  (exists s1, @Reshape_after _ Scalar_float (@LossLayer_Reshape _ Scalar_float)
                two_against_one = Ok s1) /\
  bind (@Reshape_after _ Scalar_float (@LossLayer_Reshape _ Scalar_float)
          two_against_one) (@Backward_cpu _ Scalar_float)
  = Err OutOfBounds /\
  (forall y, data_mem (diff_ two_against_one) = Some y ->
             @Backward_cpu _ Scalar_float two_against_one = Err OutOfBounds).
Proof.
  apply (@Reshape_then_Backward_short_target _ Scalar_float
           (@LossLayer_Reshape _ Scalar_float) two_against_one
           (set_top0 two_against_one (@Blob_Reshape _ Scalar_float 1 1 1 1))
           (map f32 [3; 1; 5; 7]) (map f32 [1; 1])
           (repeat (S754_zero false) 4) (repeat (S754_zero false) 2)).
  - reflexivity.
  - reflexivity.
  - reflexivity.
  - repeat split; reflexivity.
  - repeat split; reflexivity.
  - reflexivity.
  - reflexivity.
  - reflexivity.
  - simpl. lia.
  - simpl. lia.
  - simpl. lia.
  - simpl. lia.
Defined.

Lemma forward_short_prediction_witness :
  @Forward_cpu _ Scalar_float one_against_two = Err OutOfBounds \/
  @Forward_cpu _ Scalar_float one_against_two = Err IntOverflow.
Proof.
  apply (@forward_short_prediction _ Scalar_float one_against_two
           (map f32 [3; 1]) (map f32 [1; 1; 5; 7])
           (repeat (S754_zero false) 2) (repeat (S754_zero false) 4)).
  - repeat split; reflexivity.
  - repeat split; reflexivity.
  - reflexivity.
  - reflexivity.
  - reflexivity.
  - simpl. lia.
  - simpl. lia.
  - simpl. lia.
  - simpl. lia.
Defined.

Lemma forward_ignores_extra_images_witness :
  reported_loss
    (@Forward_cpu _ Scalar_float
       (set_bottom0 (ready two_against_one)
          (set_data (bottom0 (ready two_against_one))
             (map f32 [3; 1] ++ map f32 [0; 0]))))
  = reported_loss (@Forward_cpu _ Scalar_float (ready two_against_one)).
Proof.
  apply (@forward_ignores_extra_images _ Scalar_float (ready two_against_one)
           (map f32 [3; 1]) (map f32 [5; 7]) (map f32 [0; 0]) (map f32 [1; 1])).
  - reflexivity.
  - reflexivity.
  - simpl. lia.
  - reflexivity.
Defined.

Lemma Backward_cpu_identical_tensors_witness :
  (exists s', @Backward_cpu _ Scalar_float (ready identical_pair) = Ok s' /\
     diff_mem (bottom0 s') = Some (repeat (S754_zero false) 4) /\
     diff_mem (bottom1 s') = Some (repeat (S754_zero false) 4)) /\
  (exists s', @Backward_cpu _ Scalar_double (ready identical_pair) = Ok s' /\
     diff_mem (bottom0 s') = Some (repeat (S754_zero false) 4) /\
     diff_mem (bottom1 s') = Some (repeat (S754_zero false) 4)).
Proof.
  apply (Backward_cpu_identical_tensors (ready identical_pair)
           (map f32 [1; 2; 3; 4])
           (repeat (S754_zero false) 4) (repeat (S754_zero false) 4)
           (repeat (S754_zero false) 4)).
  - repeat split; reflexivity.
  - repeat split; reflexivity.
  - repeat split; reflexivity.
  - reflexivity.
  - reflexivity.
  - repeat constructor.
Defined.

Lemma forward_loss_not_negative_witness :
  not_negative (SFdiv 24 128 (f32 7) (f32 2)).
Proof.
  apply (proj1 (forward_loss_not_negative scenario_reshaped
                  (SFdiv 24 128 (f32 7) (f32 2))
                  ltac:(simpl; lia) ltac:(simpl; lia)
                  ltac:(simpl; lia) ltac:(simpl; lia))).
  vm_compute. reflexivity.
Defined.

Lemma forward_identical_tensors_witness :
  S754_zero false = SFdiv 24 128 (S754_zero false) (f32 4) /\
  (S754_zero false = S754_zero false \/ S754_zero false = S754_nan).
Proof.
  apply (proj1 (forward_identical_tensors (ready identical_pair)
                  (map f32 [1; 2; 3; 4]) (S754_zero false)
                  eq_refl eq_refl
                  ltac:(simpl; lia) ltac:(simpl; lia)
                  ltac:(simpl; lia) ltac:(simpl; lia))).
  - repeat constructor.
  - vm_compute. reflexivity.
Defined.

Lemma training_step_square_witness :
  exists s',
    @training_step _ Scalar_float scenario_float = Ok s' /\
    reported_loss (Ok s')
      = Ok (mean_of_squared_differences 24 128
              (map f32 [1; 2; 3; 4]) (map f32 [1; 1; 1; 1])
              (count (bottom0 scenario_float))) /\
    data_mem (diff_ s')
      = Some (differences 24 128 (map f32 [1; 2; 3; 4])
                                 (map f32 [1; 1; 1; 1])) /\
    diff_mem (bottom0 s')
      = Some (differences 24 128 (map f32 [1; 2; 3; 4])
                                 (map f32 [1; 1; 1; 1])) /\
    diff_mem (bottom1 s')
      = Some (differences 24 128 (map f32 [1; 2; 3; 4])
                                 (map f32 [1; 1; 1; 1])).
Proof.
  apply (proj2 training_step_square scenario_float
           (map f32 [1; 2; 3; 4]) (map f32 [1; 1; 1; 1])
           (repeat (S754_zero false) 4) (repeat (S754_zero false) 4)).
  - repeat split; reflexivity.
  - repeat split; reflexivity.
  - repeat split; reflexivity.
  - reflexivity.
  - unfold sizes_fit, INT_MAX. simpl. lia.
Defined.

Lemma LayerSetUp_default_weight_witness :
  loss_weight (@LayerSetUp _ Scalar_float no_weight) = [f32 1] /\
  @LayerSetUp _ Scalar_float weight_five = weight_five.
Proof.
  split.
  - apply (proj1 (@LayerSetUp_default_weight _ Scalar_float no_weight)).
    reflexivity.
  - apply (proj1 (proj2 (@LayerSetUp_default_weight _ Scalar_float
                           weight_five))).
    discriminate.
Defined.

Lemma display_keeps_loss_witness :
  exists r,
    @image_pass_display _ Scalar_float true 0
      (map f32 [1; 2; 3; 4]) (map f32 [1; 1; 1; 1]) 1 2 2 4 4 0
      (f32 0, blank_images 2 2) = Ok r /\
    @image_pass _ Scalar_float
      (map f32 [1; 2; 3; 4]) (map f32 [1; 1; 1; 1]) 1 2 2 4 4 0 (f32 0)
    = Ok (fst r).
Proof.
  eexists. split.
  - vm_compute. reflexivity.
  - apply (proj2 (@display_keeps_loss _ Scalar_float true 0
                    (map f32 [1; 2; 3; 4]) (map f32 [1; 1; 1; 1])
                    1 2 2 4 4 0 (f32 0) (blank_images 2 2))).
    vm_compute. reflexivity.
Defined.

Lemma display_square_harmless_witness :
  bind (@image_pass_display _ Scalar_float true 0
          (map f32 [1; 2; 3; 4]) (map f32 [1; 1; 1; 1]) 1 2 2 4 4 0
          (f32 0, blank_images 2 2))
       (fun r => Ok (fst r))
  = @image_pass _ Scalar_float
      (map f32 [1; 2; 3; 4]) (map f32 [1; 1; 1; 1]) 1 2 2 4 4 0 (f32 0).
Proof.
  apply (@display_square_harmless _ Scalar_float true 0
           (map f32 [1; 2; 3; 4]) (map f32 [1; 1; 1; 1]) 1 2 4 4 0
           (f32 0) (blank_images 2 2)).
  repeat split; reflexivity.
Defined.

Lemma display_wide_out_of_bounds_witness :
  exists e,
    @image_pass_display _ Scalar_float true 0
      (map f32 [0; 0; 0; 0; 0; 6]) (map f32 [0; 0; 0; 0; 0; 0]) 1 2 3 6 6 0
      (f32 0, blank_images 2 3) = Err e.
Proof.
  apply (@display_wide_out_of_bounds _ Scalar_float 0
           (map f32 [0; 0; 0; 0; 0; 6]) (map f32 [0; 0; 0; 0; 0; 0])
           1 2 3 6 6 0 (f32 0) (blank_images 2 3)).
  - repeat split; reflexivity.
  - lia.
  - lia.
Defined.

Lemma display_square_transposed_witness :
  exists (r : spec_float * Images spec_float) k x z,
    @image_pass_display _ Scalar_float true 0
      (map f32 [1; 2; 3; 4]) (map f32 [1; 1; 1; 1]) 1 2 2 4 4 0
      (f32 0, blank_images 2 2) = Ok r /\
    @image_idx 4 4 2 0 0 0 1 = Ok k /\
    read (map f32 [1; 2; 3; 4]) k = Ok x /\
    read (map f32 [1; 1; 1; 1]) k = Ok z /\
    read (elems (bottom_img (snd r))) (1 * 2 + 0) = Ok x /\
    read (elems (gt_img (snd r))) (1 * 2 + 0) = Ok z /\
    read (elems (diff_img (snd r))) (1 * 2 + 0)
      = Ok (SFmul 24 128 (SFsub 24 128 x z) (SFsub 24 128 x z)).
Proof.
  eassert (E : @image_pass_display _ Scalar_float true 0
                 (map f32 [1; 2; 3; 4]) (map f32 [1; 1; 1; 1]) 1 2 2 4 4 0
                 (f32 0, blank_images 2 2) = Ok _)
    by (vm_compute; reflexivity).
  destruct (@display_square_transposed _ Scalar_float 0
              (map f32 [1; 2; 3; 4]) (map f32 [1; 1; 1; 1]) 1 2 4 4 0
              (f32 0) (blank_images 2 2) _
              ltac:(repeat split; reflexivity) E ltac:(lia)
              0 1 ltac:(lia) ltac:(lia))
    as (k & x & z & H).
  eexists. exists k, x, z. split; [exact E | exact H].
Defined.

Lemma VisualizeBottom_rgb_ignores_channel_witness :
  @VisualizeBottom_convert _ Scalar_float Display_float
    (tensor 1 3 1 1 (map f32 [255; 0; 51])) 0 0
  = @VisualizeBottom_convert _ Scalar_float Display_float
      (tensor 1 3 1 1 (map f32 [255; 0; 51])) 0 7 /\
  (exists img,
     @VisualizeBottom_convert _ Scalar_float Display_float
       (tensor 1 3 1 1 (map f32 [255; 0; 51])) 0 0 = Ok img /\
     forall c i j,
       0 <= c < 3 -> 0 <= i < 1 -> 0 <= j < 1 ->
       exists x,
         read (map f32 [255; 0; 51])
              (0 * 1 * 1 * 3 + c * 1 * 1 + i * 1 + j) = Ok x /\
         read (elems img) ((j * 1 + i) * 3 + c)
         = Ok (SFdiv 24 128 (SFmul 24 128 (f32 4) x) (f32 255))) /\
  @VisualizeBottom_convert _ Scalar_float Display_float
    (tensor 1 3 1 1 (map f32 [255; 0; 51])) 0 7
  = Ok {| rows := 1; cols := 1;
          elems := [f32 4; f32 0; SFdiv 24 128 (f32 204) (f32 255)] |}.
Proof.
  destruct (@VisualizeBottom_rgb_ignores_channel _ Scalar_float Display_float
              (tensor 1 3 1 1 (map f32 [255; 0; 51])) 0 0 7 eq_refl)
    as [E K].
  split; [exact E |]. split.
  - apply (K (map f32 [255; 0; 51])).
    + reflexivity.
    + simpl. lia.
    + unfold count, INT_MAX. simpl. lia.
    + reflexivity.
    + reflexivity.
  - vm_compute. reflexivity.
Defined.

Lemma VisualizeBottom_no_such_channel_witness :
  @VisualizeBottom_convert _ Scalar_float Display_float
    (tensor 1 1 2 2 (map f32 [1; 2; 3; 4])) 0 5 = Err IntOverflow \/
  @VisualizeBottom_convert _ Scalar_float Display_float
    (tensor 1 1 2 2 (map f32 [1; 2; 3; 4])) 0 5
  = Ok (Mat_zeros (f32 0) 2 2).
Proof.
  apply (@VisualizeBottom_no_such_channel _ Scalar_float Display_float
           (tensor 1 1 2 2 (map f32 [1; 2; 3; 4])) 0 5).
  - simpl. lia.
  - right. simpl. lia.
Defined.

Lemma VisualizeBottom_wide_out_of_bounds_witness :
  exists e,
    @VisualizeBottom_convert _ Scalar_float Display_float
      (tensor 1 1 2 3 (map f32 [0; 0; 0; 0; 0; 6])) 0 0 = Err e.
Proof.
  apply (@VisualizeBottom_wide_out_of_bounds _ Scalar_float Display_float
           (tensor 1 1 2 3 (map f32 [0; 0; 0; 0; 0; 6])) 0 0).
  - simpl. lia.
  - right. simpl. lia.
Defined.

(** The conversion of a 1 x 1 RGB pixel (255, 0, 51): each channel is
    scaled by 4/255. *)
Example VisualizeBottom_rgb_pixel :
  @VisualizeBottom_convert _ Scalar_float Display_float
    (tensor 1 3 1 1 (map f32 [255; 0; 51])) 0 0
  = Ok {| rows := 1; cols := 1;
          elems := [f32 4; f32 0; SFdiv 24 128 (f32 204) (f32 255)] |}.
Proof. vm_compute. reflexivity. Qed.
